(** * msband.static: the wire-format codecs of the Microsoft Band protocol

    A shallow embedding of [src/msband/static/__init__.py].  The module is
    written against the [construct] parsing library, Python's [uuid] and
    [datetime] modules; the parts of those libraries the codecs go through
    are embedded next to the adapters that use them, each under the name it
    has in Python. *)

From Stdlib Require Import String Ascii.
From Stdlib Require Import ZArith List Lia Bool.
From Stdlib Require Import Strings.Byte.
Import ListNotations.
Open Scope Z_scope.

(** ** Exceptions and results *)

(** The exceptions the codecs can raise: those of [construct] first, then the
    Python built-ins. *)
Inductive exn : Type :=
| StreamError | PaddingError | FormatFieldError | StringError | MappingError
| KeyError (key : string)
| ValueError | OverflowError | TypeError
| UnicodeDecodeError | UnicodeEncodeError.

Inductive result (A : Type) : Type :=
| Ok (a : A)
| Raise (e : exn).
Arguments Ok {A} a.
Arguments Raise {A} e.

Definition bind {A B} (r : result A) (k : A -> result B) : result B :=
  match r with
  | Ok a => k a
  | Raise e => Raise e
  end.

Notation "x <- r ;; k" := (bind r (fun x => k))
  (at level 61, r at next level, right associativity).
Notation "' p <- r ;; k" := (bind r (fun p => k))
  (at level 61, p pattern, r at next level, right associativity).

(** The call raised. *)
Definition fails {A} (r : result A) : Prop := exists e, r = Raise e.

(** ** Bytes and Python integers *)

Definition bytes := list byte.

Definition Z_of_byte (b : byte) : Z := Z.of_N (Byte.to_N b).

Definition byte_of_Z (z : Z) : byte :=
  match Byte.of_N (Z.to_N (z mod 256)) with
  | Some b => b
  | None => x00
  end.

(** [bytes(n)]: [n] zero bytes. *)
Definition zeros (n : nat) : bytes := repeat x00 n.

(** [int.from_bytes(b, "little")] and [v.to_bytes(n, "little")] on a value
    already known to fit. *)
Fixpoint from_bytes_le (b : bytes) : Z :=
  match b with
  | [] => 0
  | x :: r => Z_of_byte x + 256 * from_bytes_le r
  end.

Fixpoint to_bytes_le (n : nat) (v : Z) : bytes :=
  match n with
  | O => []
  | S k => byte_of_Z (v mod 256) :: to_bytes_le k (v / 256)
  end.

(** [int.from_bytes(b)] (big-endian is Python's default) and
    [v.to_bytes(n)], which raises [OverflowError] when [v] is negative or
    does not fit. *)
Definition from_bytes (b : bytes) : Z := from_bytes_le (rev b).

Definition to_bytes (v : Z) (n : nat) : result bytes :=
  if (0 <=? v) && (v <? 256 ^ Z.of_nat n)
  then Ok (rev (to_bytes_le n v))
  else Raise OverflowError.

(** ** Streams ([construct]'s [stream_read], [stream_write], [stream_tell]) *)

(** A stream being parsed is the list of bytes not yet read. *)
Definition parser (A : Type) := bytes -> result (A * bytes).

Definition stream_read (n : nat) : parser bytes := fun s =>
  if (n <=? length s)%nat then Ok (firstn n s, skipn n s) else Raise StreamError.

Definition stream_read_entire : parser bytes := fun s => Ok (s, []).

(** [stream_write(stream, data, length)] refuses data of another length. *)
Definition stream_write (data : bytes) (n : nat) : result bytes :=
  if (length data =? n)%nat then Ok data else Raise StreamError.

(** [Construct.parse(data)]: parse from a fresh stream over [data]; what is
    left in the stream afterwards is not looked at. *)
Definition parse {A} (p : parser A) (data : bytes) : result A :=
  '(a, _) <- p data ;; Ok a.

(** ** [construct]'s scalar fields *)

(** [Bytes(n)] *)
Module Bytes.
Definition _parse (n : nat) : parser bytes := stream_read n.
Definition _build (n : nat) (obj : bytes) : result bytes := stream_write obj n.
End Bytes.

(** [GreedyBytes] *)
Module GreedyBytes.
Definition _parse : parser bytes := stream_read_entire.
Definition _build (obj : bytes) : result bytes := Ok obj.
End GreedyBytes.

(** [FormatField("<", ...)]: the unsigned little-endian integers [Int8ul],
    [Int16ul], [Int32ul] and [Int64ul], by their width in bytes. *)
Module FormatField.
Definition _parse (n : nat) : parser Z := fun s =>
  '(data, s') <- stream_read n s ;; Ok (from_bytes_le data, s').
Definition _build (n : nat) (obj : Z) : result bytes :=
  if (0 <=? obj) && (obj <? 256 ^ Z.of_nat n)
  then Ok (to_bytes_le n obj)
  else Raise FormatFieldError.
End FormatField.

Definition Int8ul := 1%nat.
Definition Int16ul := 2%nat.
Definition Int32ul := 4%nat.
Definition Int64ul := 8%nat.

(** ** [uuid.UUID] *)

Record UUID : Type := mkUUID { UUID_int : Z }.

Module uuid.
(** [UUID(bytes_le=b)]: the slices [b[3::-1] + b[5:3:-1] + b[7:5:-1] + b[8:]]
    read big-endian. *)
Definition of_bytes_le (bytes_le : bytes) : result UUID :=
  if (length bytes_le =? 16)%nat then
    let b := rev (firstn 4 bytes_le) ++ rev (firstn 2 (skipn 4 bytes_le))
             ++ rev (firstn 2 (skipn 6 bytes_le)) ++ skipn 8 bytes_le in
    Ok (mkUUID (from_bytes b))
  else Raise ValueError.

(** The [bytes] property: [self.int.to_bytes(16)]. *)
Definition bytes (u : UUID) : result (list byte) := to_bytes (UUID_int u) 16.

(** The [bytes_le] property. *)
Definition bytes_le (u : UUID) : result (list byte) :=
  b <- bytes u ;;
  Ok (rev (firstn 4 b) ++ rev (firstn 2 (skipn 4 b))
      ++ rev (firstn 2 (skipn 6 b)) ++ skipn 8 b).
End uuid.

(** ** [GUIDAdapter] *)

Module GUIDAdapter.
Definition _encode (guid : UUID) : result bytes := uuid.bytes_le guid.
Definition _decode (guid : bytes) : result UUID := uuid.of_bytes_le guid.

(** [GUIDAdapter(Bytes(16))] *)
Definition _parse : parser UUID := fun s =>
  '(raw, s') <- Bytes._parse 16 s ;;
  u <- _decode raw ;; Ok (u, s').
Definition _build (guid : UUID) : result bytes :=
  raw <- _encode guid ;; Bytes._build 16 raw.
End GUIDAdapter.

(** ** Python floats

    [BandTime._encode] goes through two float operations: the true division
    inside [timedelta.total_seconds()] and a multiplication by [10000000].
    Both are correctly rounded IEEE 754 binary64 operations (round to
    nearest, ties to even).  A float is kept as [mant * 2 ^ expo]; the
    values met here are zero or positive and far inside the normal range, so
    neither overflow nor subnormals are modelled. *)

Record float : Type := mkFloat { mant : Z; expo : Z }.

(** The integer nearest to [n / d], ties to even ([0 < d]). *)
Definition round_half_even (n d : Z) : Z :=
  let q := n / d in
  let r := n mod d in
  match 2 * r ?= d with
  | Lt => q
  | Gt => q + 1
  | Eq => if Z.even q then q else q + 1
  end.

(** The binary64 nearest to the rational [n / d] ([0 <= n], [0 < d]): the
    exponent is chosen so that the quotient, scaled, has 53 bits. *)
Definition float_of_ratio (n d : Z) : float :=
  if n =? 0 then mkFloat 0 0 else
  let k := Z.log2 n - Z.log2 d in
  let lg := if n * 2 ^ Z.max 0 (- k) <? d * 2 ^ Z.max 0 k then k - 1 else k in
  let e := lg - 52 in
  mkFloat (round_half_even (n * 2 ^ Z.max 0 (- e)) (d * 2 ^ Z.max 0 e)) e.

(** [a / b] on Python ints. *)
Definition int_truediv (a b : Z) : float := float_of_ratio a b.

(** [f * c] for an int [c] that converts to a float exactly. *)
Definition float_mul_int (f : float) (c : Z) : float :=
  float_of_ratio (mant f * c * 2 ^ Z.max 0 (expo f)) (2 ^ Z.max 0 (- expo f)).

(** [int(f)] for [f >= 0]. *)
Definition int_of_float (f : float) : Z :=
  if 0 <=? expo f then mant f * 2 ^ expo f else mant f / 2 ^ (- expo f).

(** ** [datetime]: aware UTC datetimes and timedeltas

    An aware datetime in UTC, the only kind [BandTime] compares with [EPOCH]
    without a [TypeError], is represented by its distance from
    [datetime.min] (0001-01-01T00:00:00) in microseconds; a timedelta by its
    length in microseconds. *)

Definition datetime := Z.
Definition timedelta := Z.

Definition us_per_day : Z := 86400 * 1000000.

(** [datetime.max]: 9999-12-31T23:59:59.999999, the last microsecond of day
    3652059. *)
Definition datetime_max : datetime := 3652059 * us_per_day - 1.

(** [timedelta(microseconds=us)]: the day count is limited to nine digits. *)
Definition timedelta_microseconds (us : Z) : result timedelta :=
  if (-999999999 <=? us / us_per_day) && (us / us_per_day <=? 999999999)
  then Ok us else Raise OverflowError.

(** [d + td]: "date value out of range" outside [datetime.min, datetime.max]. *)
Definition datetime_add (d : datetime) (td : timedelta) : result datetime :=
  let r := d + td in
  if (0 <=? r) && (r <=? datetime_max) then Ok r else Raise OverflowError.

(** [d1 - d2] *)
Definition datetime_sub (d1 d2 : datetime) : timedelta := d1 - d2.

(** [td.total_seconds()]: the microseconds divided by [10**6]. *)
Definition total_seconds (td : timedelta) : float := int_truediv td (10 ^ 6).

(** [EPOCH = dt.datetime(1601, 1, 1, tzinfo=dt.timezone.utc)]: 1600 years,
    that is 584388 days, after [datetime.min]. *)
Definition EPOCH : datetime := 584388 * us_per_day.

(** ** [BandTime] *)

Module BandTime.
Definition _decode (obj : Z) : result datetime :=
  td <- timedelta_microseconds (obj / 10) ;;
  datetime_add EPOCH td.

Definition _encode (date : datetime) : result Z :=
  if datetime_max <? date then Raise ValueError
  else if date <? EPOCH then Raise ValueError
  else Ok (int_of_float
             (float_mul_int (total_seconds (datetime_sub date EPOCH)) 10000000)).

(** [BandTime(Int64ul)] *)
Definition _parse : parser datetime := fun s =>
  '(obj, s') <- FormatField._parse Int64ul s ;;
  d <- _decode obj ;; Ok (d, s').
Definition _build (date : datetime) : result bytes :=
  obj <- _encode date ;; FormatField._build Int64ul obj.
End BandTime.


(** ** [itertools.islice], [zip] and [bytearray] *)

(** [islice(l, start, None, step)]: [wait] elements are passed over before
    the next one is yielded. *)
Fixpoint islice_from {A} (l : list A) (wait step : nat) : list A :=
  match l with
  | [] => []
  | x :: r =>
      match wait with
      | O => x :: islice_from r (step - 1) step
      | S w => islice_from r w step
      end
  end.

Definition islice {A} (l : list A) (start step : nat) : list A :=
  islice_from l start step.

(** [zip(r, g, b)] stops with the shortest of its arguments. *)
Fixpoint zip3 {A} (r g b : list A) : list (A * A * A) :=
  match r, g, b with
  | x :: r', y :: g', z :: b' => (x, y, z) :: zip3 r' g' b'
  | _, _, _ => []
  end.

(** [bytearray(ints)] wants every int in [range(256)]. *)
Fixpoint bytearray (ints : list Z) : result bytes :=
  match ints with
  | [] => Ok []
  | i :: r =>
      if (0 <=? i) && (i <? 256)
      then (bs <- bytearray r ;; Ok (byte_of_Z i :: bs))
      else Raise ValueError
  end.

(** ** [MeTileAdapter] *)

Module MeTileAdapter.
(** The two bytes written for one pixel, low byte first. *)
Definition pixel (r_value g_value b_value : Z) : list Z :=
  [ Z.lor (Z.land (Z.shiftl g_value 3) 224) (Z.land (Z.shiftr b_value 3) 31);
    Z.lor (Z.land r_value 248)
          (Z.land (Z.shiftr (Z.shiftr g_value 2) 3) 7) ].

(** [_encode], on [rgb = image.tobytes("raw", "RGB")]; iterating over a
    bytes object yields ints. *)
Definition _encode (rgb : bytes) : result bytes :=
  let ints := map Z_of_byte rgb in
  let r := islice ints 0 3 in
  let g := islice ints 1 3 in
  let b := islice ints 2 3 in
  bgr <- bytearray
           (flat_map (fun '(r_value, g_value, b_value) =>
                        pixel r_value g_value b_value) (zip3 r g b)) ;;
  Ok ([] ++ bgr).
End MeTileAdapter.

(** ** Dictionaries with int values, and [construct.Struct] over them *)

Definition dict := list (string * Z).

(** [obj[key]] *)
Fixpoint getitem (obj : dict) (key : string) : result Z :=
  match obj with
  | [] => Raise (KeyError key)
  | (k, v) :: r => if String.eqb k key then Ok v else getitem r key
  end.

(** A [Struct] all of whose subcons are named unsigned integers, each given
    by its name and width.  Building looks every subcon up in [obj] by name;
    parsing returns the Container of the values read. *)
Module Struct.
Fixpoint _build (subcons : list (string * nat)) (obj : dict) : result bytes :=
  match subcons with
  | [] => Ok []
  | (name, width) :: rest =>
      subobj <- getitem obj name ;;
      data <- FormatField._build width subobj ;;
      more <- _build rest obj ;;
      Ok (data ++ more)
  end.

Fixpoint _parse (subcons : list (string * nat)) : parser dict := fun s =>
  match subcons with
  | [] => Ok ([], s)
  | (name, width) :: rest =>
      '(v, s1) <- FormatField._parse width s ;;
      '(more, s2) <- _parse rest s1 ;;
      Ok ((name, v) :: more, s2)
  end.
End Struct.

(** ** [RGB], [ARGB] and [ArgbAdapter] *)

(** The dataclass [ARGB(RGB)]: the inherited fields come first. *)
Record ARGB : Type := mkARGB { red : Z; green : Z; blue : Z; alpha : Z }.

(** [ARGB.struct]; [Hex] only changes how an integer is displayed. *)
Definition ARGB_struct : list (string * nat) :=
  [("alpha", Int8ul); ("red", Int8ul); ("green", Int8ul); ("blue", Int8ul)]%string.

(** [vars(ARGB)], the namespace of the class itself: of the four field names
    it holds only [alpha], the one field declared with a default in the
    class body ([red], [green] and [blue] are annotations of the base class
    [RGB]); its other entries ([struct], [__repr__], the dataclass
    machinery) are not integers and are under names no subcon has.
    Building from it raises before a byte is written, at the latest when
    [red] is looked up, which is where this embedding raises. *)
Definition vars_ARGB : dict := [("alpha", 255)]%string.

Module ArgbAdapter.
(** [_encode] builds from [vars(ARGB)]; it does not read [obj]. *)
Definition _encode (obj : ARGB) : result bytes :=
  Struct._build ARGB_struct vars_ARGB.

Definition _decode (obj : bytes) : result ARGB :=
  parsed <- parse (Struct._parse ARGB_struct) obj ;;
  a <- getitem parsed "alpha" ;;
  r <- getitem parsed "red" ;;
  g <- getitem parsed "green" ;;
  b <- getitem parsed "blue" ;;
  Ok (mkARGB r g b a).
End ArgbAdapter.

(** [ArgbStruct = ArgbAdapter(Bytes(4))] *)
Module ArgbStruct.
Definition _parse : parser ARGB := fun s =>
  '(raw, s') <- Bytes._parse 4 s ;;
  v <- ArgbAdapter._decode raw ;; Ok (v, s').
Definition _build (obj : ARGB) : result bytes :=
  raw <- ArgbAdapter._encode obj ;; Bytes._build 4 raw.
End ArgbStruct.

(** ** [TileSettings] and [construct.FlagsEnum] *)

(** The members of [TileSettings], in the order of the class body. *)
Definition TileSettings : list (string * Z) :=
  [("Null", 0); ("EnableNotification", 1); ("EnableBadging", 2);
   ("UseCustomColorForTile", 4); ("EnableAutoUpdate", 8);
   ("ScreenTimeout30Seconds", 16); ("ScreenTimeoutDisabled", 32)]%string.

(** [for enumentry in enum]: iterating over a flag class yields every member
    up to Python 3.10 and leaves the zero-valued ones out from 3.11 on. *)
Definition iter_flag (with_zero : bool) (enum : list (string * Z))
  : list (string * Z) :=
  if with_zero then enum else filter (fun '(_, v) => negb (v =? 0)) enum.

(** What [FlagsEnum] builds from: an int (written as it is) or a dictionary
    from names to truth values, the Container that parsing returns (a third
    form, a string of names joined by ["|"], is not needed here). *)
Inductive flags_obj : Type :=
| FlagsInt (i : Z)
| FlagsDict (d : list (string * bool)).

Definition startswith_underscore (name : string) : bool :=
  match name with
  | String c _ => Ascii.eqb c "_"
  | EmptyString => false
  end.

Module FlagsEnum.
(** The Container of one truth value per name, after the marker
    [_flagsenum]. *)
Definition _decode (flags : dict) (obj : Z) : list (string * bool) :=
  ("_flagsenum"%string, true)
    :: map (fun '(name, value) => (name, Z.land obj value =? value)) flags.

Fixpoint encode_items (flags : dict) (items : list (string * bool)) (acc : Z)
  : result Z :=
  match items with
  | [] => Ok acc
  | (name, value) :: rest =>
      if negb (startswith_underscore name) && value
      then match getitem flags name with
           | Ok v => encode_items flags rest (Z.lor acc v)
           | Raise _ => Raise MappingError
           end
      else encode_items flags rest acc
  end.

Definition _encode (flags : dict) (obj : flags_obj) : result Z :=
  match obj with
  | FlagsInt i => Ok i
  | FlagsDict d => encode_items flags d 0
  end.

(** [FlagsEnum(Int16ul, enum)] *)
Definition _parse (flags : dict) : parser (list (string * bool)) := fun s =>
  '(obj, s') <- FormatField._parse Int16ul s ;;
  Ok (_decode flags obj, s').
Definition _build (flags : dict) (obj : flags_obj) : result bytes :=
  i <- _encode flags obj ;; FormatField._build Int16ul i.
End FlagsEnum.


(** ** Python strings and the [utf_16_le] codec *)

(** A [str] is the list of its code points; [len] counts code points. *)
Definition str := list Z.

(** The UTF-16 code units of one code point; a surrogate cannot be encoded. *)
Definition utf16_units (c : Z) : result (list Z) :=
  if (c <? 0) || (0x10FFFF <? c) then Raise UnicodeEncodeError
  else if c <? 0x10000 then
    if (0xD800 <=? c) && (c <=? 0xDFFF) then Raise UnicodeEncodeError
    else Ok [c]
  else
    let c' := c - 0x10000 in
    Ok [0xD800 + Z.shiftr c' 10; 0xDC00 + Z.land c' 0x3FF].

(** [s.encode("utf_16_le")] *)
Fixpoint utf_16_le_encode (s : str) : result bytes :=
  match s with
  | [] => Ok []
  | c :: r =>
      us <- utf16_units c ;;
      more <- utf_16_le_encode r ;;
      Ok (flat_map (to_bytes_le 2) us ++ more)
  end.

(** The code units of a byte string; an odd byte at the end is an error. *)
Fixpoint units_of_bytes (b : bytes) : result (list Z) :=
  match b with
  | [] => Ok []
  | [_] => Raise UnicodeDecodeError
  | lo :: hi :: r =>
      us <- units_of_bytes r ;;
      Ok (from_bytes_le [lo; hi] :: us)
  end.

Definition is_high_surrogate (u : Z) : bool := (0xD800 <=? u) && (u <=? 0xDBFF).
Definition is_low_surrogate (u : Z) : bool := (0xDC00 <=? u) && (u <=? 0xDFFF).

Fixpoint decode_units (us : list Z) : result str :=
  match us with
  | [] => Ok []
  | u :: r =>
      if is_high_surrogate u then
        match r with
        | v :: r' =>
            if is_low_surrogate v
            then (cs <- decode_units r' ;;
                  Ok (0x10000 + (u - 0xD800) * 1024 + (v - 0xDC00) :: cs))
            else Raise UnicodeDecodeError
        | [] => Raise UnicodeDecodeError
        end
      else if is_low_surrogate u then Raise UnicodeDecodeError
      else (cs <- decode_units r ;; Ok (u :: cs))
  end.

(** [b.decode("utf_16_le")] *)
Definition utf_16_le_decode (b : bytes) : result str :=
  us <- units_of_bytes b ;; decode_units us.

(** ** [construct.PaddedString], [Padded], [If] and [Flag] *)

(** [NullStripped(GreedyBytes, pad=b"\x00\x00")._parse]: an odd zero byte at
    the end goes, then every trailing zero unit; written on the reversed
    data. *)
Fixpoint strip_units (r : bytes) : bytes :=
  match r with
  | a :: b :: r' =>
      if Byte.eqb a x00 && Byte.eqb b x00 then strip_units r' else r
  | _ => r
  end.

Definition NullStripped (data : bytes) : bytes :=
  let r := rev data in
  let r1 := if Nat.odd (length data)
            then match r with
                 | a :: r' => if Byte.eqb a x00 then r' else r
                 | [] => r
                 end
            else r in
  rev (strip_units r1).

(** [PaddedString(length, "utf_16_le")], that is
    [StringEncoded(FixedSized(length, NullStripped(GreedyBytes)))]. *)
Module PaddedString.
Definition _parse (length : Z) : parser str := fun s =>
  if length <? 0 then Raise PaddingError else
  '(data, s') <- stream_read (Z.to_nat length) s ;;
  v <- utf_16_le_decode (NullStripped data) ;;
  Ok (v, s').

Definition _build (length : Z) (obj : str) : result bytes :=
  data <- match obj with
          | [] => Ok []
          | _ => utf_16_le_encode obj
          end ;;
  if length <? 0 then Raise PaddingError else
  let pad := length - Z.of_nat (List.length data) in
  if pad <? 0 then Raise PaddingError
  else Ok (data ++ zeros (Z.to_nat pad)).
End PaddedString.

(** [Padded(length, subcon)]: the bytes the subcon read or wrote are counted
    by the stream positions before and after it. *)
Module Padded.
Definition _parse {A} (length : Z) (subcon : parser A) : parser A := fun s =>
  if length <? 0 then Raise PaddingError else
  '(obj, s1) <- subcon s ;;
  let pad := length - (Z.of_nat (List.length s) - Z.of_nat (List.length s1)) in
  if pad <? 0 then Raise PaddingError else
  '(_, s2) <- stream_read (Z.to_nat pad) s1 ;;
  Ok (obj, s2).

Definition _build {A} (length : Z) (subcon : A -> result bytes) (obj : A)
  : result bytes :=
  if length <? 0 then Raise PaddingError else
  data <- subcon obj ;;
  let pad := length - Z.of_nat (List.length data) in
  if pad <? 0 then Raise PaddingError
  else Ok (data ++ zeros (Z.to_nat pad)).
End Padded.

(** [If(cond, subcon)]: when the condition is false nothing is read and the
    value is [None], nothing is written whatever the value; [on_none] is
    what the subcon raises when asked to build [None]. *)
Module If.
Definition _parse {A} (cond : bool) (subcon : parser A) : parser (option A) :=
  fun s =>
    if cond then ('(v, s') <- subcon s ;; Ok (Some v, s')) else Ok (None, s).

Definition _build {A} (cond : bool) (subcon : A -> result bytes) (on_none : exn)
    (obj : option A) : result bytes :=
  if cond then
    match obj with
    | Some v => subcon v
    | None => Raise on_none
    end
  else Ok [].
End If.

(** [Flag] *)
Module Flag.
Definition _parse : parser bool := fun s =>
  '(data, s') <- stream_read 1 s ;;
  Ok (negb (from_bytes_le data =? 0), s').
Definition _build (obj : bool) : result bytes :=
  Ok (if obj then [x01] else [x00]).
End Flag.

(** ** [TileData] *)

Module TileData.
(** The Container a tile is built from and parsed to.  [_NameLength] may be
    left out ([None]) when building: it is a [Default]. *)
Record obj : Type := mk {
  GUID : UUID;
  Order : Z;
  ThemeColor : ARGB;
  _NameLength : option Z;
  SettingsMask : flags_obj;
  TileName : str;
  OwnerGUID : UUID
}.

(** The length [Padded] is given, as the source writes it. *)
Definition size : Z := 16 + 4 + 4 + 2 + 2 + 60.

Section Flags.
(** Whether iterating over [TileSettings] yields [Null] (see [iter_flag]). *)
Variable with_zero : bool.

Definition struct_parse : parser obj := fun s =>
  '(guid, s) <- GUIDAdapter._parse s ;;
  '(order, s) <- FormatField._parse Int32ul s ;;
  '(color, s) <- ArgbStruct._parse s ;;
  '(namelength, s) <- FormatField._parse Int16ul s ;;
  '(mask, s) <- FlagsEnum._parse (iter_flag with_zero TileSettings) s ;;
  '(name, s) <- PaddedString._parse (namelength * 2) s ;;
  '(owner, s) <- GUIDAdapter._parse s ;;
  Ok (mk guid order color (Some namelength) (FlagsDict mask) name owner, s).

Definition struct_build (o : obj) : result bytes :=
  b1 <- GUIDAdapter._build (GUID o) ;;
  b2 <- FormatField._build Int32ul (Order o) ;;
  b3 <- ArgbStruct._build (ThemeColor o) ;;
  let namelength := match _NameLength o with
                    | Some n => n
                    | None => Z.of_nat (List.length (TileName o))
                    end in
  b4 <- FormatField._build Int16ul namelength ;;
  b5 <- FlagsEnum._build (iter_flag with_zero TileSettings) (SettingsMask o) ;;
  b6 <- PaddedString._build (namelength * 2) (TileName o) ;;
  b7 <- GUIDAdapter._build (OwnerGUID o) ;;
  Ok (b1 ++ b2 ++ b3 ++ b4 ++ b5 ++ b6 ++ b7).

Definition _parse : parser obj := Padded._parse size struct_parse.
Definition _build (o : obj) : result bytes := Padded._build size struct_build o.
End Flags.
End TileData.


(** ** [BandSystemTime] and [BandSystemDateTimeAdapter] *)

Module BandSystemTime.
Record t : Type := mk {
  Year : Z;
  Month : Z;
  DayOfWeek : Z;
  Day : Z;
  Hour : Z;
  Minute : Z;
  Second : Z;
  Milliseconds : Z
}.
End BandSystemTime.

(** [BandSystemTimeStruct = DataclassStruct(BandSystemTime)]: eight
    [Int16ul], in the order of the fields ([Default] only steps in for a
    field that is [None]). *)
Module BandSystemTimeStruct.
Import BandSystemTime.
Definition size : Z := 16.

Definition _parse : parser BandSystemTime.t := fun s =>
  '(year, s) <- FormatField._parse Int16ul s ;;
  '(month, s) <- FormatField._parse Int16ul s ;;
  '(dayofweek, s) <- FormatField._parse Int16ul s ;;
  '(day, s) <- FormatField._parse Int16ul s ;;
  '(hour, s) <- FormatField._parse Int16ul s ;;
  '(minute, s) <- FormatField._parse Int16ul s ;;
  '(second, s) <- FormatField._parse Int16ul s ;;
  '(milliseconds, s) <- FormatField._parse Int16ul s ;;
  Ok (mk year month dayofweek day hour minute second milliseconds, s).

Definition _build (o : BandSystemTime.t) : result bytes :=
  b1 <- FormatField._build Int16ul (Year o) ;;
  b2 <- FormatField._build Int16ul (Month o) ;;
  b3 <- FormatField._build Int16ul (DayOfWeek o) ;;
  b4 <- FormatField._build Int16ul (Day o) ;;
  b5 <- FormatField._build Int16ul (Hour o) ;;
  b6 <- FormatField._build Int16ul (Minute o) ;;
  b7 <- FormatField._build Int16ul (Second o) ;;
  b8 <- FormatField._build Int16ul (Milliseconds o) ;;
  Ok (b1 ++ b2 ++ b3 ++ b4 ++ b5 ++ b6 ++ b7 ++ b8).
End BandSystemTimeStruct.

(** A naive [dt.datetime], as its constructor builds it from fields. *)
Module dt.
Record naive : Type := mk {
  year : Z;
  month : Z;
  day : Z;
  hour : Z;
  minute : Z;
  second : Z;
  microsecond : Z
}.

Definition _is_leap (y : Z) : bool :=
  (y mod 4 =? 0) && (negb (y mod 100 =? 0) || (y mod 400 =? 0)).

Definition _DAYS_IN_MONTH : list Z :=
  [-1; 31; 28; 31; 30; 31; 30; 31; 31; 30; 31; 30; 31].

Definition _DAYS_BEFORE_MONTH : list Z :=
  [-1; 0; 31; 59; 90; 120; 151; 181; 212; 243; 273; 304; 334].

Definition _days_in_month (y m : Z) : Z :=
  if (m =? 2) && _is_leap y then 29 else nth (Z.to_nat m) _DAYS_IN_MONTH 0.

Definition _days_before_year (y0 : Z) : Z :=
  let y := y0 - 1 in
  y * 365 + y / 4 - y / 100 + y / 400.

Definition _days_before_month (y m : Z) : Z :=
  nth (Z.to_nat m) _DAYS_BEFORE_MONTH 0
  + (if (2 <? m) && _is_leap y then 1 else 0).

Definition _ymd2ord (y m d : Z) : Z :=
  _days_before_year y + _days_before_month y m + d.

(** [dt.datetime(year=..., ..., microsecond=...)]: the date fields are
    checked, then the time fields. *)
Definition datetime (year month day hour minute second microsecond : Z)
  : result naive :=
  if negb ((1 <=? year) && (year <=? 9999)) then Raise ValueError
  else if negb ((1 <=? month) && (month <=? 12)) then Raise ValueError
  else if negb ((1 <=? day) && (day <=? _days_in_month year month))
       then Raise ValueError
  else if negb ((0 <=? hour) && (hour <=? 23)) then Raise ValueError
  else if negb ((0 <=? minute) && (minute <=? 59)) then Raise ValueError
  else if negb ((0 <=? second) && (second <=? 59)) then Raise ValueError
  else if negb ((0 <=? microsecond) && (microsecond <=? 999999))
       then Raise ValueError
  else Ok (mk year month day hour minute second microsecond).

(** [date.weekday()]: Monday is 0. *)
Definition weekday (d : naive) : Z :=
  (_ymd2ord (year d) (month d) (day d) + 6) mod 7.
End dt.

Module BandSystemDateTimeAdapter.
Import BandSystemTime.
Definition _decode (obj : BandSystemTime.t) : result dt.naive :=
  dt.datetime (Year obj) (Month obj) (Day obj) (Hour obj) (Minute obj)
              (Second obj) (Milliseconds obj * 1000).

Definition _encode (date : dt.naive) : BandSystemTime.t :=
  mk (dt.year date) (dt.month date) (dt.weekday date) (dt.day date)
     (dt.hour date) (dt.minute date) (dt.second date)
     (dt.microsecond date / 1000).
End BandSystemDateTimeAdapter.

(** ** The enumeration adapters of [msband.sugar] and [msband.static.i18n]

    Neither module is among the sources.  [Profile] needs from them only the
    [_decode] and [_encode] of six adapters, which are taken as parameters.
    The members of an [IntEnum] are ints: a member is represented by its
    value. *)

Record Adapter : Type := mkAdapter {
  decode : Z -> result Z;
  encode : Z -> result Z
}.

Record Enums : Type := mkEnums {
  GenderEnum : Adapter;               (* TEnum(_, Gender) *)
  LocaleIdAdapter : Adapter;
  LanguageAdapter : Adapter;
  DisplayTimeFormatAdapter : Adapter;
  DisplayDateFormatAdapter : Adapter;
  UnitTypeAdapter : Adapter
}.

(** An adapter over an integer field of the given width. *)
Module Adapted.
Definition _parse (a : Adapter) (width : nat) : parser Z := fun s =>
  '(obj, s') <- FormatField._parse width s ;;
  v <- decode a obj ;; Ok (v, s').
Definition _build (a : Adapter) (width : nat) (v : Z) : result bytes :=
  obj <- encode a v ;; FormatField._build width obj.
End Adapted.

(** Modelled from the spec: the enumeration adapter of [msband.sugar], which
    is not among the sources, as the spec's strict enumeration codec over a
    table of codes: a code outside the table is not decoded, a value outside
    it is not encoded. *)
Definition strict_adapter (codes : list Z) : Adapter :=
  let check v :=
    if existsb (Z.eqb v) codes then Ok v else Raise MappingError in
  mkAdapter check check.

(** ** [Profile] *)

Module Profile.
Record t : Type := mk {
  Version : Z;
  LastSync : datetime;
  UserGUID : UUID;
  Birthday : datetime;
  Weight_g : Z;
  Height_mm : Z;
  Gender : Z;
  DeviceName : str;
  LocaleName : str;
  LocaleId : Z;
  Language : Z;
  DateSeparator : str;
  NumberSeparator : str;
  DecimalSeparator : str;
  TimeFormat : Z;
  DateFormat : Z;
  DistanceShortUnits : Z;
  DistanceLongUnits : Z;
  MassUnits : Z;
  VolumeUnits : Z;
  EnergyUnits : Z;
  TemperatureUnits : Z;
  RunDisplayUnits : Z;
  Telemetry : bool;
  HwagChangeTime : option datetime;
  HwagChangeAgent : option Z;
  DeviceNameChangeTime : option datetime;
  DeviceNameChangeAgent : option Z;
  LocaleSettingsChangeTime : option datetime;
  LocaleSettingsChangeAgent : option Z;
  LanguageChangeTime : option datetime;
  LanguageChangeAgent : option Z;
  MaxHR : option Z;
  ReservedData : bytes
}.
End Profile.

Definition PROFILE_SIZE : Z := 397.

Module ProfileStruct.
Import Profile.
Section Enums.
Variable E : Enums.

(** [DataclassStruct(Profile)] *)
Definition struct_parse : parser Profile.t := fun s =>
  '(version, s) <- FormatField._parse Int16ul s ;;
  '(lastsync, s) <- BandTime._parse s ;;
  '(userguid, s) <- GUIDAdapter._parse s ;;
  '(birthday, s) <- BandTime._parse s ;;
  '(weight_g, s) <- FormatField._parse Int32ul s ;;
  '(height_mm, s) <- FormatField._parse Int16ul s ;;
  '(gender, s) <- Adapted._parse (GenderEnum E) Int8ul s ;;
  '(devicename, s) <- PaddedString._parse (16 * 2) s ;;
  '(localename, s) <- PaddedString._parse (6 * 2) s ;;
  '(localeid, s) <- Adapted._parse (LocaleIdAdapter E) Int16ul s ;;
  '(language, s) <- Adapted._parse (LanguageAdapter E) Int16ul s ;;
  '(dateseparator, s) <- PaddedString._parse (1 * 2) s ;;
  '(numberseparator, s) <- PaddedString._parse (1 * 2) s ;;
  '(decimalseparator, s) <- PaddedString._parse (1 * 2) s ;;
  '(timeformat, s) <- Adapted._parse (DisplayTimeFormatAdapter E) Int8ul s ;;
  '(dateformat, s) <- Adapted._parse (DisplayDateFormatAdapter E) Int8ul s ;;
  '(distanceshortunits, s) <- Adapted._parse (UnitTypeAdapter E) Int8ul s ;;
  '(distancelongunits, s) <- Adapted._parse (UnitTypeAdapter E) Int8ul s ;;
  '(massunits, s) <- Adapted._parse (UnitTypeAdapter E) Int8ul s ;;
  '(volumeunits, s) <- Adapted._parse (UnitTypeAdapter E) Int8ul s ;;
  '(energyunits, s) <- Adapted._parse (UnitTypeAdapter E) Int8ul s ;;
  '(temperatureunits, s) <- Adapted._parse (UnitTypeAdapter E) Int8ul s ;;
  '(rundisplayunits, s) <- Adapted._parse (UnitTypeAdapter E) Int8ul s ;;
  '(telemetry, s) <- Flag._parse s ;;
  '(hwagchangetime, s) <- If._parse (2 <=? version) BandTime._parse s ;;
  '(hwagchangeagent, s) <-
     If._parse (2 <=? version) (FormatField._parse Int8ul) s ;;
  '(devicenamechangetime, s) <- If._parse (2 <=? version) BandTime._parse s ;;
  '(devicenamechangeagent, s) <-
     If._parse (2 <=? version) (FormatField._parse Int8ul) s ;;
  '(localesettingschangetime, s) <-
     If._parse (2 <=? version) BandTime._parse s ;;
  '(localesettingschangeagent, s) <-
     If._parse (2 <=? version) (FormatField._parse Int8ul) s ;;
  '(languagechangetime, s) <- If._parse (2 <=? version) BandTime._parse s ;;
  '(languagechangeagent, s) <-
     If._parse (2 <=? version) (FormatField._parse Int8ul) s ;;
  '(maxhr, s) <- If._parse (2 <=? version) (FormatField._parse Int8ul) s ;;
  '(reserveddata, s) <- GreedyBytes._parse s ;;
  Ok (mk version lastsync userguid birthday weight_g height_mm gender
         devicename localename localeid language dateseparator
         numberseparator decimalseparator timeformat dateformat
         distanceshortunits distancelongunits massunits volumeunits
         energyunits temperatureunits rundisplayunits telemetry
         hwagchangetime hwagchangeagent devicenamechangetime
         devicenamechangeagent localesettingschangetime
         localesettingschangeagent languagechangetime languagechangeagent
         maxhr reserveddata, s).

Definition struct_build (o : Profile.t) : result bytes :=
  let gated := 2 <=? Version o in
  b1 <- FormatField._build Int16ul (Version o) ;;
  b2 <- BandTime._build (LastSync o) ;;
  b3 <- GUIDAdapter._build (UserGUID o) ;;
  b4 <- BandTime._build (Birthday o) ;;
  b5 <- FormatField._build Int32ul (Weight_g o) ;;
  b6 <- FormatField._build Int16ul (Height_mm o) ;;
  b7 <- Adapted._build (GenderEnum E) Int8ul (Gender o) ;;
  b8 <- PaddedString._build (16 * 2) (DeviceName o) ;;
  b9 <- PaddedString._build (6 * 2) (LocaleName o) ;;
  b10 <- Adapted._build (LocaleIdAdapter E) Int16ul (LocaleId o) ;;
  b11 <- Adapted._build (LanguageAdapter E) Int16ul (Language o) ;;
  b12 <- PaddedString._build (1 * 2) (DateSeparator o) ;;
  b13 <- PaddedString._build (1 * 2) (NumberSeparator o) ;;
  b14 <- PaddedString._build (1 * 2) (DecimalSeparator o) ;;
  b15 <- Adapted._build (DisplayTimeFormatAdapter E) Int8ul (TimeFormat o) ;;
  b16 <- Adapted._build (DisplayDateFormatAdapter E) Int8ul (DateFormat o) ;;
  b17 <- Adapted._build (UnitTypeAdapter E) Int8ul (DistanceShortUnits o) ;;
  b18 <- Adapted._build (UnitTypeAdapter E) Int8ul (DistanceLongUnits o) ;;
  b19 <- Adapted._build (UnitTypeAdapter E) Int8ul (MassUnits o) ;;
  b20 <- Adapted._build (UnitTypeAdapter E) Int8ul (VolumeUnits o) ;;
  b21 <- Adapted._build (UnitTypeAdapter E) Int8ul (EnergyUnits o) ;;
  b22 <- Adapted._build (UnitTypeAdapter E) Int8ul (TemperatureUnits o) ;;
  b23 <- Adapted._build (UnitTypeAdapter E) Int8ul (RunDisplayUnits o) ;;
  b24 <- Flag._build (Telemetry o) ;;
  b25 <- If._build gated BandTime._build TypeError (HwagChangeTime o) ;;
  b26 <- If._build gated (FormatField._build Int8ul) FormatFieldError
           (HwagChangeAgent o) ;;
  b27 <- If._build gated BandTime._build TypeError (DeviceNameChangeTime o) ;;
  b28 <- If._build gated (FormatField._build Int8ul) FormatFieldError
           (DeviceNameChangeAgent o) ;;
  b29 <- If._build gated BandTime._build TypeError
           (LocaleSettingsChangeTime o) ;;
  b30 <- If._build gated (FormatField._build Int8ul) FormatFieldError
           (LocaleSettingsChangeAgent o) ;;
  b31 <- If._build gated BandTime._build TypeError (LanguageChangeTime o) ;;
  b32 <- If._build gated (FormatField._build Int8ul) FormatFieldError
           (LanguageChangeAgent o) ;;
  b33 <- If._build gated (FormatField._build Int8ul) FormatFieldError
           (MaxHR o) ;;
  b34 <- GreedyBytes._build (ReservedData o) ;;
  Ok (b1 ++ b2 ++ b3 ++ b4 ++ b5 ++ b6 ++ b7 ++ b8 ++ b9 ++ b10 ++ b11
      ++ b12 ++ b13 ++ b14 ++ b15 ++ b16 ++ b17 ++ b18 ++ b19 ++ b20 ++ b21
      ++ b22 ++ b23 ++ b24 ++ b25 ++ b26 ++ b27 ++ b28 ++ b29 ++ b30 ++ b31
      ++ b32 ++ b33 ++ b34).

(** [ProfileStruct = Padded(PROFILE_SIZE, DataclassStruct(Profile))] *)
Definition _parse : parser Profile.t := Padded._parse PROFILE_SIZE struct_parse.
Definition _build (o : Profile.t) : result bytes :=
  Padded._build PROFILE_SIZE struct_build o.
End Enums.
End ProfileStruct.

(** ** [UserProfile] *)

Module UserProfile.
Record t : Type := mk {
  Version : Z;
  LastSync : datetime;
  UserGUID : UUID;
  ReservedData : bytes
}.
End UserProfile.

(** [UserProfileStruct = DataclassStruct(UserProfile)] *)
Module UserProfileStruct.
Import UserProfile.
Definition size : Z := 282.

Definition _parse : parser UserProfile.t := fun s =>
  '(version, s) <- FormatField._parse Int16ul s ;;
  '(lastsync, s) <- BandTime._parse s ;;
  '(userguid, s) <- GUIDAdapter._parse s ;;
  '(reserveddata, s) <- Bytes._parse 256 s ;;
  Ok (mk version lastsync userguid reserveddata, s).

Definition _build (o : UserProfile.t) : result bytes :=
  b1 <- FormatField._build Int16ul (Version o) ;;
  b2 <- BandTime._build (LastSync o) ;;
  b3 <- GUIDAdapter._build (UserGUID o) ;;
  b4 <- Bytes._build 256 (ReservedData o) ;;
  Ok (b1 ++ b2 ++ b3 ++ b4).
End UserProfileStruct.

(** ** [Version] *)

(** The Container of a firmware version: two [Int16ul], two [Int32ul] and a
    [Flag], in this order. *)
Module Version.
Record t : Type := mk {
  Major : Z;
  Minor : Z;
  Revision : Z;
  Build : Z;
  Debug : bool
}.

Definition _parse : parser t := fun s =>
  '(major, s) <- FormatField._parse Int16ul s ;;
  '(minor, s) <- FormatField._parse Int16ul s ;;
  '(revision, s) <- FormatField._parse Int32ul s ;;
  '(build, s) <- FormatField._parse Int32ul s ;;
  '(debug, s) <- Flag._parse s ;;
  Ok (mk major minor revision build debug, s).

Definition _build (o : t) : result bytes :=
  b1 <- FormatField._build Int16ul (Major o) ;;
  b2 <- FormatField._build Int16ul (Minor o) ;;
  b3 <- FormatField._build Int32ul (Revision o) ;;
  b4 <- FormatField._build Int32ul (Build o) ;;
  b5 <- Flag._build (Debug o) ;;
  Ok (b1 ++ b2 ++ b3 ++ b4 ++ b5).
End Version.

(** ** Python strings: [str.replace], [str.strip], [int(s, 16)], ['%032x']

    A [str] whose code points are all below 256 is represented by a
    [string], each character standing for its code point: this is the domain
    [uuid.UUID(hex=...)] is embedded on. *)

Module pystr.
Definition code (c : ascii) : Z := Z.of_N (N_of_ascii c).

Fixpoint startswith (prefix s : list ascii) : bool :=
  match prefix, s with
  | [], _ => true
  | p :: prefix', c :: s' => Ascii.eqb p c && startswith prefix' s'
  | _ :: _, [] => false
  end.

(** [s.replace(old, "")] for a non-empty [old]: the occurrences of [old]
    found from left to right, none starting inside the one before, are left
    out; [skip] counts the characters of an occurrence still to pass. *)
Fixpoint remove_from (old : list ascii) (skip : nat) (s : list ascii)
  : list ascii :=
  match s with
  | [] => []
  | c :: r =>
      match skip with
      | S k => remove_from old k r
      | O => if startswith old s then remove_from old (length old - 1) r
             else c :: remove_from old 0 r
      end
  end.

Definition remove (old s : list ascii) : list ascii := remove_from old 0 s.

(** [s.lstrip(chars)] and [s.strip(chars)] *)
Fixpoint lstrip (chars s : list ascii) : list ascii :=
  match s with
  | c :: r => if existsb (Ascii.eqb c) chars then lstrip chars r else s
  | [] => []
  end.

Definition strip (chars s : list ascii) : list ascii :=
  rev (lstrip chars (rev (lstrip chars s))).

(** What [int] passes over before and after a number: the ASCII white
    space, and the two other spaces below 256, NEL and NBSP. *)
Definition isspace (c : ascii) : bool :=
  let n := code c in
  ((9 <=? n) && (n <=? 13)) || (n =? 32) || (n =? 0x85) || (n =? 0xA0).

Fixpoint skip_spaces (s : list ascii) : list ascii :=
  match s with
  | c :: r => if isspace c then skip_spaces r else s
  | [] => []
  end.

(** The value of a character as a digit: 0 to 9, then the letters of either
    case from 10 on; 37 for any other character. *)
Definition digit_value (c : ascii) : Z :=
  let n := code c in
  if (48 <=? n) && (n <=? 57) then n - 48
  else if (97 <=? n) && (n <=? 122) then n - 87
  else if (65 <=? n) && (n <=? 90) then n - 55
  else 37.

(** The digits of a number, single underscores allowed between them: the
    value, the number of digits and what follows them; [None] for two
    underscores in a row or one at the end. *)
Fixpoint scan_digits (base : Z) (s : list ascii) (prev_underscore : bool)
    (digits : nat) (acc : Z) : option (Z * nat * list ascii) :=
  match s with
  | c :: r =>
      if Ascii.eqb c "_" then
        if prev_underscore then None else scan_digits base r true digits acc
      else if digit_value c <? base then
        scan_digits base r false (S digits) (acc * base + digit_value c)
      else if prev_underscore then None else Some (acc, digits, s)
  | [] => if prev_underscore then None else Some (acc, digits, [])
  end.

(** [int(s, 16)]: spaces, a sign, the prefix [0x] with one underscore
    allowed after it, the digits, spaces, and nothing else. *)
Definition int_16 (s : string) : result Z :=
  let s := skip_spaces (list_ascii_of_string s) in
  let '(negative, s) :=
    match s with
    | c :: r =>
        if Ascii.eqb c "+" then (false, r)
        else if Ascii.eqb c "-" then (true, r)
        else (false, s)
    | [] => (false, s)
    end in
  let s :=
    match s with
    | c :: x :: r =>
        if Ascii.eqb c "0" && (Ascii.eqb x "x" || Ascii.eqb x "X")
        then match r with
             | u :: r' => if Ascii.eqb u "_" then r' else r
             | [] => r
             end
        else s
    | _ => s
    end in
  if match s with
     | c :: _ => Ascii.eqb c "_"
     | [] => false
     end
  then Raise ValueError else
  match scan_digits 16 s false 0 0 with
  | Some (v, S _, rest) =>
      match skip_spaces rest with
      | [] => Ok (if negative then - v else v)
      | _ :: _ => Raise ValueError
      end
  | _ => Raise ValueError
  end.

Definition hex_digit (d : Z) : ascii :=
  nth (Z.to_nat d) (list_ascii_of_string "0123456789abcdef") "0"%char.

(** The hexadecimal digits of a natural number, the most significant
    first; [fuel] bounds their number. *)
Fixpoint hex_digits (fuel : nat) (n : Z) : list ascii :=
  match fuel with
  | O => []
  | S k =>
      if n <? 16 then [hex_digit n]
      else hex_digits k (n / 16) ++ [hex_digit (n mod 16)]
  end.

(** ['%032x' % i]: the sign, if any, counts in the width. *)
Definition format_032x (i : Z) : string :=
  let digits := hex_digits (S (Z.to_nat (Z.log2 (Z.abs i)))) (Z.abs i) in
  let sign := if i <? 0 then ["-"%char] else [] in
  string_of_list_ascii
    (sign ++ repeat "0"%char (32 - length sign - length digits) ++ digits).
End pystr.

(** [UUID(hex=...)] and the [hex] property of a [UUID] *)
Module uuid_hex.
Definition of_hex (hex : string) : result UUID :=
  let hex := list_ascii_of_string hex in
  let hex := pystr.remove (list_ascii_of_string "uuid:")
               (pystr.remove (list_ascii_of_string "urn:") hex) in
  let hex := pystr.remove (list_ascii_of_string "-")
               (pystr.strip (list_ascii_of_string "{}") hex) in
  if negb (length hex =? 32)%nat then Raise ValueError else
  int <- pystr.int_16 (string_of_list_ascii hex) ;;
  if negb ((0 <=? int) && (int <? 2 ^ 128)) then Raise ValueError
  else Ok (mkUUID int).

Definition hex (u : UUID) : string := pystr.format_032x (UUID_int u).
End uuid_hex.

(** ** [GUIDStringAdapter] *)

Module GUIDStringAdapter.
Definition _encode (guid : UUID) : string := uuid_hex.hex guid.
Definition _decode (guid : string) : result UUID := uuid_hex.of_hex guid.
End GUIDStringAdapter.

(** ** [PUSH_SERVICE] and [BAND_APP_IOS] *)

Definition PUSH_SERVICE : result UUID :=
  uuid_hex.of_hex "d8895bfd-0461-400d-bd52-dbe2a3c33021".
Definition BAND_APP_IOS : result UUID :=
  uuid_hex.of_hex "090fa552-5e0c-a24d-803b-af536cf97da3".

(** ** [RGB.__repr__] and [ARGB.__repr__] *)

Module pyformat.
Definition HEX_digit (d : Z) : ascii :=
  nth (Z.to_nat d) (list_ascii_of_string "0123456789ABCDEF") "0"%char.

(** The digits of a natural number in upper-case hexadecimal and in
    decimal, the most significant first; [fuel] bounds their number. *)
Fixpoint HEX_digits (fuel : nat) (n : Z) : list ascii :=
  match fuel with
  | O => []
  | S k =>
      if n <? 16 then [HEX_digit n]
      else HEX_digits k (n / 16) ++ [HEX_digit (n mod 16)]
  end.

Fixpoint dec_digits (fuel : nat) (n : Z) : list ascii :=
  match fuel with
  | O => []
  | S k =>
      if n <? 10 then [HEX_digit n]
      else dec_digits k (n / 10) ++ [HEX_digit (n mod 10)]
  end.

(** [format(i, "02X")]: padded with zeros to two characters, the sign
    included. *)
Definition format_02X (i : Z) : list ascii :=
  let digits := HEX_digits (S (Z.to_nat (Z.log2 (Z.abs i)))) (Z.abs i) in
  let sign := if i <? 0 then ["-"%char] else [] in
  sign ++ repeat "0"%char (2 - length sign - length digits) ++ digits.

(** [a / 255] on an int: the sign and the magnitude of the quotient, a
    binary64 far above the subnormal range; [OverflowError] when it rounds
    to [2 ^ 1024] or more. *)
Definition truediv_255 (a : Z) : result (bool * float) :=
  let f := float_of_ratio (Z.abs a) 255 in
  if (0 <=? expo f) && (2 ^ 1024 <=? mant f * 2 ^ expo f)
  then Raise OverflowError
  else Ok (a <? 0, f).

(** [format(x, ".0f")]: the integer nearest to [x], ties to even, after the
    sign of [x]. *)
Definition format_0f (x : bool * float) : list ascii :=
  let '(negative, f) := x in
  let r := if 0 <=? expo f then mant f * 2 ^ expo f
           else round_half_even (mant f) (2 ^ (- expo f)) in
  (if negative then ["-"%char] else [])
    ++ dec_digits (S (Z.to_nat (Z.log2 r))) r.
End pyformat.

Module RGB.
(** [f"#{self.red:02X}{self.green:02X}{self.blue:02X}"] *)
Definition __repr__ (red green blue : Z) : string :=
  string_of_list_ascii
    ("#"%char :: pyformat.format_02X red ++ pyformat.format_02X green
       ++ pyformat.format_02X blue).
End RGB.

Module ARGB.
(** [f"{super().__repr__()} ({self.alpha/255:.0f}%)"] *)
Definition __repr__ (self : ARGB) : result string :=
  x <- pyformat.truediv_255 (alpha self) ;;
  Ok (RGB.__repr__ (red self) (green self) (blue self)
      ++ string_of_list_ascii
           (list_ascii_of_string " (" ++ pyformat.format_0f x
              ++ list_ascii_of_string "%)"))%string.
End ARGB.

(** ** [RGB.struct] *)

Definition RGB_struct : list (string * nat) :=
  [("red", Int8ul); ("green", Int8ul); ("blue", Int8ul)]%string.

(** * The vocabulary of the properties *)

(** The slicing both [UUID(bytes_le=...)] and [bytes_le] perform. *)
Definition swap_fields (b : bytes) : bytes :=
  rev (firstn 4 b) ++ rev (firstn 2 (skipn 4 b))
  ++ rev (firstn 2 (skipn 6 b)) ++ skipn 8 b.

(** The packing rule in the specification's words: the top 5 bits of red in
    the most significant 5 bits of a 16-bit value, the top 6 bits of green
    in the middle, the top 5 bits of blue in the least significant 5. *)
Definition packed565 (r g b : Z) : Z :=
  Z.lor (Z.lor (Z.shiftl (Z.shiftr r 3) 11) (Z.shiftl (Z.shiftr g 2) 5))
        (Z.shiftr b 3).

(** Checking a property of small integers by running it on all of them. *)
Definition below (n : nat) : list Z := map Z.of_nat (seq 0 n).

(** What the masks of [pixel] keep of one byte. *)
Definition byte_facts (x : Z) : bool :=
  (Z.land (Z.shiftl x 3) 224 =? Z.shiftl (Z.shiftr x 2 mod 8) 5)
  && (Z.land (Z.shiftr x 3) 31 =? Z.shiftr x 3)
  && (Z.land (Z.shiftr (Z.shiftr x 2) 3) 7 =? Z.shiftr x 2 / 8)
  && (Z.land x 248 =? Z.shiftl (Z.shiftr x 3) 3)
  && (0 <=? Z.shiftr x 3) && (Z.shiftr x 3 <? 32)
  && (0 <=? Z.shiftr x 2) && (Z.shiftr x 2 <? 64).

(** The tick counts of the last microsecond of [datetime.max] and of
    [datetime.min]. *)
Definition last_tick : Z := 2650467743999999999.
Definition first_tick : Z := -504911232000000000.

(** [p] reads exactly [k] bytes whenever it succeeds. *)
Definition consumes {A} (p : parser A) (k : nat) : Prop :=
  forall s a s', p s = Ok (a, s') -> length s = (k + length s')%nat.

(** [f] writes exactly [k] bytes whenever it succeeds. *)
Definition produces {A} (f : A -> result bytes) (k : nat) : Prop :=
  forall a b, f a = Ok b -> length b = k.

(** A value [If] returned is present exactly when the condition held. *)
Definition presence {A} (present : bool) (v : option A) : Prop :=
  if present then v <> None else v = None.

(** The nine fields behind [If(this.Version >= 2, ...)], all present or all
    absent. *)
Definition gated_fields (present : bool) (r : Profile.t) : Prop :=
  presence present (Profile.HwagChangeTime r)
  /\ presence present (Profile.HwagChangeAgent r)
  /\ presence present (Profile.DeviceNameChangeTime r)
  /\ presence present (Profile.DeviceNameChangeAgent r)
  /\ presence present (Profile.LocaleSettingsChangeTime r)
  /\ presence present (Profile.LocaleSettingsChangeAgent r)
  /\ presence present (Profile.LanguageChangeTime r)
  /\ presence present (Profile.LanguageChangeAgent r)
  /\ presence present (Profile.MaxHR r).

(** A string that ends with NUL loses it when parsed: the padding of a
    [PaddedString] is made of NULs too. *)
Definition ends_with_NUL (s : str) : bool :=
  match rev s with
  | 0 :: _ => true
  | _ => false
  end.

(** A UTF-16 code unit. *)
Definition is_unit (u : Z) : Prop := 0 <= u < 65536.

(** The same of a list of code units. *)
Definition ends_with_zero (us : list Z) : bool :=
  match rev us with
  | 0 :: _ => true
  | _ => false
  end.

(** A timestamp the codec gives back as it was: if it is encoded at all,
    its tick count decodes to it. *)
Definition BandTime_exact (d : datetime) : Prop :=
  forall obj, BandTime._encode d = Ok obj -> BandTime._decode obj = Ok d.

(** An adapter that decodes what it encodes. *)
Definition invertible (a : Adapter) : Prop :=
  forall v c, encode a v = Ok c -> decode a c = Ok v.

(** What [p] returns does not depend on the bytes after those it read. *)
Definition stable {A} (p : parser A) : Prop :=
  forall s a s' x, p s = Ok (a, s') -> p (s ++ x) = Ok (a, s' ++ x).

(** [P] holds of the value, if there is one. *)
Definition option_all {A} (P : A -> Prop) (o : option A) : Prop :=
  match o with
  | Some a => P a
  | None => True
  end.

(** Every timestamp of the record is one the timestamp codec gives back. *)
Definition timestamps_exact (r : Profile.t) : Prop :=
  BandTime_exact (Profile.LastSync r)
  /\ BandTime_exact (Profile.Birthday r)
  /\ option_all BandTime_exact (Profile.HwagChangeTime r)
  /\ option_all BandTime_exact (Profile.DeviceNameChangeTime r)
  /\ option_all BandTime_exact (Profile.LocaleSettingsChangeTime r)
  /\ option_all BandTime_exact (Profile.LanguageChangeTime r).

(** No string of the record ends with NUL. *)
Definition strings_kept (r : Profile.t) : Prop :=
  ends_with_NUL (Profile.DeviceName r) = false
  /\ ends_with_NUL (Profile.LocaleName r) = false
  /\ ends_with_NUL (Profile.DateSeparator r) = false
  /\ ends_with_NUL (Profile.NumberSeparator r) = false
  /\ ends_with_NUL (Profile.DecimalSeparator r) = false.

(** Every enumeration adapter decodes what it encodes. *)
Definition enums_invertible (E : Enums) : Prop :=
  invertible (GenderEnum E)
  /\ invertible (LocaleIdAdapter E)
  /\ invertible (LanguageAdapter E)
  /\ invertible (DisplayTimeFormatAdapter E)
  /\ invertible (DisplayDateFormatAdapter E)
  /\ invertible (UnitTypeAdapter E).

(** [Gender] has the codes 0 and 1; the tables of [msband.static.i18n] are
    not known, and these stand for them in the examples. *)
Definition sample_enums : Enums :=
  mkEnums (strict_adapter [0; 1]) (strict_adapter [0; 1; 2])
          (strict_adapter [0; 1; 2]) (strict_adapter [0; 1; 2])
          (strict_adapter [0; 1; 2]) (strict_adapter [0; 1; 2]).

(** 2020-01-02T00:00:00Z and 1981-04-07T21:20:00Z. *)
Definition sample_lastsync : datetime := EPOCH + 13222396800000000.
Definition sample_birthday : datetime := EPOCH + 12000000000000000.

(** A profile of version 2, named "My Band", of locale "en-US". *)
Definition sample_profile_with (reserved : bytes) : Profile.t :=
  Profile.mk 2 sample_lastsync (mkUUID 0x0302010005040706)
    sample_birthday 70000 1800 1 [77; 121; 32; 66; 97; 110; 100]
    [101; 110; 45; 85; 83] 1 1 [47] [44] [46] 1 2 1 1 2 2 1 2 1 true
    (Some sample_lastsync) (Some 1) (Some sample_lastsync) (Some 2)
    (Some sample_lastsync) (Some 3) (Some sample_lastsync) (Some 4)
    (Some 180) reserved.

Definition sample_profile : Profile.t := sample_profile_with (repeat xff 255).
Definition short_profile : Profile.t := sample_profile_with [].

(** The bytes that were built, if any. *)
Definition built (r : result bytes) : bytes :=
  match r with
  | Ok b => b
  | Raise _ => []
  end.

Definition sample_profile_bytes : bytes :=
  Eval vm_compute in built (ProfileStruct._build sample_enums sample_profile).

(** What 397 bytes, the first one 1 and the others 0, are parsed to. *)
Definition version1_profile : Profile.t :=
  Profile.mk 1 EPOCH (mkUUID 0) EPOCH 0 0 0 [] [] 0 0 [] [] [] 0 0 0 0 0 0 0
    0 0 false None None None None None None None None None (zeros 292).

Definition sample_userprofile : UserProfile.t :=
  UserProfile.mk 1 sample_lastsync (mkUUID 7) (zeros 256).

(** A tile named "Hi". *)
Definition sample_tile : TileData.obj :=
  TileData.mk (mkUUID 1) 0 (mkARGB 255 0 0 255) None (FlagsInt 3)
              [72; 105] (mkUUID 2).

(** [decode(encode(r))] for a [Profile]. *)
Definition Profile_roundtrip (E : Enums) (r : Profile.t) : result Profile.t :=
  b <- ProfileStruct._build E r ;; parse (ProfileStruct._parse E) b.

(** [d * 2 ^ j <= n] for an exponent [j] of either sign. *)
Definition le_scaled (d n j : Z) : Prop :=
  d * 2 ^ Z.max 0 j <= n * 2 ^ Z.max 0 (- j).

(** [n < d * 2 ^ j] for an exponent [j] of either sign. *)
Definition lt_scaled (n d j : Z) : Prop :=
  n * 2 ^ Z.max 0 (- j) < d * 2 ^ Z.max 0 j.

(** [container[name]] on what [FlagsEnum] parses to; [None] when the
    Container has no such key. *)
Definition flag_of (c : list (string * bool)) (name : string) : option bool :=
  match find (fun '(k, _) => String.eqb k name) c with
  | Some (_, v) => Some v
  | None => None
  end.

(** Every field of the record is a 16-bit unsigned integer. *)
Definition BandSystemTime_fits (t : BandSystemTime.t) : Prop :=
  Forall (fun v => 0 <= v < 65536)
    [BandSystemTime.Year t; BandSystemTime.Month t;
     BandSystemTime.DayOfWeek t; BandSystemTime.Day t;
     BandSystemTime.Hour t; BandSystemTime.Minute t;
     BandSystemTime.Second t; BandSystemTime.Milliseconds t].

(** Every integer of a version fits the field it is written to. *)
Definition Version_fits (v : Version.t) : Prop :=
  0 <= Version.Major v < 2 ^ 16 /\ 0 <= Version.Minor v < 2 ^ 16
  /\ 0 <= Version.Revision v < 2 ^ 32 /\ 0 <= Version.Build v < 2 ^ 32.

(** [date.replace(microsecond=date.microsecond // 1000 * 1000)] *)
Definition whole_milliseconds (date : dt.naive) : dt.naive :=
  dt.mk (dt.year date) (dt.month date) (dt.day date) (dt.hour date)
        (dt.minute date) (dt.second date) (dt.microsecond date / 1000 * 1000).

(** 2015-06-30T23:59:59.123456 *)
Definition sample_naive : dt.naive := dt.mk 2015 6 30 23 59 59 123456.

Definition sample_version : Version.t := Version.mk 10 3 3304 0 true.

(** A code point [utf_16_le] can encode: a Unicode scalar value. *)
Definition encodable (c : Z) : Prop :=
  0 <= c <= 0x10FFFF /\ ~ (0xD800 <= c <= 0xDFFF).

(** The number of UTF-16 code units of a string: two for every code point
    outside the Basic Multilingual Plane. *)
Definition utf16_length (s : str) : Z :=
  fold_right (fun c n => (if c <? 0x10000 then 1 else 2) + n) 0 s.

(** The record with nothing in the nine fields behind
    [If(this.Version >= 2, ...)]. *)
Definition without_gated (r : Profile.t) : Profile.t :=
  Profile.mk (Profile.Version r) (Profile.LastSync r) (Profile.UserGUID r)
    (Profile.Birthday r) (Profile.Weight_g r) (Profile.Height_mm r)
    (Profile.Gender r) (Profile.DeviceName r) (Profile.LocaleName r)
    (Profile.LocaleId r) (Profile.Language r) (Profile.DateSeparator r)
    (Profile.NumberSeparator r) (Profile.DecimalSeparator r)
    (Profile.TimeFormat r) (Profile.DateFormat r)
    (Profile.DistanceShortUnits r) (Profile.DistanceLongUnits r)
    (Profile.MassUnits r) (Profile.VolumeUnits r) (Profile.EnergyUnits r)
    (Profile.TemperatureUnits r) (Profile.RunDisplayUnits r)
    (Profile.Telemetry r) None None None None None None None None None
    (Profile.ReservedData r).

(** The strings of the record, each with the number of code units of its
    field. *)
Definition Profile_strings (r : Profile.t) : list (str * Z) :=
  [(Profile.DeviceName r, 16); (Profile.LocaleName r, 6);
   (Profile.DateSeparator r, 1); (Profile.NumberSeparator r, 1);
   (Profile.DecimalSeparator r, 1)].

(** The bytes left for [ReservedData] in the 397 of the record. *)
Definition reserved_room (r : Profile.t) : nat :=
  if 2 <=? Profile.Version r then 255%nat else 292%nat.

(** A version-1 profile that carries values in the gated fields. *)
Definition version1_with_gated : Profile.t :=
  Profile.mk 1 EPOCH (mkUUID 0) EPOCH 0 0 0 [] [] 0 0 [] [] [] 0 0 0 0 0 0 0
    0 0 false (Some EPOCH) (Some 1) (Some EPOCH) (Some 2) (Some EPOCH)
    (Some 3) (Some EPOCH) (Some 4) (Some 180) (zeros 292).

(** 5254-06-18T21:21:00Z, in seconds after the epoch: the last second up to
    which every whole second has a tick count below [2 ^ 60]. *)
Definition last_exact_second : Z := 115292150460.

(** 2500-01-01T00:00:00Z, 328353 days after the epoch. *)
Definition year_2500 : datetime := EPOCH + 328353 * us_per_day.

(** A lower-case hexadecimal digit. *)
Definition lower_hex (c : ascii) : bool :=
  existsb (Ascii.eqb c) (list_ascii_of_string "0123456789abcdef").

(** What a lower-case hexadecimal digit is not, checked on the sixteen of
    them. *)
Definition lower_hex_facts (c : ascii) : bool :=
  negb (Ascii.eqb c "+") && negb (Ascii.eqb c "-") && negb (Ascii.eqb c "_")
  && negb (Ascii.eqb c "x") && negb (Ascii.eqb c "X")
  && negb (Ascii.eqb c "u") && negb (Ascii.eqb c "{")
  && negb (Ascii.eqb c "}") && negb (pystr.isspace c)
  && (pystr.digit_value c <? 16) && (0 <=? pystr.digit_value c).

(** The number a list of digits stands for, after the digits that gave
    [acc]. *)
Definition value16 (acc : Z) (l : list ascii) : Z :=
  fold_left (fun a c => a * 16 + pystr.digit_value c) l acc.

(** What the three channels of a colour are shown as. *)
Definition shown (v : Z) : list ascii :=
  [pyformat.HEX_digit (v / 16); pyformat.HEX_digit (v mod 16)].

Definition shown_facts (v : Z) : bool :=
  String.eqb (string_of_list_ascii (pyformat.format_02X v))
             (string_of_list_ascii (shown v))
  && (pystr.digit_value (pyformat.HEX_digit (v / 16)) =? v / 16)
  && (pystr.digit_value (pyformat.HEX_digit (v mod 16)) =? v mod 16).

(** What [alpha / 255] is shown as, if the division does not overflow. *)
Definition percent (alpha : Z) : option string :=
  match pyformat.truediv_255 alpha with
  | Ok x => Some (string_of_list_ascii (pyformat.format_0f x))
  | Raise _ => None
  end.

Definition percent_facts (alpha : Z) : bool :=
  match percent alpha with
  | Some s => String.eqb s (if alpha <? 128 then "0" else "1")
  | None => false
  end.

(** The record with another day of the week. *)
Definition with_DayOfWeek (t : BandSystemTime.t) (dow : Z) : BandSystemTime.t :=
  BandSystemTime.mk (BandSystemTime.Year t) (BandSystemTime.Month t) dow
    (BandSystemTime.Day t) (BandSystemTime.Hour t) (BandSystemTime.Minute t)
    (BandSystemTime.Second t) (BandSystemTime.Milliseconds t).

(** Tuesday 2015-06-30T23:59:59.123, with Sunday written for the day of the
    week. *)
Definition sample_systemtime : BandSystemTime.t :=
  BandSystemTime.mk 2015 6 6 30 23 59 59 123.

(** What a [Struct] of integers parses to, given what it was built from:
    under each name, in the order of the subcons, the value the dictionary
    held under that name. *)
Definition parsed_from (subcons : list (string * nat)) (obj vals : dict)
  : Prop :=
  Forall2 (fun '(name, _) '(key, v) => key = name /\ getitem obj name = Ok v)
          subcons vals.

(** * Properties *)

(** ** Bytes and integers *)

Lemma Z_of_byte_range (b : byte) : 0 <= Z_of_byte b < 256.
Proof.
  unfold Z_of_byte. pose proof (Byte.to_N_bounded b) as H.
  split; [apply N2Z.is_nonneg|].
  change 256 with (Z.of_N 256). apply N2Z.inj_lt. lia.
Qed.

Lemma byte_of_Z_of_byte (b : byte) : byte_of_Z (Z_of_byte b) = b.
Proof.
  unfold byte_of_Z. rewrite Z.mod_small by apply Z_of_byte_range.
  unfold Z_of_byte. rewrite N2Z.id, Byte.of_to_N. reflexivity.
Qed.

Lemma Z_of_byte_of_Z (z : Z) : 0 <= z < 256 -> Z_of_byte (byte_of_Z z) = z.
Proof.
  intros Hz. unfold byte_of_Z. rewrite Z.mod_small by assumption.
  destruct (Byte.of_N (Z.to_N z)) as [b|] eqn:E.
  - apply Byte.to_of_N in E. unfold Z_of_byte. rewrite E. lia.
  - apply Byte.of_N_None_iff in E. lia.
Qed.

Lemma length_to_bytes_le (n : nat) (v : Z) : length (to_bytes_le n v) = n.
Proof. revert v. induction n; intros v; simpl; [|rewrite IHn]; reflexivity. Qed.

Lemma from_bytes_le_range (b : bytes) :
  0 <= from_bytes_le b < 256 ^ Z.of_nat (length b).
Proof.
  induction b as [|x r IH].
  - simpl. lia.
  - cbn [from_bytes_le length]. rewrite Nat2Z.inj_succ, Z.pow_succ_r by lia.
    pose proof (Z_of_byte_range x). lia.
Qed.

Lemma to_from_bytes_le (b : bytes) :
  to_bytes_le (length b) (from_bytes_le b) = b.
Proof.
  induction b as [|x r IH]; [reflexivity|].
  cbn [from_bytes_le length to_bytes_le].
  pose proof (Z_of_byte_range x) as Hx.
  rewrite <- (Z.mod_unique _ 256 (from_bytes_le r) (Z_of_byte x)) by lia.
  rewrite <- (Z.div_unique _ 256 (from_bytes_le r) (Z_of_byte x)) by lia.
  rewrite byte_of_Z_of_byte, IH. reflexivity.
Qed.

Lemma from_to_bytes_le (n : nat) (v : Z) :
  0 <= v < 256 ^ Z.of_nat n -> from_bytes_le (to_bytes_le n v) = v.
Proof.
  revert v. induction n as [|n IH]; intros v Hv.
  - simpl in *. lia.
  - rewrite Nat2Z.inj_succ, Z.pow_succ_r in Hv by lia.
    cbn [to_bytes_le from_bytes_le].
    rewrite Z_of_byte_of_Z by (apply Z.mod_pos_bound; lia).
    rewrite IH.
    + pose proof (Z.div_mod v 256). lia.
    + split; [apply Z.div_pos; lia|]. apply Z.div_lt_upper_bound; lia.
Qed.

Lemma from_bytes_le_app (a b : bytes) :
  from_bytes_le (a ++ b)
  = from_bytes_le a + 256 ^ Z.of_nat (length a) * from_bytes_le b.
Proof.
  induction a as [|x r IH]; cbn [app from_bytes_le length].
  - change (Z.of_nat 0) with 0. rewrite Z.pow_0_r. lia.
  - rewrite IH, Nat2Z.inj_succ, Z.pow_succ_r by lia. ring.
Qed.

Lemma from_bytes_app (a b : bytes) :
  from_bytes (a ++ b)
  = from_bytes a * 256 ^ Z.of_nat (length b) + from_bytes b.
Proof.
  unfold from_bytes. rewrite rev_app_distr, from_bytes_le_app, length_rev. ring.
Qed.

Lemma to_bytes_from_bytes (b : bytes) :
  to_bytes (from_bytes b) (length b) = Ok b.
Proof.
  unfold to_bytes, from_bytes.
  pose proof (from_bytes_le_range (rev b)) as H. rewrite length_rev in H.
  replace ((0 <=? from_bytes_le (rev b))
           && (from_bytes_le (rev b) <? 256 ^ Z.of_nat (length b))) with true
    by (symmetry; apply andb_true_intro; split; [apply Z.leb_le|apply Z.ltb_lt]; lia).
  rewrite <- (length_rev b) at 1. rewrite to_from_bytes_le, rev_involutive.
  reflexivity.
Qed.

Lemma from_bytes_to_bytes (v : Z) (n : nat) (b : bytes) :
  to_bytes v n = Ok b -> from_bytes b = v /\ length b = n.
Proof.
  unfold to_bytes, from_bytes.
  destruct ((0 <=? v) && (v <? 256 ^ Z.of_nat n)) eqn:E; [|discriminate].
  apply andb_prop in E. destruct E as [E1 E2].
  apply Z.leb_le in E1. apply Z.ltb_lt in E2.
  intros [= <-]. rewrite rev_involutive, length_rev, length_to_bytes_le.
  split; [apply from_to_bytes_le; lia|reflexivity].
Qed.

(** ** The identifier codec *)

Lemma list_of_length_16 {A} (l : list A) :
  length l = 16%nat ->
  exists a0 a1 a2 a3 a4 a5 a6 a7 a8 a9 a10 a11 a12 a13 a14 a15,
    l = [a0; a1; a2; a3; a4; a5; a6; a7; a8; a9; a10; a11; a12; a13; a14; a15].
Proof.
  intros H.
  do 16 (destruct l as [|? l]; [discriminate H|]).
  destruct l; [|discriminate H].
  repeat eexists.
Qed.

Lemma swap_fields_involutive (b : bytes) :
  length b = 16%nat -> swap_fields (swap_fields b) = b.
Proof.
  intros H. destruct (list_of_length_16 b H)
    as (a0&a1&a2&a3&a4&a5&a6&a7&a8&a9&a10&a11&a12&a13&a14&a15&->).
  reflexivity.
Qed.

Lemma length_swap_fields (b : bytes) :
  length b = 16%nat -> length (swap_fields b) = 16%nat.
Proof.
  intros H. destruct (list_of_length_16 b H)
    as (a0&a1&a2&a3&a4&a5&a6&a7&a8&a9&a10&a11&a12&a13&a14&a15&->).
  reflexivity.
Qed.

Lemma GUIDAdapter_decode_16 (b : bytes) :
  length b = 16%nat ->
  GUIDAdapter._decode b = Ok (mkUUID (from_bytes (swap_fields b))).
Proof.
  intros H. unfold GUIDAdapter._decode, uuid.of_bytes_le.
  rewrite H. reflexivity.
Qed.

Lemma GUIDAdapter_encode_from_bytes (b : bytes) :
  length b = 16%nat ->
  GUIDAdapter._encode (mkUUID (from_bytes b)) = Ok (swap_fields b).
Proof.
  intros H. unfold GUIDAdapter._encode, uuid.bytes_le, uuid.bytes.
  cbn [UUID_int]. rewrite <- H, to_bytes_from_bytes. reflexivity.
Qed.

(** The integer of the identifier a buffer decodes to: three little-endian
    components of 32, 16 and 16 bits, then eight bytes in their order. *)
Lemma from_bytes_swap_fields (b : bytes) :
  length b = 16%nat ->
  from_bytes (swap_fields b)
  = from_bytes_le (firstn 4 b) * 2 ^ 96
    + from_bytes_le (firstn 2 (skipn 4 b)) * 2 ^ 80
    + from_bytes_le (firstn 2 (skipn 6 b)) * 2 ^ 64
    + from_bytes (skipn 8 b).
Proof.
  intros H. destruct (list_of_length_16 b H)
    as (a0&a1&a2&a3&a4&a5&a6&a7&a8&a9&a10&a11&a12&a13&a14&a15&->).
  unfold swap_fields. rewrite !from_bytes_app.
  unfold from_bytes at 1 2 3. rewrite !rev_involutive.
  cbn [firstn skipn length app rev].
  change (256 ^ Z.of_nat 8) with (2 ^ 64).
  change (256 ^ Z.of_nat 10) with (2 ^ 16 * 2 ^ 64).
  change (256 ^ Z.of_nat 12) with (2 ^ 32 * 2 ^ 64).
  change (2 ^ 96) with (2 ^ 32 * 2 ^ 64).
  change (2 ^ 80) with (2 ^ 16 * 2 ^ 64).
  ring.
Qed.

(** C9: a 16-byte buffer decodes to an identifier whose encoding is the
    buffer again; the identifier's integer is made of the first three
    components (32, 16 and 16 bits) read little-endian and of the last eight
    bytes read in their order. *)
Theorem GUIDAdapter_encode_decode (b : bytes) :
  length b = 16%nat ->
  exists u,
    GUIDAdapter._decode b = Ok u
    /\ GUIDAdapter._encode u = Ok b
    /\ UUID_int u
       = from_bytes_le (firstn 4 b) * 2 ^ 96
         + from_bytes_le (firstn 2 (skipn 4 b)) * 2 ^ 80
         + from_bytes_le (firstn 2 (skipn 6 b)) * 2 ^ 64
         + from_bytes (skipn 8 b).
Proof.
  intros H. exists (mkUUID (from_bytes (swap_fields b))).
  split; [apply GUIDAdapter_decode_16; exact H|]. split.
  - rewrite GUIDAdapter_encode_from_bytes by (apply length_swap_fields; exact H).
    rewrite swap_fields_involutive by exact H. reflexivity.
  - apply from_bytes_swap_fields. exact H.
Qed.

Lemma GUIDAdapter_encode_decode_witness :
  exists u,
    GUIDAdapter._decode
      [x00; x01; x02; x03; x04; x05; x06; x07;
       x08; x09; x0a; x0b; x0c; x0d; x0e; x0f] = Ok u
    /\ GUIDAdapter._encode u
       = Ok [x00; x01; x02; x03; x04; x05; x06; x07;
             x08; x09; x0a; x0b; x0c; x0d; x0e; x0f]
    /\ UUID_int u = 0x0302010005040706 * 2 ^ 64 + 0x08090a0b0c0d0e0f.
Proof.
  destruct (GUIDAdapter_encode_decode
              [x00; x01; x02; x03; x04; x05; x06; x07;
               x08; x09; x0a; x0b; x0c; x0d; x0e; x0f] eq_refl)
    as (u & Hd & He & Hi).
  exists u. split; [exact Hd|]. split; [exact He|].
  rewrite Hi. reflexivity.
Defined.

Lemma bytes_le_inv (u : UUID) (b : bytes) :
  uuid.bytes_le u = Ok b ->
  exists raw, to_bytes (UUID_int u) 16 = Ok raw /\ b = swap_fields raw.
Proof.
  unfold uuid.bytes_le, uuid.bytes.
  destruct (to_bytes (UUID_int u) 16) as [raw|] eqn:E; [|discriminate].
  unfold bind. intros H. injection H as H.
  exists raw. split; [reflexivity|]. symmetry. exact H.
Qed.

(** The other direction: an identifier (a 128-bit integer) is encoded to 16
    bytes that decode to it. *)
Lemma GUIDAdapter_decode_encode (u : UUID) (b : bytes) :
  GUIDAdapter._encode u = Ok b ->
  length b = 16%nat /\ GUIDAdapter._decode b = Ok u.
Proof.
  intros H. apply bytes_le_inv in H. destruct H as (raw & E & ->).
  apply from_bytes_to_bytes in E. destruct E as [E1 E2].
  split; [apply length_swap_fields; exact E2|].
  rewrite GUIDAdapter_decode_16 by (apply length_swap_fields; exact E2).
  rewrite swap_fields_involutive by exact E2.
  rewrite E1. destruct u. reflexivity.
Qed.

(** ** The pixel codec *)

Lemma in_below (n : nat) (z : Z) : 0 <= z < Z.of_nat n -> In z (below n).
Proof.
  intros H. unfold below. apply in_map_iff. exists (Z.to_nat z).
  split; [lia|]. apply in_seq. lia.
Qed.

Lemma forallb_below (n : nat) (P : Z -> bool) :
  forallb P (below n) = true -> forall z, 0 <= z < Z.of_nat n -> P z = true.
Proof.
  intros H z Hz. rewrite forallb_forall in H. apply H, in_below, Hz.
Qed.

(** Bits that do not overlap add up. *)
Lemma lor_shiftl_add (a x k : Z) :
  0 <= k -> 0 <= x < 2 ^ k -> Z.lor (Z.shiftl a k) x = a * 2 ^ k + x.
Proof.
  intros Hk Hx.
  assert (Hland : Z.land (Z.shiftl a k) x = 0).
  { apply Z.bits_inj'. intros n Hn. rewrite Z.land_spec, Z.bits_0.
    destruct (Z.lt_ge_cases n k) as [Hlt|Hge].
    - rewrite Z.shiftl_spec_low by exact Hlt. reflexivity.
    - assert (Z.testbit x n = false) as ->; [|apply andb_false_r].
      destruct (Z.eq_dec x 0) as [->|Hnz]; [apply Z.bits_0|].
      apply Z.bits_above_log2; [lia|].
      apply Z.lt_le_trans with k; [|exact Hge].
      apply Z.log2_lt_pow2; lia. }
  rewrite <- Z.lxor_lor by exact Hland.
  rewrite <- Z.add_nocarry_lxor by exact Hland.
  rewrite Z.shiftl_mul_pow2 by exact Hk. reflexivity.
Qed.

Lemma byte_facts_hold (x : Z) : 0 <= x < 256 -> byte_facts x = true.
Proof. apply (forallb_below 256 byte_facts). vm_compute. reflexivity. Qed.

Ltac byte_facts x H :=
  let F := fresh "F" in
  pose proof (byte_facts_hold x H) as F; unfold byte_facts in F;
  repeat (apply andb_prop in F; let G := fresh "F" in destruct F as [F G]);
  repeat match goal with
         | E : (_ =? _) = true |- _ => apply Z.eqb_eq in E
         | E : (_ <=? _) = true |- _ => apply Z.leb_le in E
         | E : (_ <? _) = true |- _ => apply Z.ltb_lt in E
         end.

Lemma packed565_value (r g b : Z) :
  0 <= r < 256 -> 0 <= g < 256 -> 0 <= b < 256 ->
  packed565 r g b = Z.shiftr r 3 * 2048 + Z.shiftr g 2 * 32 + Z.shiftr b 3.
Proof.
  intros Hr Hg Hb. byte_facts r Hr. byte_facts g Hg. byte_facts b Hb.
  unfold packed565.
  rewrite (lor_shiftl_add (Z.shiftr r 3) (Z.shiftl (Z.shiftr g 2) 5) 11).
  2: lia.
  2:{ rewrite Z.shiftl_mul_pow2 by lia. change (2 ^ 5) with 32.
      change (2 ^ 11) with 2048. lia. }
  rewrite Z.shiftl_mul_pow2 by lia.
  change (2 ^ 11) with (64 * 2 ^ 5).
  replace (Z.shiftr r 3 * (64 * 2 ^ 5) + Z.shiftr g 2 * 2 ^ 5)
    with ((Z.shiftr r 3 * 64 + Z.shiftr g 2) * 2 ^ 5) by ring.
  rewrite <- Z.shiftl_mul_pow2 by lia.
  rewrite lor_shiftl_add by (change (2 ^ 5) with 32; lia).
  change (2 ^ 5) with 32. ring.
Qed.

Lemma pixel_packed565 (r g b : Z) :
  0 <= r < 256 -> 0 <= g < 256 -> 0 <= b < 256 ->
  MeTileAdapter.pixel r g b
  = [packed565 r g b mod 256; packed565 r g b / 256]
  /\ 0 <= packed565 r g b < 65536.
Proof.
  intros Hr Hg Hb. rewrite packed565_value by assumption.
  byte_facts r Hr. byte_facts g Hg. byte_facts b Hb.
  unfold MeTileAdapter.pixel.
  match goal with
  | E : Z.land (Z.shiftl g 3) 224 = _ |- _ => rewrite E
  end.
  match goal with
  | E : Z.land (Z.shiftr b 3) 31 = _ |- _ => rewrite E
  end.
  match goal with
  | E : Z.land r 248 = _ |- _ => rewrite E
  end.
  match goal with
  | E : Z.land (Z.shiftr (Z.shiftr g 2) 3) 7 = _ |- _ => rewrite E
  end.
  pose proof (Z.div_mod (Z.shiftr g 2) 8 ltac:(lia)) as Hdm.
  pose proof (Z.mod_pos_bound (Z.shiftr g 2) 8 ltac:(lia)) as Hm.
  assert (0 <= Z.shiftr g 2 / 8 < 8) as Hq
      by (split; [apply Z.div_pos; lia|apply Z.div_lt_upper_bound; lia]).
  rewrite !lor_shiftl_add by (try change (2 ^ 5) with 32;
                              try change (2 ^ 3) with 8; lia).
  change (2 ^ 5) with 32. change (2 ^ 3) with 8.
  split; [|lia].
  f_equal; [|f_equal].
  - apply Z.mod_unique with (q := Z.shiftr r 3 * 8 + Z.shiftr g 2 / 8); lia.
  - apply Z.div_unique with (r := Z.shiftr g 2 mod 8 * 32 + Z.shiftr b 3); lia.
Qed.

Lemma bytearray_pixel (r g b : Z) :
  0 <= r < 256 -> 0 <= g < 256 -> 0 <= b < 256 ->
  bytearray (MeTileAdapter.pixel r g b) = Ok (to_bytes_le 2 (packed565 r g b)).
Proof.
  intros Hr Hg Hb.
  destruct (pixel_packed565 r g b Hr Hg Hb) as [-> Hv].
  assert (0 <= packed565 r g b mod 256 < 256) as H1
      by (apply Z.mod_pos_bound; lia).
  assert (0 <= packed565 r g b / 256 < 256) as H2
      by (split; [apply Z.div_pos; lia|apply Z.div_lt_upper_bound; lia]).
  cbn [bytearray to_bytes_le bind].
  replace ((0 <=? packed565 r g b mod 256) && (packed565 r g b mod 256 <? 256))
    with true by (symmetry; apply andb_true_intro; split;
                  [apply Z.leb_le|apply Z.ltb_lt]; lia).
  replace ((0 <=? packed565 r g b / 256) && (packed565 r g b / 256 <? 256))
    with true by (symmetry; apply andb_true_intro; split;
                  [apply Z.leb_le|apply Z.ltb_lt]; lia).
  cbn [bind]. rewrite (Z.mod_small (packed565 r g b / 256) 256) by exact H2.
  reflexivity.
Qed.

Lemma bytearray_app (l1 l2 : list Z) :
  bytearray (l1 ++ l2)
  = (b1 <- bytearray l1 ;; b2 <- bytearray l2 ;; Ok (b1 ++ b2)).
Proof.
  induction l1 as [|i l1 IH]; cbn [app bytearray].
  - unfold bind at 1. destruct (bytearray l2); reflexivity.
  - destruct ((0 <=? i) && (i <? 256)); [|reflexivity].
    rewrite IH. destruct (bytearray l1); [|reflexivity].
    unfold bind. destruct (bytearray l2); reflexivity.
Qed.

(** C6: a pixel is written as the two bytes, low byte first, of the 16-bit
    value that holds the top 5 bits of red in its most significant 5 bits,
    the top 6 bits of green in the middle and the top 5 bits of blue in its
    least significant 5 bits; this holds of a single pixel and of the first
    pixel of any raster, the rest of which follows; the pixel (255, 0, 0)
    is written as 00 F8. *)
Theorem MeTileAdapter_encode_pixel :
  (forall r g b : byte,
      MeTileAdapter._encode [r; g; b]
      = Ok (to_bytes_le 2 (packed565 (Z_of_byte r) (Z_of_byte g) (Z_of_byte b))))
  /\ (forall (r g b : byte) (rest : bytes),
        MeTileAdapter._encode (r :: g :: b :: rest)
        = (out <- MeTileAdapter._encode rest ;;
           Ok (to_bytes_le 2 (packed565 (Z_of_byte r) (Z_of_byte g)
                                        (Z_of_byte b)) ++ out)))
  /\ MeTileAdapter._encode [xff; x00; x00] = Ok [x00; xf8].
Proof.
  assert (forall (r g b : byte) (rest : bytes),
             MeTileAdapter._encode (r :: g :: b :: rest)
             = (out <- MeTileAdapter._encode rest ;;
                Ok (to_bytes_le 2 (packed565 (Z_of_byte r) (Z_of_byte g)
                                             (Z_of_byte b)) ++ out))) as Hcons.
  { intros r g b rest. unfold MeTileAdapter._encode, islice.
    cbn [map islice_from Nat.sub zip3 flat_map].
    rewrite bytearray_app, bytearray_pixel by apply Z_of_byte_range.
    unfold bind.
    destruct (bytearray
                (flat_map (fun '(r_value, g_value, b_value) =>
                             MeTileAdapter.pixel r_value g_value b_value)
                   (zip3 (islice_from (map Z_of_byte rest) 0 3)
                         (islice_from (map Z_of_byte rest) 1 3)
                         (islice_from (map Z_of_byte rest) 2 3))));
      reflexivity. }
  split; [|split; [exact Hcons|reflexivity]].
  intros r g b. rewrite Hcons.
  change (MeTileAdapter._encode []) with (@Ok bytes []).
  unfold bind. rewrite app_nil_r. reflexivity.
Qed.

(** ** The flag codec of [TileSettings] *)

Lemma land_pow2_cases (m k : Z) :
  0 <= k -> Z.land m (2 ^ k) = 0 \/ Z.land m (2 ^ k) = 2 ^ k.
Proof.
  intros Hk. destruct (Z.testbit m k) eqn:E; [right|left];
    apply Z.bits_inj'; intros n Hn;
    rewrite Z.land_spec, ?Z.bits_0, Z.pow2_bits_eqb by exact Hk;
    destruct (Z.eqb_spec k n) as [<-|Hne];
    rewrite ?E, ?andb_false_r; reflexivity.
Qed.

Lemma land_63 (m : Z) :
  Z.land m 63
  = Z.lor (Z.land m 1)
      (Z.lor (Z.land m 2)
         (Z.lor (Z.land m 4)
            (Z.lor (Z.land m 8) (Z.lor (Z.land m 16) (Z.land m 32))))).
Proof. rewrite <- !Z.land_lor_distr_r. reflexivity. Qed.

(** The round trip with the masking [Z.land m] abstracted to any function
    that maps a single bit to itself or to zero. *)
Lemma encode_items_bits (with_zero : bool) (L : Z -> Z) :
  L 0 = 0 ->
  (forall k, In k [0; 1; 2; 3; 4; 5] -> L (2 ^ k) = 0 \/ L (2 ^ k) = 2 ^ k) ->
  FlagsEnum.encode_items (iter_flag with_zero TileSettings)
    (("_flagsenum"%string, true)
       :: map (fun '(name, value) => (name, L value =? value))
            (iter_flag with_zero TileSettings)) 0
  = Ok (Z.lor (L 1) (Z.lor (L 2) (Z.lor (L 4)
          (Z.lor (L 8) (Z.lor (L 16) (L 32)))))).
Proof.
  intros H0 H.
  pose proof (H 0 ltac:(simpl; tauto)) as B0.
  pose proof (H 1 ltac:(simpl; tauto)) as B1.
  pose proof (H 2 ltac:(simpl; tauto)) as B2.
  pose proof (H 3 ltac:(simpl; tauto)) as B3.
  pose proof (H 4 ltac:(simpl; tauto)) as B4.
  pose proof (H 5 ltac:(simpl; tauto)) as B5.
  change (2 ^ 0) with 1 in B0. change (2 ^ 1) with 2 in B1.
  change (2 ^ 2) with 4 in B2. change (2 ^ 3) with 8 in B3.
  change (2 ^ 4) with 16 in B4. change (2 ^ 5) with 32 in B5.
  destruct with_zero; cbn; rewrite ?H0;
    destruct B0 as [-> | ->], B1 as [-> | ->], B2 as [-> | ->],
             B3 as [-> | ->], B4 as [-> | ->], B5 as [-> | ->];
    reflexivity.
Qed.

Lemma FlagsEnum_encode_decode (with_zero : bool) (m : Z) :
  FlagsEnum._encode (iter_flag with_zero TileSettings)
    (FlagsDict (FlagsEnum._decode (iter_flag with_zero TileSettings) m))
  = Ok (Z.land m 63).
Proof.
  rewrite land_63.
  apply (encode_items_bits with_zero (Z.land m)).
  - apply Z.land_0_r.
  - intros k Hk. apply land_pow2_cases. simpl in Hk. lia.
Qed.

Lemma land_63_range (m : Z) : 0 <= Z.land m 63 < 64.
Proof.
  change 63 with (Z.ones 6). rewrite Z.land_ones by lia.
  apply Z.mod_pos_bound. reflexivity.
Qed.

(** C2, as the code has it: decoding a 16-bit mask never fails, and encoding
    what was decoded gives the mask with only the six bits of the named
    flags left; the other ten bits are cleared. *)
Theorem FlagsEnum_roundtrip_keeps_named_bits (with_zero : bool) (m : Z) :
  0 <= m < 2 ^ 16 ->
  let flags := iter_flag with_zero TileSettings in
  parse (FlagsEnum._parse flags) (to_bytes_le 2 m)
  = Ok (FlagsEnum._decode flags m)
  /\ FlagsEnum._encode flags (FlagsDict (FlagsEnum._decode flags m))
     = Ok (Z.land m 63)
  /\ FlagsEnum._build flags (FlagsDict (FlagsEnum._decode flags m))
     = Ok (to_bytes_le 2 (Z.land m 63)).
Proof.
  intros Hm flags. subst flags. split; [|split].
  - unfold parse, FlagsEnum._parse, FormatField._parse, stream_read, Int16ul.
    rewrite length_to_bytes_le. cbn [Nat.leb bind].
    rewrite firstn_all2 by (rewrite length_to_bytes_le; lia).
    rewrite from_to_bytes_le by (change (256 ^ Z.of_nat 2) with (2 ^ 16); lia).
    reflexivity.
  - apply FlagsEnum_encode_decode.
  - unfold FlagsEnum._build. rewrite FlagsEnum_encode_decode. cbn [bind].
    unfold FormatField._build, Int16ul.
    pose proof (land_63_range m) as Hr.
    change (256 ^ Z.of_nat 2) with 65536.
    replace ((0 <=? Z.land m 63) && (Z.land m 63 <? 65536)) with true
      by (symmetry; apply andb_true_intro; split;
          [apply Z.leb_le|apply Z.ltb_lt]; lia).
    reflexivity.
Qed.

Lemma FlagsEnum_roundtrip_keeps_named_bits_witness :
  parse (FlagsEnum._parse (iter_flag true TileSettings)) (to_bytes_le 2 67)
  = Ok (FlagsEnum._decode (iter_flag true TileSettings) 67)
  /\ FlagsEnum._encode (iter_flag true TileSettings)
       (FlagsDict (FlagsEnum._decode (iter_flag true TileSettings) 67))
     = Ok 3
  /\ FlagsEnum._build (iter_flag true TileSettings)
       (FlagsDict (FlagsEnum._decode (iter_flag true TileSettings) 67))
     = Ok [x03; x00].
Proof.
  exact (FlagsEnum_roundtrip_keeps_named_bits true 67 ltac:(lia)).
Defined.

(** C2 as stated fails: bit 6 belongs to no flag and does not come back. *)
Lemma FlagsEnum_roundtrip_drops_bit_6 :
  ~ (forall m, 0 <= m < 2 ^ 16 ->
       FlagsEnum._encode (iter_flag true TileSettings)
         (FlagsDict (FlagsEnum._decode (iter_flag true TileSettings) m))
       = Ok m)
  /\ FlagsEnum._encode (iter_flag true TileSettings)
       (FlagsDict (FlagsEnum._decode (iter_flag true TileSettings) 64))
     = Ok 0
  /\ FlagsEnum._encode (iter_flag false TileSettings)
       (FlagsDict (FlagsEnum._decode (iter_flag false TileSettings) 64))
     = Ok 0.
Proof.
  split; [|split; reflexivity].
  intros H. specialize (H 64 ltac:(lia)). discriminate H.
Qed.

(** ** The ARGB codec *)

(** Decoding reads alpha, red, green and blue, in this order. *)
Lemma ArgbAdapter_decode_4 (a r g b : byte) :
  ArgbAdapter._decode [a; r; g; b]
  = Ok (mkARGB (Z_of_byte r) (Z_of_byte g) (Z_of_byte b) (Z_of_byte a)).
Proof.
  unfold ArgbAdapter._decode, parse. cbn.
  rewrite !Z.add_0_r. reflexivity.
Qed.

(** C8, what the code does: [ArgbAdapter._encode] builds from the namespace
    of the class and not from the value it is given; the result is the same
    for every value, and it is an exception: no ARGB value is ever encoded,
    neither by the adapter nor by [ArgbStruct]. *)
Theorem ArgbStruct_build_raises :
  (forall v w : ARGB, ArgbAdapter._encode v = ArgbAdapter._encode w)
  /\ (forall v : ARGB, fails (ArgbAdapter._encode v))
  /\ (forall v : ARGB, fails (ArgbStruct._build v)).
Proof.
  split; [reflexivity|].
  split; intros v; exists (KeyError "red"); reflexivity.
Qed.

(** ** [BandSystemDateTimeAdapter] *)

Lemma dt_datetime_fields (y m d h mi s us : Z) (r : dt.naive) :
  dt.datetime y m d h mi s us = Ok r -> r = dt.mk y m d h mi s us.
Proof.
  unfold dt.datetime.
  repeat match goal with
         | |- context [if negb ?c then _ else _] => destruct c; cbn [negb]
         end; try discriminate.
  intros [= <-]. reflexivity.
Qed.

(** C10: the timestamp a [BandSystemTime] decodes to does not depend on
    [DayOfWeek]: two values that differ in it alone decode alike, a decoded
    timestamp is made of the seven other fields, and [DayOfWeek] is set from
    the date's weekday when encoding. *)
Theorem BandSystemDateTimeAdapter_decode_ignores_DayOfWeek :
  (forall y m dow1 dow2 d h mi s ms,
      BandSystemDateTimeAdapter._decode (BandSystemTime.mk y m dow1 d h mi s ms)
      = BandSystemDateTimeAdapter._decode (BandSystemTime.mk y m dow2 d h mi s ms))
  /\ (forall t r,
        BandSystemDateTimeAdapter._decode t = Ok r ->
        r = dt.mk (BandSystemTime.Year t) (BandSystemTime.Month t)
                  (BandSystemTime.Day t) (BandSystemTime.Hour t)
                  (BandSystemTime.Minute t) (BandSystemTime.Second t)
                  (BandSystemTime.Milliseconds t * 1000))
  /\ (forall date,
        BandSystemTime.DayOfWeek (BandSystemDateTimeAdapter._encode date)
        = dt.weekday date).
Proof.
  split; [|split].
  - intros. reflexivity.
  - intros t r H. apply dt_datetime_fields in H. exact H.
  - intros date. reflexivity.
Qed.

(** An instance: Wednesday 2026-11-04, decoded with two different
    weekdays. *)
Lemma BandSystemDateTimeAdapter_decode_ignores_DayOfWeek_witness :
  BandSystemDateTimeAdapter._decode (BandSystemTime.mk 2026 11 2 4 10 30 15 250)
  = BandSystemDateTimeAdapter._decode (BandSystemTime.mk 2026 11 6 4 10 30 15 250)
  /\ dt.mk 2026 11 4 10 30 15 250000
     = dt.mk 2026 11 4 10 30 15 (250 * 1000)
  /\ BandSystemTime.DayOfWeek
       (BandSystemDateTimeAdapter._encode (dt.mk 2026 11 4 10 30 15 250999))
     = 2.
Proof.
  destruct BandSystemDateTimeAdapter_decode_ignores_DayOfWeek
    as (H1 & H2 & H3).
  split; [apply H1|]. split.
  - apply (H2 (BandSystemTime.mk 2026 11 6 4 10 30 15 250)). reflexivity.
  - rewrite H3. reflexivity.
Defined.

(** ** The timestamp codec *)

(** C4, what the code does: the tick count goes through two roundings to
    binary64, and the timestamp that comes back can be another one.  35
    microseconds after the epoch is encoded as 349 ticks and decoded as 34
    microseconds after the epoch; 2020-01-02T00:00:00.000002Z comes back one
    microsecond earlier. *)
Theorem BandTime_roundtrip_loses_microseconds :
  BandTime._encode (EPOCH + 35) = Ok 349
  /\ BandTime._decode 349 = Ok (EPOCH + 34)
  /\ BandTime._build (EPOCH + 35)
     = Ok [x5d; x01; x00; x00; x00; x00; x00; x00]
  /\ parse BandTime._parse [x5d; x01; x00; x00; x00; x00; x00; x00]
     = Ok (EPOCH + 34)
  /\ BandTime._encode (EPOCH + 13222396800000002) = Ok 132223968000000016
  /\ BandTime._decode 132223968000000016 = Ok (EPOCH + 13222396800000001).
Proof.
  repeat apply conj; vm_compute; reflexivity.
Qed.

Lemma BandTime_encode_spec (date : datetime) :
  (date < EPOCH \/ datetime_max < date -> BandTime._encode date = Raise ValueError)
  /\ (EPOCH <= date <= datetime_max -> exists ticks, BandTime._encode date = Ok ticks).
Proof.
  unfold BandTime._encode.
  destruct (Z.ltb_spec datetime_max date), (Z.ltb_spec date EPOCH);
    split; intros H'; try reflexivity; try lia; eexists; reflexivity.
Qed.

Lemma BandTime_decode_spec (obj : Z) :
  (first_tick <= obj <= last_tick -> BandTime._decode obj = Ok (EPOCH + obj / 10))
  /\ (obj < first_tick \/ last_tick < obj ->
      BandTime._decode obj = Raise OverflowError).
Proof.
  unfold BandTime._decode, timedelta_microseconds, datetime_add, bind.
  unfold first_tick, last_tick.
  pose proof (Z.div_mod obj 10 ltac:(lia)) as D1.
  pose proof (Z.mod_pos_bound obj 10 ltac:(lia)) as M1.
  set (q := obj / 10) in *.
  assert (us_per_day = 86400000000) as Eday by reflexivity.
  assert (EPOCH = 50491123200000000) as Eep by reflexivity.
  assert (datetime_max = 315537897599999999) as Emax by reflexivity.
  pose proof (Z.div_mod q us_per_day ltac:(rewrite Eday; lia)) as D2.
  pose proof (Z.mod_pos_bound q us_per_day ltac:(rewrite Eday; lia)) as M2.
  set (dd := q / us_per_day) in *.
  rewrite Eday in D2, M2.
  split; intros H.
  - destruct (Z.leb_spec (-999999999) dd); [|lia].
    destruct (Z.leb_spec dd 999999999); [|lia].
    cbn [andb].
    destruct (Z.leb_spec 0 (EPOCH + q)); [|lia].
    destruct (Z.leb_spec (EPOCH + q) datetime_max); [|lia].
    reflexivity.
  - destruct (Z.leb_spec (-999999999) dd); [|reflexivity].
    destruct (Z.leb_spec dd 999999999); [|reflexivity].
    cbn [andb].
    destruct (Z.leb_spec 0 (EPOCH + q)); [|reflexivity].
    destruct (Z.leb_spec (EPOCH + q) datetime_max); [lia|].
    reflexivity.
Qed.

(** ** How many bytes a field reads and writes *)

Lemma bind_Ok {A B} (a : A) (k : A -> result B) : bind (Ok a) k = k a.
Proof. reflexivity. Qed.

Lemma Ok_inj {A} (a b : A) : Ok a = Ok b -> a = b.
Proof. intros H. injection H as H. exact H. Qed.

(** One step through a [bind] that is known to succeed. *)
Ltac bind_ok H :=
  match type of H with
  | bind ?r _ = Ok _ =>
      let E := fresh "E" in
      destruct r eqn:E;
      [rewrite bind_Ok in H; cbv beta iota in H|discriminate H]
  end.

Ltac destruct_pairs :=
  repeat match goal with
         | p : (_ * _)%type |- _ => destruct p
         end.

Lemma stream_read_ok (n : nat) (s a s' : bytes) :
  stream_read n s = Ok (a, s') ->
  a = firstn n s /\ s' = skipn n s /\ length s = (n + length s')%nat
  /\ length a = n.
Proof.
  unfold stream_read. destruct (Nat.leb_spec n (length s)); [|discriminate].
  intros [= <- <-]. rewrite length_skipn, length_firstn. repeat split; lia.
Qed.

Lemma stream_read_app (a rest : bytes) :
  stream_read (length a) (a ++ rest) = Ok (a, rest).
Proof.
  unfold stream_read. rewrite length_app.
  destruct (Nat.leb_spec (length a) (length a + length rest)); [|lia].
  rewrite firstn_app, Nat.sub_diag, firstn_all, firstn_O, app_nil_r.
  rewrite skipn_app, Nat.sub_diag, skipn_all. reflexivity.
Qed.

Lemma FormatField_consumes (n : nat) : consumes (FormatField._parse n) n.
Proof.
  intros s a s' H. unfold FormatField._parse in H. bind_ok H.
  destruct_pairs. injection H as <- <-. apply stream_read_ok in E. tauto.
Qed.

Lemma FormatField_produces (n : nat) : produces (FormatField._build n) n.
Proof.
  intros v b. unfold FormatField._build.
  destruct ((0 <=? v) && (v <? 256 ^ Z.of_nat n)); [|discriminate].
  intros [= <-]. apply length_to_bytes_le.
Qed.

Lemma FormatField_build_range (n : nat) (v : Z) (b : bytes) :
  FormatField._build n v = Ok b ->
  0 <= v < 256 ^ Z.of_nat n /\ b = to_bytes_le n v.
Proof.
  unfold FormatField._build.
  destruct ((0 <=? v) && (v <? 256 ^ Z.of_nat n)) eqn:E; [|discriminate].
  apply andb_prop in E. destruct E as [E1 E2].
  apply Z.leb_le in E1. apply Z.ltb_lt in E2.
  intros [= <-]. split; [lia|reflexivity].
Qed.

Lemma Bytes_consumes (n : nat) : consumes (Bytes._parse n) n.
Proof.
  intros s a s' H. apply stream_read_ok in H. tauto.
Qed.

Lemma Bytes_produces (n : nat) : produces (Bytes._build n) n.
Proof.
  intros v b. unfold Bytes._build, stream_write.
  destruct (Nat.eqb_spec (length v) n); [|discriminate].
  intros [= <-]. assumption.
Qed.

Lemma GUIDAdapter_consumes : consumes GUIDAdapter._parse 16.
Proof.
  intros s a s' H. unfold GUIDAdapter._parse in H. bind_ok H.
  destruct_pairs. bind_ok H. injection H as <- <-.
  apply Bytes_consumes in E. exact E.
Qed.

Lemma GUIDAdapter_produces : produces GUIDAdapter._build 16.
Proof.
  intros v b H. unfold GUIDAdapter._build in H. bind_ok H.
  apply Bytes_produces in H. exact H.
Qed.

Lemma BandTime_consumes : consumes BandTime._parse 8.
Proof.
  intros s a s' H. unfold BandTime._parse in H. bind_ok H.
  destruct_pairs. bind_ok H. injection H as <- <-.
  apply FormatField_consumes in E. exact E.
Qed.

Lemma BandTime_produces : produces BandTime._build 8.
Proof.
  intros v b H. unfold BandTime._build in H. bind_ok H.
  apply FormatField_produces in H. exact H.
Qed.

Lemma Adapted_consumes (a : Adapter) (n : nat) : consumes (Adapted._parse a n) n.
Proof.
  intros s v s' H. unfold Adapted._parse in H. bind_ok H.
  destruct_pairs. bind_ok H. injection H as <- <-.
  apply FormatField_consumes in E. exact E.
Qed.

Lemma Adapted_produces (a : Adapter) (n : nat) : produces (Adapted._build a n) n.
Proof.
  intros v b H. unfold Adapted._build in H. bind_ok H.
  apply FormatField_produces in H. exact H.
Qed.

Lemma Flag_consumes : consumes Flag._parse 1.
Proof.
  intros s a s' H. unfold Flag._parse in H. bind_ok H.
  destruct_pairs. injection H as <- <-. apply stream_read_ok in E. tauto.
Qed.

Lemma Flag_produces : produces Flag._build 1.
Proof. intros [|] b [= <-]; reflexivity. Qed.

Lemma ArgbStruct_consumes : consumes ArgbStruct._parse 4.
Proof.
  intros s a s' H. unfold ArgbStruct._parse in H. bind_ok H.
  destruct_pairs. bind_ok H. injection H as <- <-.
  apply Bytes_consumes in E. exact E.
Qed.

Lemma FlagsEnum_consumes (flags : dict) : consumes (FlagsEnum._parse flags) 2.
Proof.
  intros s a s' H. unfold FlagsEnum._parse in H. bind_ok H.
  destruct_pairs. injection H as <- <-.
  apply FormatField_consumes in E. exact E.
Qed.

Lemma PaddedString_consumes (len : Z) :
  consumes (PaddedString._parse len) (Z.to_nat len).
Proof.
  intros s a s' H. unfold PaddedString._parse in H.
  destruct (len <? 0); [discriminate|]. bind_ok H.
  destruct_pairs. bind_ok H. injection H as <- <-.
  apply stream_read_ok in E. tauto.
Qed.

Lemma length_zeros (n : nat) : length (zeros n) = n.
Proof. apply repeat_length. Qed.

Lemma PaddedString_produces (len : Z) :
  produces (PaddedString._build len) (Z.to_nat len).
Proof.
  intros v b H. unfold PaddedString._build in H. bind_ok H.
  destruct (Z.ltb_spec len 0) as [Hl|Hl]; [discriminate|].
  destruct (Z.ltb_spec (len - Z.of_nat (length a)) 0) as [Hp|Hp]; [discriminate|].
  injection H as <-. rewrite length_app, length_zeros. lia.
Qed.

Lemma If_consumes {A} (cond : bool) (p : parser A) (k : nat) :
  consumes p k -> consumes (If._parse cond p) (if cond then k else 0).
Proof.
  intros Hp s a s' H. unfold If._parse in H. destruct cond.
  - bind_ok H. destruct_pairs. injection H as <- <-. apply Hp in E. exact E.
  - injection H as <- <-. reflexivity.
Qed.

Lemma If_produces {A} (cond : bool) (f : A -> result bytes) (e : exn) (k : nat) :
  produces f k -> produces (If._build cond f e) (if cond then k else 0).
Proof.
  intros Hf [a|] b H; unfold If._build in H; destruct cond;
    try discriminate; try (injection H as <-; reflexivity).
  apply Hf in H. exact H.
Qed.

(** What [If] returns tells whether the condition held. *)
Lemma If_parse_value {A} (cond : bool) (p : parser A) (s s' : bytes)
      (v : option A) :
  If._parse cond p s = Ok (v, s') ->
  if cond then v <> None else v = None.
Proof.
  unfold If._parse. destruct cond.
  - intros H. bind_ok H. destruct_pairs. injection H as <- <-. discriminate.
  - intros [= <- <-]. reflexivity.
Qed.

(** [Padded]: whatever the subcon does, a successful parse has moved the
    stream by the padded length, and a successful build has that length. *)
Lemma Padded_parse_length {A} (n : Z) (p : parser A) (s s2 : bytes) (a : A) :
  Padded._parse n p s = Ok (a, s2) ->
  Z.of_nat (length s) = n + Z.of_nat (length s2).
Proof.
  unfold Padded._parse. destruct (Z.ltb_spec n 0) as [Hn|Hn]; [discriminate|].
  intros H. bind_ok H. destruct a0 as [obj s1].
  destruct (Z.ltb_spec (n - (Z.of_nat (length s) - Z.of_nat (length s1))) 0)
    as [Hp|Hp]; [discriminate|].
  bind_ok H. destruct_pairs. injection H as <- <-.
  apply stream_read_ok in E0. lia.
Qed.

Lemma Padded_parse_inv {A} (n : Z) (p : parser A) (s s2 : bytes) (a : A) :
  Padded._parse n p s = Ok (a, s2) ->
  exists s1, p s = Ok (a, s1)
             /\ s2 = skipn (Z.to_nat (n - (Z.of_nat (length s)
                                           - Z.of_nat (length s1)))) s1.
Proof.
  unfold Padded._parse. destruct (Z.ltb_spec n 0) as [Hn|Hn]; [discriminate|].
  intros H. bind_ok H. destruct a0 as [obj s1].
  destruct (Z.ltb_spec (n - (Z.of_nat (length s) - Z.of_nat (length s1))) 0)
    as [Hp|Hp]; [discriminate|].
  bind_ok H. destruct_pairs. injection H as <- <-.
  apply stream_read_ok in E0. exists s1. split; [reflexivity|tauto].
Qed.

Lemma Padded_build_length {A} (n : Z) (f : A -> result bytes) (a : A) (b : bytes) :
  Padded._build n f a = Ok b -> Z.of_nat (length b) = n.
Proof.
  unfold Padded._build. destruct (Z.ltb_spec n 0) as [Hn|Hn]; [discriminate|].
  intros H. bind_ok H.
  destruct (Z.ltb_spec (n - Z.of_nat (length a0)) 0) as [Hp|Hp]; [discriminate|].
  injection H as <-. rewrite length_app, length_zeros. lia.
Qed.

Lemma parse_ok {A} (p : parser A) (b : bytes) (a : A) :
  parse p b = Ok a -> exists s', p b = Ok (a, s').
Proof.
  unfold parse. intros H. bind_ok H. destruct_pairs. injection H as <-.
  eexists. reflexivity.
Qed.

Lemma not_ok_fails {A} (r : result A) : (forall a, r <> Ok a) -> fails r.
Proof.
  destruct r as [a|e]; intros H; [destruct (H a eq_refl)|exists e; reflexivity].
Qed.

(** ** Records: the bytes they read and write *)

(** One step through a parser chain that is known to succeed. *)
Ltac parse_ok_step H :=
  match type of H with
  | bind ?r _ = Ok _ =>
      let E := fresh "E" in
      destruct r as [[? ?]|] eqn:E;
      [rewrite bind_Ok in H; cbv beta iota in H|discriminate H]
  end.

(** Turn what is known of every field read or written into a length. *)
Ltac field_lengths :=
  repeat match goal with
         | E : If._parse _ BandTime._parse _ = Ok _ |- _ =>
             apply (If_consumes _ _ _ BandTime_consumes) in E
         | E : If._parse _ (FormatField._parse ?n) _ = Ok _ |- _ =>
             apply (If_consumes _ _ _ (FormatField_consumes n)) in E
         | E : FormatField._parse _ _ = Ok _ |- _ =>
             apply FormatField_consumes in E
         | E : BandTime._parse _ = Ok _ |- _ => apply BandTime_consumes in E
         | E : GUIDAdapter._parse _ = Ok _ |- _ => apply GUIDAdapter_consumes in E
         | E : Adapted._parse _ _ _ = Ok _ |- _ => apply Adapted_consumes in E
         | E : PaddedString._parse _ _ = Ok _ |- _ =>
             apply PaddedString_consumes in E
         | E : Flag._parse _ = Ok _ |- _ => apply Flag_consumes in E
         | E : ArgbStruct._parse _ = Ok _ |- _ => apply ArgbStruct_consumes in E
         | E : FlagsEnum._parse _ _ = Ok _ |- _ => apply FlagsEnum_consumes in E
         | E : Bytes._parse _ _ = Ok _ |- _ => apply Bytes_consumes in E
         | E : FormatField._build _ _ = Ok _ |- _ =>
             apply FormatField_produces in E
         | E : BandTime._build _ = Ok _ |- _ => apply BandTime_produces in E
         | E : GUIDAdapter._build _ = Ok _ |- _ => apply GUIDAdapter_produces in E
         | E : Bytes._build _ _ = Ok _ |- _ => apply Bytes_produces in E
         end.

(** *** [TileData] *)

Lemma TileData_struct_build_raises (with_zero : bool) (t : TileData.obj) :
  fails (TileData.struct_build with_zero t).
Proof.
  unfold TileData.struct_build.
  destruct (GUIDAdapter._build (TileData.GUID t)) as [b1|e1];
    [|exists e1; reflexivity].
  destruct (FormatField._build Int32ul (TileData.Order t)) as [b2|e2];
    [|exists e2; reflexivity].
  exists (KeyError "red"). reflexivity.
Qed.

(** C1, what the code does: building a tile always raises, so that no tile
    is ever encoded and decoded again.  The theme colour is built by
    [ArgbStruct], which cannot build any colour; the exception raised is
    that of the first field that fails. *)
Theorem TileData_build_raises (with_zero : bool) (t : TileData.obj) :
  fails (TileData._build with_zero t).
Proof.
  unfold TileData._build, Padded._build.
  change (TileData.size <? 0) with false. cbv iota.
  destruct (TileData_struct_build_raises with_zero t) as [e He].
  rewrite He. exists e. reflexivity.
Qed.

Lemma TileData_struct_parse_length (with_zero : bool) (s s' : bytes)
      (t : TileData.obj) :
  TileData.struct_parse with_zero s = Ok (t, s') ->
  exists n, TileData._NameLength t = Some n /\ 0 <= n
            /\ length s = (44 + Z.to_nat (n * 2) + length s')%nat.
Proof.
  unfold TileData.struct_parse. intros H.
  do 7 parse_ok_step H. injection H as <- <-.
  exists z0. cbn [TileData._NameLength]. split; [reflexivity|].
  assert (0 <= z0) as Hz.
  { unfold FormatField._parse in E2. bind_ok E2. destruct_pairs.
    injection E2 as <- <-. apply from_bytes_le_range. }
  split; [exact Hz|].
  field_lengths. unfold Int32ul, Int16ul in *. lia.
Qed.

(** The padded length leaves room for a name of 22 code units: a buffer
    whose length prefix is larger is never decoded. *)
Lemma TileData_parse_name_length (with_zero : bool) (b : bytes)
      (t : TileData.obj) :
  parse (TileData._parse with_zero) b = Ok t ->
  exists n, TileData._NameLength t = Some n /\ 0 <= n <= 22.
Proof.
  intros H. apply parse_ok in H. destruct H as [s2 H].
  unfold TileData._parse, Padded._parse in H.
  change (TileData.size <? 0) with false in H. cbv iota in H.
  parse_ok_step H.
  destruct (Z.ltb_spec (TileData.size - (Z.of_nat (length b)
                                         - Z.of_nat (length b0))) 0)
    as [Hp|Hp]; [discriminate|].
  parse_ok_step H. injection H as <- <-.
  apply TileData_struct_parse_length in E. destruct E as (n & Hn & Hn0 & Hl).
  exists n. split; [exact Hn|]. unfold TileData.size in Hp. lia.
Qed.

Lemma TileData_parse_length (with_zero : bool) (b : bytes) (t : TileData.obj) :
  parse (TileData._parse with_zero) b = Ok t -> (88 <= length b)%nat.
Proof.
  intros H. apply parse_ok in H. destruct H as [s2 H].
  apply Padded_parse_length in H. unfold TileData.size in H. lia.
Qed.

(** *** [BandSystemTime] *)

Lemma BandSystemTimeStruct_build_length (t : BandSystemTime.t) (b : bytes) :
  BandSystemTimeStruct._build t = Ok b -> length b = 16%nat.
Proof.
  unfold BandSystemTimeStruct._build. intros H.
  do 8 bind_ok H. injection H as <-. field_lengths.
  rewrite !length_app. unfold Int16ul in *. lia.
Qed.

Lemma BandSystemTimeStruct_parse_length (b : bytes) (t : BandSystemTime.t) :
  parse BandSystemTimeStruct._parse b = Ok t -> (16 <= length b)%nat.
Proof.
  intros H. apply parse_ok in H. destruct H as [s' H].
  unfold BandSystemTimeStruct._parse in H.
  do 8 parse_ok_step H. injection H as <- <-. field_lengths.
  unfold Int16ul in *. lia.
Qed.

(** *** [UserProfile] *)

Lemma UserProfileStruct_build_length (u : UserProfile.t) (b : bytes) :
  UserProfileStruct._build u = Ok b -> length b = 282%nat.
Proof.
  unfold UserProfileStruct._build. intros H.
  do 4 bind_ok H. injection H as <-. field_lengths.
  rewrite !length_app. unfold Int16ul in *. lia.
Qed.

Lemma UserProfileStruct_parse_length (b : bytes) (u : UserProfile.t) :
  parse UserProfileStruct._parse b = Ok u -> (282 <= length b)%nat.
Proof.
  intros H. apply parse_ok in H. destruct H as [s' H].
  unfold UserProfileStruct._parse in H.
  do 4 parse_ok_step H. injection H as <- <-. field_lengths.
  unfold Int16ul in *. lia.
Qed.

(** *** [Profile] *)

Lemma Profile_struct_parse_inv (E : Enums) (s s' : bytes) (r : Profile.t) :
  ProfileStruct.struct_parse E s = Ok (r, s') ->
  s' = []
  /\ length s = ((if (2 <=? Profile.Version r)%Z then 142 else 105)
                 + length (Profile.ReservedData r))%nat
  /\ gated_fields (2 <=? Profile.Version r) r.
Proof.
  unfold ProfileStruct.struct_parse. intros H.
  do 34 parse_ok_step H. injection H as <- <-.
  cbn [Profile.Version Profile.ReservedData].
  unfold GreedyBytes._parse, stream_read_entire in *.
  match goal with
  | G : Ok (_, _) = Ok (_, _) |- _ => injection G as <- <-
  end.
  split; [reflexivity|]. split.
  - field_lengths. unfold Int16ul, Int32ul, Int8ul in *.
    destruct (2 <=? z); cbn [Z.to_nat] in *; lia.
  - unfold gated_fields, presence.
    cbn [Profile.HwagChangeTime Profile.HwagChangeAgent
         Profile.DeviceNameChangeTime Profile.DeviceNameChangeAgent
         Profile.LocaleSettingsChangeTime Profile.LocaleSettingsChangeAgent
         Profile.LanguageChangeTime Profile.LanguageChangeAgent Profile.MaxHR].
    repeat match goal with
           | G : If._parse _ _ _ = Ok _ |- _ => apply If_parse_value in G
           end.
    repeat split; assumption.
Qed.

Lemma ProfileStruct_parse_inv (E : Enums) (b : bytes) (r : Profile.t) :
  parse (ProfileStruct._parse E) b = Ok r ->
  length b = 397%nat
  /\ length (Profile.ReservedData r)
     = (if 2 <=? Profile.Version r then 255%nat else 292%nat)
  /\ gated_fields (2 <=? Profile.Version r) r.
Proof.
  intros H. apply parse_ok in H. destruct H as [s2 H].
  pose proof (Padded_parse_length _ _ _ _ _ H) as Hlen.
  apply Padded_parse_inv in H. destruct H as (s1 & Hs & Hs2).
  apply Profile_struct_parse_inv in Hs. destruct Hs as (-> & Hl & Hg).
  rewrite skipn_nil in Hs2. subst s2.
  unfold PROFILE_SIZE in Hlen. cbn [length] in Hlen.
  split; [lia|]. split; [|exact Hg].
  destruct (2 <=? Profile.Version r); lia.
Qed.

Lemma ProfileStruct_build_length (E : Enums) (r : Profile.t) (b : bytes) :
  ProfileStruct._build E r = Ok b -> length b = 397%nat.
Proof.
  intros H. apply Padded_build_length in H. unfold PROFILE_SIZE in H. lia.
Qed.

(** ** Strings: [utf_16_le] and [PaddedString] *)

Lemma not_surrogate (c : Z) :
  ~ (0xD800 <= c <= 0xDFFF) ->
  is_high_surrogate c = false /\ is_low_surrogate c = false.
Proof.
  intros H. unfold is_high_surrogate, is_low_surrogate.
  split; apply andb_false_iff; rewrite !Z.leb_gt; lia.
Qed.

Lemma ends_with_zero_single (c : Z) : c <> 0 -> ends_with_zero [c] = false.
Proof. intros H. destruct c; [contradiction| |]; reflexivity. Qed.

Lemma decode_units_bmp (c : Z) (rest : list Z) :
  ~ (0xD800 <= c <= 0xDFFF) ->
  decode_units (c :: rest) = (cs <- decode_units rest ;; Ok (c :: cs)).
Proof.
  intros H. destruct (not_surrogate c H) as [H1 H2].
  cbn [decode_units]. rewrite H1, H2. reflexivity.
Qed.

Lemma decode_units_pair (hi lo : Z) (rest : list Z) :
  0xD800 <= hi <= 0xDBFF -> 0xDC00 <= lo <= 0xDFFF ->
  decode_units (hi :: lo :: rest)
  = (cs <- decode_units rest ;;
     Ok (0x10000 + (hi - 0xD800) * 1024 + (lo - 0xDC00) :: cs)).
Proof.
  intros Hh Hl. cbn [decode_units].
  replace (is_high_surrogate hi) with true
    by (symmetry; apply andb_true_intro; rewrite !Z.leb_le; lia).
  replace (is_low_surrogate lo) with true
    by (symmetry; apply andb_true_intro; rewrite !Z.leb_le; lia).
  reflexivity.
Qed.

Lemma utf16_units_spec (c : Z) (us : list Z) :
  utf16_units c = Ok us ->
  Forall is_unit us /\ us <> []
  /\ (forall rest, decode_units (us ++ rest)
                   = (cs <- decode_units rest ;; Ok (c :: cs)))
  /\ (c <> 0 -> ends_with_zero us = false).
Proof.
  unfold utf16_units.
  destruct ((c <? 0) || (0x10FFFF <? c)) eqn:Erange; [discriminate|].
  apply orb_false_iff in Erange. destruct Erange as [Hneg Hbig].
  apply Z.ltb_ge in Hneg, Hbig.
  destruct (Z.ltb_spec c 0x10000) as [Hbmp|Hbmp].
  - destruct ((0xD800 <=? c) && (c <=? 0xDFFF)) eqn:Esur; [discriminate|].
    apply andb_false_iff in Esur. rewrite !Z.leb_gt in Esur.
    intros H. apply Ok_inj in H. subst us.
    split; [apply Forall_cons; [unfold is_unit; lia|apply Forall_nil]|].
    split; [discriminate|].
    split; [intros rest; apply decode_units_bmp; lia|].
    apply ends_with_zero_single.
  - intros H. apply Ok_inj in H. subst us.
    remember (c - 0x10000) as c' eqn:Ec'.
    assert (0 <= c' < 1048576) as Hc' by lia.
    assert (Z.shiftr c' 10 = c' / 1024) as Hhi
        by (rewrite Z.shiftr_div_pow2 by lia; reflexivity).
    assert (Z.land c' 0x3FF = c' mod 1024) as Hlo
        by (change 0x3FF with (Z.ones 10); rewrite Z.land_ones by lia;
            reflexivity).
    rewrite Hhi, Hlo.
    pose proof (Z.div_mod c' 1024 ltac:(lia)) as Hdm.
    pose proof (Z.mod_pos_bound c' 1024 ltac:(lia)) as Hm.
    assert (0 <= c' / 1024 < 1024) as Hq
        by (split; [apply Z.div_pos; lia|apply Z.div_lt_upper_bound; lia]).
    remember (c' / 1024) as q eqn:Eq. remember (c' mod 1024) as m eqn:Em.
    clear Eq Em Hhi Hlo.
    split; [apply Forall_cons; [unfold is_unit; lia|];
            apply Forall_cons; [unfold is_unit; lia|apply Forall_nil]|].
    split; [discriminate|].
    split.
    + intros rest. cbn [app]. rewrite decode_units_pair by lia.
      destruct (decode_units rest); cbn [bind]; [|reflexivity].
      do 2 f_equal. lia.
    + intros _. unfold ends_with_zero. cbn [rev app].
      destruct (0xDC00 + m) eqn:E0; try reflexivity. lia.
Qed.

Lemma ends_with_zero_app (a b : list Z) :
  b <> [] -> ends_with_zero (a ++ b) = ends_with_zero b.
Proof.
  intros Hb. unfold ends_with_zero. rewrite rev_app_distr.
  destruct (rev b) as [|x r] eqn:E.
  - apply (f_equal (@rev Z)) in E. rewrite rev_involutive in E.
    contradiction.
  - reflexivity.
Qed.

Lemma ends_with_NUL_cons (c : Z) (s : str) :
  s <> [] -> ends_with_NUL (c :: s) = ends_with_NUL s.
Proof. intros Hs. apply (ends_with_zero_app [c] s Hs). Qed.

(** Encoding gives the bytes of a list of code units that decodes to the
    string and ends with zero only if the string ends with NUL. *)
Lemma utf_16_le_encode_units (s : str) (data : bytes) :
  utf_16_le_encode s = Ok data ->
  exists us, data = flat_map (to_bytes_le 2) us
             /\ Forall is_unit us
             /\ decode_units us = Ok s
             /\ (s = [] -> us = [])
             /\ (ends_with_NUL s = false -> ends_with_zero us = false).
Proof.
  revert data. induction s as [|c s IH]; intros data H.
  - injection H as <-. exists []. repeat split; constructor.
  - cbn [utf_16_le_encode] in H. bind_ok H. bind_ok H. injection H as <-.
    destruct (IH _ eq_refl) as (us & -> & Hus & Hdec & Hnil & Hend).
    destruct (utf16_units_spec _ _ E) as (Hu & Hne & Hd & Hz).
    exists (a ++ us). rewrite flat_map_app.
    split; [reflexivity|]. split; [apply Forall_app; split; assumption|].
    split; [rewrite Hd, Hdec; reflexivity|].
    split; [discriminate|].
    intros Hs. destruct s as [|c2 s].
    + rewrite (Hnil eq_refl), app_nil_r. apply Hz.
      unfold ends_with_NUL in Hs. cbn [rev app] in Hs.
      destruct c; try discriminate; lia.
    + rewrite ends_with_NUL_cons in Hs by discriminate.
      assert (us <> []) as Hus'.
      { intros ->. cbn [decode_units] in Hdec. discriminate. }
      rewrite ends_with_zero_app by exact Hus'. apply Hend, Hs.
Qed.

Lemma units_of_bytes_units (us : list Z) :
  Forall is_unit us -> units_of_bytes (flat_map (to_bytes_le 2) us) = Ok us.
Proof.
  induction 1 as [|u us Hu Hus IH]; [reflexivity|].
  cbn [flat_map]. change (to_bytes_le 2 u)
    with [byte_of_Z (u mod 256); byte_of_Z (u / 256 mod 256)].
  cbn [app units_of_bytes]. rewrite IH. cbn [bind].
  change [byte_of_Z (u mod 256); byte_of_Z (u / 256 mod 256)]
    with (to_bytes_le 2 u).
  rewrite from_to_bytes_le by exact Hu. reflexivity.
Qed.

Lemma utf_16_le_roundtrip (s : str) (data : bytes) :
  utf_16_le_encode s = Ok data -> utf_16_le_decode data = Ok s.
Proof.
  intros H. destruct (utf_16_le_encode_units _ _ H) as (us & -> & Hus & Hd & _).
  unfold utf_16_le_decode. rewrite units_of_bytes_units by exact Hus.
  exact Hd.
Qed.

(** [NullStripped] takes the padding away and nothing else. *)
Lemma rev_zeros (n : nat) : rev (zeros n) = zeros n.
Proof.
  unfold zeros. induction n as [|n IH]; [reflexivity|].
  cbn [repeat rev]. rewrite IH. symmetry. apply repeat_cons.
Qed.

Lemma strip_units_zeros (k : nat) (r : bytes) :
  strip_units (zeros (2 * k) ++ r) = strip_units r.
Proof.
  induction k as [|k IH]; [reflexivity|].
  replace (2 * S k)%nat with (S (S (2 * k))) by lia.
  change (zeros (S (S (2 * k)))) with (x00 :: x00 :: zeros (2 * k)).
  rewrite <- !app_comm_cons. cbn [strip_units].
  change (Byte.eqb x00 x00) with true. cbn [andb]. exact IH.
Qed.

Lemma strip_units_units (us : list Z) :
  Forall is_unit us -> ends_with_zero us = false ->
  strip_units (rev (flat_map (to_bytes_le 2) us))
  = rev (flat_map (to_bytes_le 2) us).
Proof.
  intros Hus Hz. destruct (rev us) as [|u r] eqn:E.
  - apply (f_equal (@rev Z)) in E. rewrite rev_involutive in E. subst us.
    reflexivity.
  - apply (f_equal (@rev Z)) in E. rewrite rev_involutive in E. subst us.
    cbn [rev] in *. unfold ends_with_zero in Hz.
    rewrite rev_app_distr, rev_involutive in Hz. cbn [rev app] in Hz.
    apply Forall_app in Hus. destruct Hus as [_ Hu].
    inversion Hu as [|? ? Hu' _]; subst.
    rewrite flat_map_app, rev_app_distr. cbn [flat_map]. rewrite app_nil_r.
    change (to_bytes_le 2 u)
      with [byte_of_Z (u mod 256); byte_of_Z (u / 256 mod 256)].
    cbn [rev app strip_units].
    destruct (Byte.eqb (byte_of_Z (u / 256 mod 256)) x00) eqn:E1;
      [|reflexivity].
    destruct (Byte.eqb (byte_of_Z (u mod 256)) x00) eqn:E2; [|reflexivity].
    exfalso. apply Byte.byte_dec_bl in E1, E2.
    pose proof (from_to_bytes_le 2 u Hu') as Hft.
    change (to_bytes_le 2 u)
      with [byte_of_Z (u mod 256); byte_of_Z (u / 256 mod 256)] in Hft.
    rewrite E1, E2 in Hft. cbn in Hft. subst u. discriminate Hz.
Qed.

Lemma length_flat_map_units (us : list Z) :
  length (flat_map (to_bytes_le 2) us) = (2 * length us)%nat.
Proof.
  induction us as [|u us IH]; [reflexivity|].
  cbn [flat_map length]. rewrite length_app, IH, length_to_bytes_le. lia.
Qed.

Lemma NullStripped_padding (us : list Z) (pad : nat) :
  Forall is_unit us -> ends_with_zero us = false ->
  NullStripped (flat_map (to_bytes_le 2) us ++ zeros pad)
  = flat_map (to_bytes_le 2) us.
Proof.
  intros Hus Hz. unfold NullStripped.
  rewrite rev_app_distr, rev_zeros, length_app, length_flat_map_units,
    length_zeros.
  rewrite (Nat.add_comm (2 * length us) pad), Nat.odd_add_mul_2.
  destruct (Nat.Even_or_Odd pad) as [[k ->]|[k ->]].
  - replace (Nat.odd (2 * k)) with false
      by (symmetry; rewrite <- Nat.negb_even, Nat.even_mul; reflexivity).
    rewrite strip_units_zeros, strip_units_units by assumption.
    apply rev_involutive.
  - replace (Nat.odd (2 * k + 1)) with true
      by (symmetry; rewrite Nat.odd_add, Nat.odd_mul; reflexivity).
    replace (2 * k + 1)%nat with (S (2 * k)) by lia.
    change (zeros (S (2 * k))) with (x00 :: zeros (2 * k)).
    rewrite <- app_comm_cons. change (Byte.eqb x00 x00) with true. cbv iota.
    rewrite strip_units_zeros, strip_units_units by assumption.
    apply rev_involutive.
Qed.

Lemma PaddedString_roundtrip (len : Z) (v : str) (b rest : bytes) :
  PaddedString._build len v = Ok b ->
  ends_with_NUL v = false ->
  PaddedString._parse len (b ++ rest) = Ok (v, rest).
Proof.
  unfold PaddedString._build, PaddedString._parse. intros H Hv.
  assert (exists a, utf_16_le_encode v = Ok a
                    /\ (if len <? 0 then Raise PaddingError
                        else if len - Z.of_nat (length a) <? 0
                             then Raise PaddingError
                             else Ok (a ++ zeros (Z.to_nat
                                                    (len - Z.of_nat (length a)))))
                       = Ok b) as (a & E & H').
  { destruct v as [|c v'].
    - exists []. split; [reflexivity|exact H].
    - bind_ok H. exists a. split; [reflexivity|exact H]. }
  clear H. rename H' into H.
  destruct (Z.ltb_spec len 0) as [Hl|Hl]; [discriminate|].
  destruct (Z.ltb_spec (len - Z.of_nat (length a)) 0) as [Hp|Hp];
    [discriminate|].
  injection H as <-.
  replace (Z.to_nat len)
    with (length (a ++ zeros (Z.to_nat (len - Z.of_nat (length a)))))
    by (rewrite length_app, length_zeros; lia).
  rewrite stream_read_app. cbn [bind].
  destruct (utf_16_le_encode_units _ _ E) as (us & -> & Hus & Hd & _ & Hz).
  rewrite NullStripped_padding by auto.
  unfold utf_16_le_decode. rewrite units_of_bytes_units by exact Hus.
  cbn [bind]. rewrite Hd. reflexivity.
Qed.

(** ** Fields: parsing what was built *)

Lemma stream_read_prefix (n : nat) (a rest : bytes) :
  length a = n -> stream_read n (a ++ rest) = Ok (a, rest).
Proof. intros <-. apply stream_read_app. Qed.

Lemma FormatField_roundtrip (n : nat) (v : Z) (b rest : bytes) :
  FormatField._build n v = Ok b ->
  FormatField._parse n (b ++ rest) = Ok (v, rest).
Proof.
  intros H. apply FormatField_build_range in H. destruct H as [Hr ->].
  unfold FormatField._parse.
  rewrite stream_read_prefix by apply length_to_bytes_le.
  cbn [bind]. rewrite from_to_bytes_le by exact Hr. reflexivity.
Qed.

Lemma Bytes_roundtrip (n : nat) (v b rest : bytes) :
  Bytes._build n v = Ok b -> Bytes._parse n (b ++ rest) = Ok (v, rest).
Proof.
  unfold Bytes._build, stream_write, Bytes._parse.
  destruct (Nat.eqb_spec (length v) n) as [Hl|Hl]; [|discriminate].
  intros H. apply Ok_inj in H. subst b.
  apply stream_read_prefix, Hl.
Qed.

Lemma GUIDAdapter_roundtrip (u : UUID) (b rest : bytes) :
  GUIDAdapter._build u = Ok b -> GUIDAdapter._parse (b ++ rest) = Ok (u, rest).
Proof.
  unfold GUIDAdapter._build, GUIDAdapter._parse. intros H. bind_ok H.
  rewrite (Bytes_roundtrip _ _ _ _ H). cbn [bind].
  apply GUIDAdapter_decode_encode in E. destruct E as [_ ->]. reflexivity.
Qed.

Lemma BandTime_roundtrip (d : datetime) (b rest : bytes) :
  BandTime._build d = Ok b -> BandTime_exact d ->
  BandTime._parse (b ++ rest) = Ok (d, rest).
Proof.
  unfold BandTime._build, BandTime._parse. intros H Hd. bind_ok H.
  rewrite (FormatField_roundtrip _ _ _ _ H). cbn [bind].
  rewrite (Hd _ E). reflexivity.
Qed.

Lemma Adapted_roundtrip (a : Adapter) (n : nat) (v : Z) (b rest : bytes) :
  Adapted._build a n v = Ok b -> invertible a ->
  Adapted._parse a n (b ++ rest) = Ok (v, rest).
Proof.
  unfold Adapted._build, Adapted._parse. intros H Ha. bind_ok H.
  rewrite (FormatField_roundtrip _ _ _ _ H). cbn [bind].
  rewrite (Ha _ _ E). reflexivity.
Qed.

Lemma Flag_roundtrip (v : bool) (b rest : bytes) :
  Flag._build v = Ok b -> Flag._parse (b ++ rest) = Ok (v, rest).
Proof.
  unfold Flag._build. intros H. apply Ok_inj in H. subst b.
  destruct v; reflexivity.
Qed.

Lemma If_roundtrip {A} (f : A -> result bytes) (p : parser A) (e : exn)
      (v : option A) (b rest : bytes) :
  If._build true f e v = Ok b ->
  (forall x, v = Some x -> f x = Ok b -> p (b ++ rest) = Ok (x, rest)) ->
  If._parse true p (b ++ rest) = Ok (v, rest).
Proof.
  unfold If._build, If._parse. destruct v as [x|]; [|discriminate].
  intros H Hp. rewrite (Hp x eq_refl H). reflexivity.
Qed.

Lemma strict_adapter_invertible (codes : list Z) :
  invertible (strict_adapter codes).
Proof.
  intros v c. unfold strict_adapter. cbn [encode decode].
  destruct (existsb (Z.eqb v) codes) eqn:E; [|discriminate].
  intros H. apply Ok_inj in H. subst c. rewrite E. reflexivity.
Qed.

(** ** Fields: bytes after the ones a parser reads are left alone *)

Lemma stream_read_stable (n : nat) : stable (stream_read n).
Proof.
  intros s a s' x H. apply stream_read_ok in H.
  destruct H as (-> & -> & Hl & _).
  rewrite <- (firstn_skipn n s) at 1. rewrite <- app_assoc.
  apply stream_read_prefix. rewrite length_firstn. lia.
Qed.

Lemma FormatField_stable (n : nat) : stable (FormatField._parse n).
Proof.
  intros s a s' x H. unfold FormatField._parse in *. parse_ok_step H.
  rewrite (stream_read_stable _ _ _ _ x E). cbn [bind].
  apply Ok_inj in H. injection H as <- <-. reflexivity.
Qed.

Lemma Bytes_stable (n : nat) : stable (Bytes._parse n).
Proof. apply stream_read_stable. Qed.

Lemma GUIDAdapter_stable : stable GUIDAdapter._parse.
Proof.
  intros s a s' x H. unfold GUIDAdapter._parse in *. parse_ok_step H.
  rewrite (Bytes_stable _ _ _ _ x E). cbn [bind].
  destruct (GUIDAdapter._decode b); cbn [bind] in *; [|discriminate].
  apply Ok_inj in H. injection H as <- <-. reflexivity.
Qed.

Lemma BandTime_stable : stable BandTime._parse.
Proof.
  intros s a s' x H. unfold BandTime._parse in *. parse_ok_step H.
  rewrite (FormatField_stable _ _ _ _ x E). cbn [bind].
  destruct (BandTime._decode z); cbn [bind] in *; [|discriminate].
  apply Ok_inj in H. injection H as <- <-. reflexivity.
Qed.

Lemma ArgbStruct_stable : stable ArgbStruct._parse.
Proof.
  intros s a s' x H. unfold ArgbStruct._parse in *. parse_ok_step H.
  rewrite (Bytes_stable _ _ _ _ x E). cbn [bind].
  destruct (ArgbAdapter._decode b); cbn [bind] in *; [|discriminate].
  apply Ok_inj in H. injection H as <- <-. reflexivity.
Qed.

Lemma FlagsEnum_stable (flags : dict) : stable (FlagsEnum._parse flags).
Proof.
  intros s a s' x H. unfold FlagsEnum._parse in *. parse_ok_step H.
  rewrite (FormatField_stable _ _ _ _ x E). cbn [bind].
  apply Ok_inj in H. injection H as <- <-. reflexivity.
Qed.

Lemma PaddedString_stable (len : Z) : stable (PaddedString._parse len).
Proof.
  intros s a s' x H. unfold PaddedString._parse in *.
  destruct (len <? 0); [discriminate|]. parse_ok_step H.
  rewrite (stream_read_stable _ _ _ _ x E). cbn [bind].
  destruct (utf_16_le_decode (NullStripped b)); cbn [bind] in *;
    [|discriminate].
  apply Ok_inj in H. injection H as <- <-. reflexivity.
Qed.

Lemma Padded_stable {A} (n : Z) (p : parser A) :
  stable p -> stable (Padded._parse n p).
Proof.
  intros Hp s a s' x H. unfold Padded._parse in *.
  destruct (n <? 0); [discriminate|]. parse_ok_step H.
  rewrite (Hp _ _ _ x E). cbn [bind].
  rewrite !length_app.
  replace (Z.of_nat (length s + length x) - Z.of_nat (length b + length x))
    with (Z.of_nat (length s) - Z.of_nat (length b)) by lia.
  destruct (n - (Z.of_nat (length s) - Z.of_nat (length b)) <? 0);
    [discriminate|].
  parse_ok_step H. rewrite (stream_read_stable _ _ _ _ x E0). cbn [bind].
  apply Ok_inj in H. injection H as <- <-. reflexivity.
Qed.

Lemma parse_stable {A} (p : parser A) (b x : bytes) (a : A) :
  stable p -> parse p b = Ok a -> parse p (b ++ x) = Ok a.
Proof.
  intros Hp H. apply parse_ok in H. destruct H as [s' H].
  unfold parse. rewrite (Hp _ _ _ x H). reflexivity.
Qed.

(** Rewrite the first parser of the chain in the goal with what it is known
    to return on the shorter stream. *)
Ltac stable_step x :=
  first
    [ erewrite (FormatField_stable _ _ _ _ x) by eassumption
    | erewrite (GUIDAdapter_stable _ _ _ x) by eassumption
    | erewrite (BandTime_stable _ _ _ x) by eassumption
    | erewrite (ArgbStruct_stable _ _ _ x) by eassumption
    | erewrite (FlagsEnum_stable _ _ _ _ x) by eassumption
    | erewrite (PaddedString_stable _ _ _ _ x) by eassumption
    | erewrite (Bytes_stable _ _ _ _ x) by eassumption ];
  cbn [bind].

Lemma TileData_struct_stable (with_zero : bool) :
  stable (TileData.struct_parse with_zero).
Proof.
  intros s a s' x H. unfold TileData.struct_parse in *.
  do 7 parse_ok_step H. do 7 stable_step x.
  apply Ok_inj in H. injection H as <- <-. reflexivity.
Qed.

Lemma BandSystemTimeStruct_stable : stable BandSystemTimeStruct._parse.
Proof.
  intros s a s' x H. unfold BandSystemTimeStruct._parse in *.
  do 8 parse_ok_step H. do 8 stable_step x.
  apply Ok_inj in H. injection H as <- <-. reflexivity.
Qed.

Lemma UserProfileStruct_stable : stable UserProfileStruct._parse.
Proof.
  intros s a s' x H. unfold UserProfileStruct._parse in *.
  do 4 parse_ok_step H. do 4 stable_step x.
  apply Ok_inj in H. injection H as <- <-. reflexivity.
Qed.

(** ** [Profile]: parsing what was built *)

Ltac roundtrip_step :=
  first
    [ erewrite FormatField_roundtrip by eassumption
    | erewrite BandTime_roundtrip by eassumption
    | erewrite GUIDAdapter_roundtrip by eassumption
    | erewrite Adapted_roundtrip by eassumption
    | erewrite PaddedString_roundtrip by eassumption
    | erewrite Flag_roundtrip by eassumption
    | erewrite (If_roundtrip _ BandTime._parse)
        by (first [eassumption
                  |intros ? Hsome Hbuilt; injection Hsome as <-;
                   apply BandTime_roundtrip; assumption])
    | erewrite (If_roundtrip _ (FormatField._parse _))
        by (first [eassumption
                  |intros ? _ Hbuilt; apply FormatField_roundtrip;
                   exact Hbuilt]) ];
  rewrite bind_Ok; cbv beta iota.

Lemma Profile_struct_roundtrip (E : Enums) (r : Profile.t) (data : bytes) :
  enums_invertible E ->
  Profile.Version r = 2 ->
  ProfileStruct.struct_build E r = Ok data ->
  timestamps_exact r ->
  strings_kept r ->
  ProfileStruct.struct_parse E data = Ok (r, []).
Proof.
  intros (Ie1 & Ie2 & Ie3 & Ie4 & Ie5 & Ie6) Hv H Ht Hs.
  destruct r. unfold timestamps_exact, strings_kept in *.
  cbn [Profile.Version Profile.LastSync Profile.Birthday
       Profile.HwagChangeTime Profile.DeviceNameChangeTime
       Profile.LocaleSettingsChangeTime Profile.LanguageChangeTime
       Profile.DeviceName Profile.LocaleName Profile.DateSeparator
       Profile.NumberSeparator Profile.DecimalSeparator] in *.
  subst Version.
  destruct Ht as (T1 & T2 & T3 & T4 & T5 & T6).
  destruct Hs as (S1 & S2 & S3 & S4 & S5).
  unfold ProfileStruct.struct_build in H. cbv zeta in H.
  cbn [Profile.Version Profile.LastSync Profile.UserGUID Profile.Birthday
       Profile.Weight_g Profile.Height_mm Profile.Gender Profile.DeviceName
       Profile.LocaleName Profile.LocaleId Profile.Language
       Profile.DateSeparator Profile.NumberSeparator Profile.DecimalSeparator
       Profile.TimeFormat Profile.DateFormat Profile.DistanceShortUnits
       Profile.DistanceLongUnits Profile.MassUnits Profile.VolumeUnits
       Profile.EnergyUnits Profile.TemperatureUnits Profile.RunDisplayUnits
       Profile.Telemetry Profile.HwagChangeTime Profile.HwagChangeAgent
       Profile.DeviceNameChangeTime Profile.DeviceNameChangeAgent
       Profile.LocaleSettingsChangeTime Profile.LocaleSettingsChangeAgent
       Profile.LanguageChangeTime Profile.LanguageChangeAgent Profile.MaxHR
       Profile.ReservedData] in H.
  change (2 <=? 2) with true in H.
  do 34 bind_ok H. apply Ok_inj in H. subst data.
  unfold GreedyBytes._build in *.
  match goal with
  | G : Ok ReservedData = Ok _ |- _ => apply Ok_inj in G; subst
  end.
  destruct HwagChangeTime as [t1|]; [|discriminate].
  destruct DeviceNameChangeTime as [t2|]; [|discriminate].
  destruct LocaleSettingsChangeTime as [t3|]; [|discriminate].
  destruct LanguageChangeTime as [t4|]; [|discriminate].
  cbn [option_all] in *.
  unfold ProfileStruct.struct_parse.
  roundtrip_step. change (2 <=? 2) with true.
  do 32 roundtrip_step.
  reflexivity.
Qed.

Lemma ProfileStruct_roundtrip (E : Enums) (r : Profile.t) (b : bytes) :
  enums_invertible E ->
  Profile.Version r = 2 ->
  ProfileStruct._build E r = Ok b ->
  timestamps_exact r ->
  strings_kept r ->
  length (Profile.ReservedData r) = 255%nat ->
  parse (ProfileStruct._parse E) b = Ok r.
Proof.
  intros HE Hv H Ht Hs Hr.
  unfold ProfileStruct._build, Padded._build in H.
  change (PROFILE_SIZE <? 0) with false in H. cbv iota in H. bind_ok H.
  pose proof (Profile_struct_roundtrip E r a HE Hv E0 Ht Hs) as Hp.
  pose proof (Profile_struct_parse_inv _ _ _ _ Hp) as (_ & Hl & _).
  rewrite Hv in Hl. change (2 <=? 2) with true in Hl. cbv iota in Hl.
  rewrite Hr in Hl.
  replace (PROFILE_SIZE - Z.of_nat (length a)) with 0 in H
    by (unfold PROFILE_SIZE; lia).
  change (0 <? 0) with false in H. cbv iota in H.
  apply Ok_inj in H. subst b. change (zeros (Z.to_nat 0)) with (@nil byte).
  rewrite app_nil_r.
  unfold parse, ProfileStruct._parse, Padded._parse.
  change (PROFILE_SIZE <? 0) with false. cbv iota.
  rewrite Hp. cbn [bind length].
  replace (PROFILE_SIZE - (Z.of_nat (length a) - Z.of_nat 0)) with 0
    by (unfold PROFILE_SIZE; lia).
  reflexivity.
Qed.

(** ** C1: a sample tile *)

Example TileData_build_sample : fails (TileData._build true sample_tile).
Proof. exists (KeyError "red"). vm_compute. reflexivity. Qed.

(** ** C3: record sizes *)

(** C3, as the code has it.  When building succeeds the buffer has the
    declared size, for [BandSystemTime] (16), [UserProfile] (282) and
    [Profile] (397).  Parsing fails on every buffer shorter than the
    declared size, so on a tile buffer of 87 bytes; a [Profile] is parsed
    from buffers of exactly 397 bytes only; the three other records are
    parsed from longer buffers as well, the bytes after the record being
    left unread. *)
Theorem record_sizes :
  (forall t b, BandSystemTimeStruct._build t = Ok b -> length b = 16%nat)
  /\ (forall u b, UserProfileStruct._build u = Ok b -> length b = 282%nat)
  /\ (forall E p b, ProfileStruct._build E p = Ok b -> length b = 397%nat)
  /\ (forall b t,
        parse BandSystemTimeStruct._parse b = Ok t -> (16 <= length b)%nat)
  /\ (forall b u,
        parse UserProfileStruct._parse b = Ok u -> (282 <= length b)%nat)
  /\ (forall E b p,
        parse (ProfileStruct._parse E) b = Ok p -> length b = 397%nat)
  /\ (forall with_zero b t,
        parse (TileData._parse with_zero) b = Ok t -> (88 <= length b)%nat)
  /\ (forall with_zero b,
        length b = 87%nat -> fails (parse (TileData._parse with_zero) b))
  /\ (forall b x t,
        parse BandSystemTimeStruct._parse b = Ok t ->
        parse BandSystemTimeStruct._parse (b ++ x) = Ok t)
  /\ (forall b x u,
        parse UserProfileStruct._parse b = Ok u ->
        parse UserProfileStruct._parse (b ++ x) = Ok u)
  /\ (forall with_zero b x t,
        parse (TileData._parse with_zero) b = Ok t ->
        parse (TileData._parse with_zero) (b ++ x) = Ok t).
Proof.
  repeat apply conj.
  - exact BandSystemTimeStruct_build_length.
  - exact UserProfileStruct_build_length.
  - exact ProfileStruct_build_length.
  - exact BandSystemTimeStruct_parse_length.
  - exact UserProfileStruct_parse_length.
  - intros E b p H. apply ProfileStruct_parse_inv in H. tauto.
  - exact TileData_parse_length.
  - intros with_zero b Hb. apply not_ok_fails. intros t Ht.
    apply TileData_parse_length in Ht. lia.
  - intros b x t. apply parse_stable, BandSystemTimeStruct_stable.
  - intros b x u. apply parse_stable, UserProfileStruct_stable.
  - intros with_zero b x t. apply parse_stable, Padded_stable,
      TileData_struct_stable.
Qed.

Lemma record_sizes_witness :
  length [xea; x07; x0b; x00; x02; x00; x04; x00;
          x0a; x00; x1e; x00; x0f; x00; xfa; x00] = 16%nat
  /\ length (built (UserProfileStruct._build sample_userprofile)) = 282%nat
  /\ length sample_profile_bytes = 397%nat
  /\ (88 <= length (zeros 88))%nat
  /\ fails (parse (TileData._parse true) (zeros 87)).
Proof.
  destruct record_sizes as (H1 & H2 & H3 & _ & _ & _ & H7 & H8 & _).
  split; [|split; [|split; [|split]]].
  - apply (H1 (BandSystemTime.mk 2026 11 2 4 10 30 15 250)).
    vm_compute. reflexivity.
  - apply (H2 sample_userprofile). vm_compute. reflexivity.
  - apply (H3 sample_enums sample_profile). vm_compute. reflexivity.
  - apply (H7 true (zeros 88)
              (TileData.mk (mkUUID 0) 0 (mkARGB 0 0 0 0) (Some 0)
                 (FlagsDict (FlagsEnum._decode (iter_flag true TileSettings) 0))
                 [] (mkUUID 0))).
    vm_compute. reflexivity.
  - apply (H8 true (zeros 87)). reflexivity.
Defined.

(** C3 as stated fails: a tile is parsed from 89 bytes, a [UserProfile] from
    283 and a [BandSystemTime] from 17. *)
Lemma TileData_parse_accepts_89_bytes :
  length (zeros 89) = 89%nat
  /\ parse (TileData._parse true) (zeros 89)
     = Ok (TileData.mk (mkUUID 0) 0 (mkARGB 0 0 0 0) (Some 0)
             (FlagsDict (FlagsEnum._decode (iter_flag true TileSettings) 0))
             [] (mkUUID 0))
  /\ parse UserProfileStruct._parse (zeros 283)
     = Ok (UserProfile.mk 0 EPOCH (mkUUID 0) (zeros 256))
  /\ parse BandSystemTimeStruct._parse (zeros 17)
     = Ok (BandSystemTime.mk 0 0 0 0 0 0 0 0).
Proof. repeat apply conj; vm_compute; reflexivity. Qed.

(** ** C7: version gating and the round trip of [Profile] *)

(** C7, as the code has it.  A parsed [Profile] whose [Version] is 1 has
    none of the nine gated fields and one whose [Version] is 2 has all of
    them.  A [Profile] with [Version = 2] that is built is parsed back as it
    was when its [ReservedData] fills the record (255 bytes), none of its
    strings ends with NUL, its timestamps are among those the timestamp
    codec gives back, and the enumeration adapters decode what they
    encode. *)
Theorem ProfileStruct_gating_and_roundtrip (E : Enums) :
  (forall b r,
      parse (ProfileStruct._parse E) b = Ok r ->
      Profile.Version r = 1 -> gated_fields false r)
  /\ (forall b r,
        parse (ProfileStruct._parse E) b = Ok r ->
        Profile.Version r = 2 -> gated_fields true r)
  /\ (forall r b,
        enums_invertible E ->
        Profile.Version r = 2 ->
        ProfileStruct._build E r = Ok b ->
        timestamps_exact r ->
        strings_kept r ->
        length (Profile.ReservedData r) = 255%nat ->
        parse (ProfileStruct._parse E) b = Ok r).
Proof.
  split; [|split].
  - intros b r H Hv. apply ProfileStruct_parse_inv in H.
    destruct H as (_ & _ & H). rewrite Hv in H. exact H.
  - intros b r H Hv. apply ProfileStruct_parse_inv in H.
    destruct H as (_ & _ & H). rewrite Hv in H. exact H.
  - intros r b. apply ProfileStruct_roundtrip.
Qed.

Lemma BandTime_exact_by_computation (d : datetime) (ticks : Z) :
  BandTime._encode d = Ok ticks -> BandTime._decode ticks = Ok d ->
  BandTime_exact d.
Proof.
  intros He Hd obj H. rewrite He in H. apply Ok_inj in H. subst obj. exact Hd.
Qed.

Lemma sample_lastsync_exact : BandTime_exact sample_lastsync.
Proof.
  apply (BandTime_exact_by_computation _ 132223968000000000);
    vm_compute; reflexivity.
Qed.

Lemma sample_birthday_exact : BandTime_exact sample_birthday.
Proof.
  apply (BandTime_exact_by_computation _ 120000000000000000);
    vm_compute; reflexivity.
Qed.

Lemma sample_enums_invertible : enums_invertible sample_enums.
Proof. repeat split; apply strict_adapter_invertible. Qed.

Lemma ProfileStruct_gating_and_roundtrip_witness :
  parse (ProfileStruct._parse sample_enums) sample_profile_bytes
  = Ok sample_profile
  /\ gated_fields true sample_profile
  /\ gated_fields false version1_profile.
Proof.
  destruct (ProfileStruct_gating_and_roundtrip sample_enums)
    as (H1 & H2 & H3).
  assert (parse (ProfileStruct._parse sample_enums) sample_profile_bytes
          = Ok sample_profile) as Hp.
  { apply H3.
    - exact sample_enums_invertible.
    - reflexivity.
    - vm_compute. reflexivity.
    - repeat split; first [exact sample_lastsync_exact
                          |exact sample_birthday_exact].
    - repeat split.
    - reflexivity. }
  split; [exact Hp|]. split.
  - apply (H2 sample_profile_bytes sample_profile Hp). reflexivity.
  - apply (H1 (x01 :: zeros 396) version1_profile); [|reflexivity].
    vm_compute. reflexivity.
Defined.

(** C7 as stated fails: a [Profile] with [Version = 2] and no reserved
    bytes comes back with 255 of them, whatever the enumeration adapters
    are. *)
Lemma Profile_roundtrip_pads_ReservedData :
  Profile.Version short_profile = 2
  /\ Profile_roundtrip sample_enums short_profile
     = Ok (sample_profile_with (zeros 255))
  /\ ~ (exists E, Profile_roundtrip E short_profile = Ok short_profile).
Proof.
  split; [reflexivity|]. split; [vm_compute; reflexivity|].
  intros [E H]. unfold Profile_roundtrip in H. bind_ok H.
  apply ProfileStruct_parse_inv in H. destruct H as (_ & H & _).
  discriminate H.
Qed.

(** ** Floats: a bound on what rounding adds *)

Lemma pow2_pos (j : Z) : 0 < 2 ^ Z.max 0 j.
Proof. apply Z.pow_pos_nonneg; lia. Qed.

Lemma round_half_even_bound (n d : Z) :
  0 <= n -> 0 < d ->
  0 <= round_half_even n d /\ round_half_even n d * d <= n + d.
Proof.
  intros Hn Hd. unfold round_half_even.
  pose proof (Z.div_mod n d ltac:(lia)) as Hdm.
  pose proof (Z.mod_pos_bound n d Hd) as Hm.
  assert (0 <= n / d) as Hq by (apply Z.div_pos; lia).
  remember (n / d) as q eqn:Eq. remember (n mod d) as r eqn:Er.
  clear Eq Er.
  destruct (2 * r ?= d); [destruct (Z.even q)| |]; split; nia.
Qed.

Lemma le_scaled_mono (d n j j' : Z) :
  0 <= d -> j' <= j -> le_scaled d n j -> le_scaled d n j'.
Proof.
  unfold le_scaled. intros Hd Hj H.
  pose proof (pow2_pos j) as A. pose proof (pow2_pos (- j)) as B.
  pose proof (pow2_pos j') as A'. pose proof (pow2_pos (- j')) as B'.
  assert (2 ^ Z.max 0 j' * 2 ^ Z.max 0 (- j)
          <= 2 ^ Z.max 0 j * 2 ^ Z.max 0 (- j')) as Hp.
  { rewrite <- !Z.pow_add_r by lia. apply Z.pow_le_mono_r; lia. }
  remember (2 ^ Z.max 0 j) as a. remember (2 ^ Z.max 0 (- j)) as b.
  remember (2 ^ Z.max 0 j') as a'. remember (2 ^ Z.max 0 (- j')) as b'.
  apply (Z.mul_le_mono_pos_r _ _ b B).
  apply Z.le_trans with (d * (a * b')); [|nia].
  rewrite <- Z.mul_assoc. apply Z.mul_le_mono_nonneg_l; [exact Hd|exact Hp].
Qed.

(** The exponent [float_of_ratio] starts from is not above the quotient. *)
Lemma le_scaled_log2 (n d : Z) :
  0 < n -> 0 < d -> le_scaled d n (Z.log2 n - Z.log2 d - 1).
Proof.
  intros Hn Hd. unfold le_scaled.
  pose proof (Z.log2_spec n Hn) as [Hn1 _].
  pose proof (Z.log2_spec d Hd) as [_ Hd2].
  pose proof (Z.log2_nonneg n) as Ha. pose proof (Z.log2_nonneg d) as Hb.
  remember (Z.log2 n) as a. remember (Z.log2 d) as b.
  destruct (Z.le_gt_cases 0 (a - b - 1)) as [Hk|Hk].
  - replace (Z.max 0 (a - b - 1)) with (a - b - 1) by lia.
    replace (Z.max 0 (- (a - b - 1))) with 0 by lia.
    rewrite Z.pow_0_r, Z.mul_1_r.
    apply Z.le_trans with (2 ^ a); [|exact Hn1].
    replace a with (Z.succ b + (a - b - 1)) at 2 by lia.
    rewrite Z.pow_add_r by lia.
    apply Z.mul_le_mono_nonneg_r; [apply Z.pow_nonneg; lia|lia].
  - replace (Z.max 0 (a - b - 1)) with 0 by lia.
    replace (Z.max 0 (- (a - b - 1))) with (b + 1 - a) by lia.
    rewrite Z.pow_0_r, Z.mul_1_r.
    apply Z.le_trans with (2 ^ a * 2 ^ (b + 1 - a)).
    + rewrite <- Z.pow_add_r by lia.
      replace (a + (b + 1 - a)) with (Z.succ b) by lia. lia.
    + apply Z.mul_le_mono_nonneg_r; [apply Z.pow_nonneg; lia|exact Hn1].
Qed.

(** Rounding a positive quotient to binary64 at most doubles it. *)
Lemma float_of_ratio_bound (n d : Z) :
  0 < n -> 0 < d ->
  0 <= mant (float_of_ratio n d)
  /\ mant (float_of_ratio n d) * (d * 2 ^ Z.max 0 (expo (float_of_ratio n d)))
     <= 2 * (n * 2 ^ Z.max 0 (- expo (float_of_ratio n d))).
Proof.
  intros Hn Hd. unfold float_of_ratio.
  destruct (Z.eqb_spec n 0) as [|_]; [lia|].
  set (k := Z.log2 n - Z.log2 d).
  set (lg := if n * 2 ^ Z.max 0 (- k) <? d * 2 ^ Z.max 0 k then k - 1 else k).
  assert (le_scaled d n lg) as Hlg.
  { unfold lg. destruct (Z.ltb_spec (n * 2 ^ Z.max 0 (- k)) (d * 2 ^ Z.max 0 k))
      as [Hlt|Hge].
    - apply le_scaled_log2; assumption.
    - exact Hge. }
  assert (le_scaled d n (lg - 52)) as He
      by (apply (le_scaled_mono d n lg); [lia|lia|exact Hlg]).
  unfold le_scaled in He. cbn [mant expo].
  pose proof (pow2_pos (lg - 52)) as A. pose proof (pow2_pos (- (lg - 52))) as B.
  remember (d * 2 ^ Z.max 0 (lg - 52)) as D.
  remember (n * 2 ^ Z.max 0 (- (lg - 52))) as N.
  assert (0 < D) as HD by (subst D; apply Z.mul_pos_pos; assumption).
  assert (0 <= N) as HN by (subst N; apply Z.mul_nonneg_nonneg; lia).
  destruct (round_half_even_bound N D HN HD) as [H0 H1].
  split; [exact H0|lia].
Qed.

Lemma lt_scaled_log2 (n d : Z) :
  0 < n -> 0 < d -> lt_scaled n d (Z.log2 n - Z.log2 d + 1).
Proof.
  intros Hn Hd. unfold lt_scaled.
  pose proof (Z.log2_spec n Hn) as [_ Hn2].
  pose proof (Z.log2_spec d Hd) as [Hd1 _].
  pose proof (Z.log2_nonneg n) as Ha. pose proof (Z.log2_nonneg d) as Hb.
  remember (Z.log2 n) as a. remember (Z.log2 d) as b.
  destruct (Z.le_gt_cases 0 (a - b + 1)) as [Hk|Hk].
  - replace (Z.max 0 (a - b + 1)) with (a - b + 1) by lia.
    replace (Z.max 0 (- (a - b + 1))) with 0 by lia.
    rewrite Z.pow_0_r, Z.mul_1_r.
    apply Z.lt_le_trans with (2 ^ Z.succ a); [exact Hn2|].
    replace (Z.succ a) with (b + (a - b + 1)) by lia.
    rewrite Z.pow_add_r by lia.
    apply Z.mul_le_mono_nonneg_r; [apply Z.pow_nonneg; lia|exact Hd1].
  - replace (Z.max 0 (a - b + 1)) with 0 by lia.
    replace (Z.max 0 (- (a - b + 1))) with (b - a - 1) by lia.
    rewrite Z.pow_0_r, Z.mul_1_r.
    apply Z.lt_le_trans with (2 ^ Z.succ a * 2 ^ (b - a - 1)).
    + apply Z.mul_lt_mono_pos_r; [apply Z.pow_pos_nonneg; lia|exact Hn2].
    + rewrite <- Z.pow_add_r by lia.
      replace (Z.succ a + (b - a - 1)) with b by lia. exact Hd1.
Qed.

(** Moving the exponent by 52 moves the quotient by [2 ^ 52]. *)
Lemma pow2_shift (lg c : Z) :
  0 <= c ->
  2 ^ Z.max 0 (lg - c) * 2 ^ c * 2 ^ Z.max 0 (- lg)
  = 2 ^ Z.max 0 lg * 2 ^ Z.max 0 (- (lg - c)).
Proof.
  intros Hc. rewrite <- !Z.pow_add_r by lia. f_equal. lia.
Qed.

Lemma round_half_even_nearest (n d : Z) :
  0 <= n -> 0 < d ->
  n / d <= round_half_even n d <= n / d + 1
  /\ Z.abs (2 * (round_half_even n d * d - n)) <= d
  /\ (Z.abs (2 * (round_half_even n d * d - n)) = d ->
      Z.even (round_half_even n d) = true).
Proof.
  intros Hn Hd. unfold round_half_even.
  pose proof (Z.div_mod n d ltac:(lia)) as Hdm.
  pose proof (Z.mod_pos_bound n d Hd) as Hm.
  remember (n / d) as q eqn:Eq. remember (n mod d) as r eqn:Er.
  clear Eq Er.
  destruct (Z.compare_spec (2 * r) d) as [He|Hlt|Hgt].
  - destruct (Z.even q) eqn:Ev.
    + split; [lia|]. split; [nia|]. intros _. exact Ev.
    + split; [lia|]. split; [nia|]. intros _.
      rewrite Z.even_add, Ev. reflexivity.
  - split; [lia|]. split; [nia|]. intros H. exfalso. nia.
  - split; [lia|]. split; [nia|]. intros H. exfalso. nia.
Qed.

(** [float_of_ratio] is a binary64: for a positive quotient the significand
    has 53 bits (it can reach [2 ^ 53], the next power of two), it is an
    integer nearest to the quotient scaled by the exponent, and even when
    the quotient is halfway between two integers. *)
Lemma float_of_ratio_nearest (n d : Z) :
  0 < n -> 0 < d ->
  let f := float_of_ratio n d in
  let N := n * 2 ^ Z.max 0 (- expo f) in
  let D := d * 2 ^ Z.max 0 (expo f) in
  2 ^ 52 <= mant f <= 2 ^ 53
  /\ Z.abs (2 * (mant f * D - N)) <= D
  /\ (Z.abs (2 * (mant f * D - N)) = D -> Z.even (mant f) = true).
Proof.
  intros Hn Hd. unfold float_of_ratio.
  destruct (Z.eqb_spec n 0) as [|_]; [lia|].
  set (k := Z.log2 n - Z.log2 d).
  set (lg := if n * 2 ^ Z.max 0 (- k) <? d * 2 ^ Z.max 0 k then k - 1 else k).
  assert (le_scaled d n lg /\ lt_scaled n d (lg + 1)) as [Hlo Hhi].
  { unfold lg. destruct (Z.ltb_spec (n * 2 ^ Z.max 0 (- k)) (d * 2 ^ Z.max 0 k))
      as [Hlt|Hge].
    - split; [apply le_scaled_log2; assumption|].
      replace (k - 1 + 1) with k by lia. exact Hlt.
    - split; [exact Hge|]. apply lt_scaled_log2; assumption. }
  cbv zeta. cbn [mant expo].
  unfold le_scaled in Hlo. unfold lt_scaled in Hhi.
  pose proof (pow2_shift lg 52 ltac:(lia)) as S1.
  pose proof (pow2_shift (lg + 1) 53 ltac:(lia)) as S2.
  replace (lg + 1 - 53) with (lg - 52) in S2 by lia.
  pose proof (pow2_pos (lg - 52)) as A. pose proof (pow2_pos (- (lg - 52))) as B.
  pose proof (pow2_pos lg) as Al. pose proof (pow2_pos (- lg)) as Bl.
  pose proof (pow2_pos (lg + 1)) as Ah. pose proof (pow2_pos (- (lg + 1))) as Bh.
  remember (2 ^ Z.max 0 (lg - 52)) as a. remember (2 ^ Z.max 0 (- (lg - 52))) as b.
  remember (2 ^ Z.max 0 lg) as al. remember (2 ^ Z.max 0 (- lg)) as bl.
  remember (2 ^ Z.max 0 (lg + 1)) as ah.
  remember (2 ^ Z.max 0 (- (lg + 1))) as bh.
  assert (2 ^ 52 * (d * a) <= n * b) as Hlow.
  { apply (Z.mul_le_mono_pos_r _ _ bl Bl).
    replace (2 ^ 52 * (d * a) * bl) with (d * (a * 2 ^ 52 * bl)) by ring.
    rewrite S1. replace (d * (al * b)) with (d * al * b) by ring.
    replace (n * b * bl) with (n * bl * b) by ring.
    apply Z.mul_le_mono_nonneg_r; [lia|exact Hlo]. }
  assert (n * b < 2 ^ 53 * (d * a)) as Hhigh.
  { apply (Z.mul_lt_mono_pos_r bh); [exact Bh|].
    replace (2 ^ 53 * (d * a) * bh) with (d * (a * 2 ^ 53 * bh)) by ring.
    rewrite S2. replace (d * (ah * b)) with (d * ah * b) by ring.
    replace (n * b * bh) with (n * bh * b) by ring.
    apply Z.mul_lt_mono_pos_r; [exact B|exact Hhi]. }
  assert (0 < d * a) as HD by (apply Z.mul_pos_pos; assumption).
  assert (0 <= n * b) as HN by (apply Z.mul_nonneg_nonneg; lia).
  destruct (round_half_even_nearest (n * b) (d * a) HN HD) as (Hq & Hn1 & Hn2).
  assert (2 ^ 52 <= n * b / (d * a)) as Q1
      by (apply Z.div_le_lower_bound; [exact HD|lia]).
  assert (n * b / (d * a) < 2 ^ 53) as Q2
      by (apply Z.div_lt_upper_bound; [exact HD|lia]).
  split; [lia|]. split; [exact Hn1|exact Hn2].
Qed.

(** What [int] keeps of a float is at most the float. *)
Lemma int_of_float_bound (f : float) :
  0 <= mant f ->
  0 <= int_of_float f
  /\ int_of_float f * 2 ^ Z.max 0 (- expo f) <= mant f * 2 ^ Z.max 0 (expo f).
Proof.
  intros Hm. unfold int_of_float.
  destruct (Z.leb_spec 0 (expo f)) as [He|He].
  - replace (Z.max 0 (- expo f)) with 0 by lia.
    replace (Z.max 0 (expo f)) with (expo f) by lia.
    rewrite Z.pow_0_r.
    assert (0 <= 2 ^ expo f) by (apply Z.pow_nonneg; lia).
    split; [apply Z.mul_nonneg_nonneg; assumption|lia].
  - replace (Z.max 0 (- expo f)) with (- expo f) by lia.
    replace (Z.max 0 (expo f)) with 0 by lia.
    rewrite Z.pow_0_r.
    assert (0 < 2 ^ (- expo f)) as Hp by (apply Z.pow_pos_nonneg; lia).
    split; [apply Z.div_pos; lia|].
    pose proof (Z.mul_div_le (mant f) (2 ^ (- expo f)) Hp). lia.
Qed.

(** The tick count computed for [x] microseconds is at most [40 * x]. *)
Lemma ticks_bound (x : Z) :
  0 <= x ->
  let ticks := int_of_float (float_mul_int (total_seconds x) 10000000) in
  0 <= ticks <= 40 * x.
Proof.
  intros Hx ticks. subst ticks.
  destruct (Z.eq_dec x 0) as [->|Hnz]; [vm_compute; split; discriminate|].
  unfold total_seconds, int_truediv.
  destruct (float_of_ratio_bound x (10 ^ 6) ltac:(lia) ltac:(reflexivity))
    as [M1 B1].
  set (f1 := float_of_ratio x (10 ^ 6)) in *.
  unfold float_mul_int.
  pose proof (pow2_pos (expo f1)) as A1.
  pose proof (pow2_pos (- expo f1)) as A1'.
  set (n2 := mant f1 * 10000000 * 2 ^ Z.max 0 (expo f1)).
  set (d2 := 2 ^ Z.max 0 (- expo f1)) in *.
  assert (0 <= n2) as Hn2
      by (unfold n2; apply Z.mul_nonneg_nonneg;
          [apply Z.mul_nonneg_nonneg; lia|lia]).
  destruct (Z.eq_dec n2 0) as [E0|Hn2'].
  - rewrite E0. change (float_of_ratio 0 d2) with (mkFloat 0 0).
    vm_compute int_of_float. lia.
  - destruct (float_of_ratio_bound n2 d2 ltac:(lia) A1') as [M2 B2].
    set (f2 := float_of_ratio n2 d2) in *.
    destruct (int_of_float_bound f2 M2) as [T0 T1].
    pose proof (pow2_pos (expo f2)) as A2.
    pose proof (pow2_pos (- expo f2)) as A2'.
    remember (int_of_float f2) as t.
    remember (2 ^ Z.max 0 (expo f2)) as a2.
    remember (2 ^ Z.max 0 (- expo f2)) as b2.
    remember (2 ^ Z.max 0 (expo f1)) as a1.
    remember (mant f1) as m1. remember (mant f2) as m2.
    change (10 ^ 6) with 1000000 in B1.
    split; [exact T0|].
    (* t * b2 <= m2 * a2, m2 * (d2 * a2) <= 2 * (n2 * b2),
       m1 * (10^6 * a1) <= 2 * (x * d2) *)
    assert (t * d2 <= 2 * n2) as S1.
    { apply (Z.mul_le_mono_pos_r _ _ b2 A2').
      apply Z.le_trans with (m2 * (d2 * a2)); [|lia].
      replace (t * d2 * b2) with (t * b2 * d2) by ring.
      replace (m2 * (d2 * a2)) with (m2 * a2 * d2) by ring.
      apply Z.mul_le_mono_nonneg_r; [lia|exact T1]. }
    unfold n2 in S1.
    apply (Z.mul_le_mono_pos_r _ _ (1000000 * d2)); [lia|].
    replace (t * (1000000 * d2)) with (1000000 * (t * d2)) by ring.
    apply Z.le_trans with (1000000 * (2 * (m1 * 10000000 * a1))); [lia|].
    replace (1000000 * (2 * (m1 * 10000000 * a1)))
      with (20000000 * (m1 * (1000000 * a1))) by ring.
    apply Z.le_trans with (20000000 * (2 * (x * d2))); [lia|].
    apply Z.eq_le_incl. ring.
Qed.

Lemma BandTime_encode_range (date : datetime) (ticks : Z) :
  BandTime._encode date = Ok ticks -> 0 <= ticks < 2 ^ 64.
Proof.
  unfold BandTime._encode.
  destruct (Z.ltb_spec datetime_max date) as [|Hmax]; [discriminate|].
  destruct (Z.ltb_spec date EPOCH) as [|Hep]; [discriminate|].
  intros H. apply Ok_inj in H. subst ticks.
  unfold datetime_sub.
  pose proof (ticks_bound (date - EPOCH) ltac:(lia)) as Hb. cbv zeta in Hb.
  assert (datetime_max - EPOCH = 265046774399999999) as Emax by reflexivity.
  change (2 ^ 64) with 18446744073709551616. lia.
Qed.

(** The whole codec [BandTime(Int64ul)] builds every timestamp from the
    epoch to [datetime.max]: the tick count fits the field. *)
Lemma BandTime_build_spec (date : datetime) :
  (date < EPOCH \/ datetime_max < date -> BandTime._build date = Raise ValueError)
  /\ (EPOCH <= date <= datetime_max ->
      exists ticks, BandTime._encode date = Ok ticks
                    /\ BandTime._build date = Ok (to_bytes_le 8 ticks)).
Proof.
  destruct (BandTime_encode_spec date) as [H1 H2]. unfold BandTime._build.
  split; intros H.
  - rewrite (H1 H). reflexivity.
  - destruct (H2 H) as [ticks Ht]. exists ticks. split; [exact Ht|].
    rewrite Ht, bind_Ok. pose proof (BandTime_encode_range _ _ Ht) as Hr.
    unfold FormatField._build, Int64ul.
    change (256 ^ Z.of_nat 8) with (2 ^ 64).
    replace ((0 <=? ticks) && (ticks <? 2 ^ 64)) with true
      by (symmetry; apply andb_true_intro; split;
          [apply Z.leb_le|apply Z.ltb_lt]; lia).
    reflexivity.
Qed.

(** C5, as the code has it: encoding raises exactly for a timestamp before
    the epoch or after [datetime.max], in the adapter as in the whole codec
    (the tick count of any other timestamp fits the 64-bit field); decoding
    succeeds exactly up to the tick count of [datetime.max],
    2650467743999999999, and raises [OverflowError] for every larger 64-bit
    count. *)
Theorem BandTime_encode_decode_domain :
  (forall date,
      BandTime._encode date = Raise ValueError
      <-> (date < EPOCH \/ datetime_max < date))
  /\ (forall date,
        (exists ticks, BandTime._encode date = Ok ticks)
        <-> EPOCH <= date <= datetime_max)
  /\ (forall date,
        (exists b, BandTime._build date = Ok b)
        <-> EPOCH <= date <= datetime_max)
  /\ (forall obj,
        0 <= obj < 2 ^ 64 ->
        (obj <= last_tick -> BandTime._decode obj = Ok (EPOCH + obj / 10))
        /\ (last_tick < obj -> BandTime._decode obj = Raise OverflowError)).
Proof.
  split; [|split; [|split]].
  - intros date. destruct (BandTime_encode_spec date) as [H1 H2].
    split; [|exact H1].
    intros H. destruct (Z.lt_ge_cases date EPOCH) as [|Hge]; [lia|].
    destruct (Z.lt_ge_cases datetime_max date) as [|Hle]; [lia|].
    destruct (H2 (conj Hge Hle)) as [t Ht]. congruence.
  - intros date. destruct (BandTime_encode_spec date) as [H1 H2].
    split; [|exact H2].
    intros [t Ht]. destruct (Z.lt_ge_cases date EPOCH) as [Hlt|Hge].
    + rewrite H1 in Ht by lia. discriminate.
    + destruct (Z.lt_ge_cases datetime_max date) as [Hgt|Hle]; [|lia].
      rewrite H1 in Ht by lia. discriminate.
  - intros date. destruct (BandTime_build_spec date) as [H1 H2].
    split.
    + intros [b Hb]. destruct (Z.lt_ge_cases date EPOCH) as [Hlt|Hge].
      * rewrite H1 in Hb by lia. discriminate.
      * destruct (Z.lt_ge_cases datetime_max date) as [Hgt|Hle]; [|lia].
        rewrite H1 in Hb by lia. discriminate.
    + intros H. destruct (H2 H) as (ticks & _ & Hb). eexists. exact Hb.
  - intros obj Hobj. destruct (BandTime_decode_spec obj) as [H1 H2].
    split; intros H; [apply H1|apply H2]; unfold first_tick, last_tick in *; lia.
Qed.

Lemma BandTime_encode_decode_domain_witness :
  BandTime._decode last_tick = Ok (EPOCH + last_tick / 10)
  /\ BandTime._decode (last_tick + 1) = Raise OverflowError
  /\ BandTime._encode (EPOCH - 1) = Raise ValueError.
Proof.
  destruct BandTime_encode_decode_domain as (H1 & _ & _ & H3).
  split; [|split].
  - apply (H3 last_tick); unfold last_tick; lia.
  - apply (H3 (last_tick + 1)); unfold last_tick; lia.
  - apply H1. left. lia.
Defined.

(** C5 as stated fails: the largest 64-bit tick count is not decoded. *)
Lemma BandTime_decode_not_total :
  BandTime._decode (2 ^ 64 - 1) = Raise OverflowError
  /\ parse BandTime._parse [xff; xff; xff; xff; xff; xff; xff; xff]
     = Raise OverflowError
  /\ BandTime._decode (last_tick + 1) = Raise OverflowError
  /\ BandTime._decode last_tick = Ok datetime_max.
Proof. repeat apply conj; vm_compute; reflexivity. Qed.

(** * Further properties of the codecs *)

(** ** Identifiers, from the value to the wire and back *)

Lemma GUIDAdapter_encode_ok (u : UUID) :
  0 <= UUID_int u < 2 ^ 128 -> exists b, GUIDAdapter._encode u = Ok b.
Proof.
  intros H. unfold GUIDAdapter._encode, uuid.bytes_le, uuid.bytes, to_bytes.
  change (256 ^ Z.of_nat 16) with (2 ^ 128).
  replace ((0 <=? UUID_int u) && (UUID_int u <? 2 ^ 128)) with true
    by (symmetry; apply andb_true_intro; split;
        [apply Z.leb_le|apply Z.ltb_lt]; lia).
  rewrite bind_Ok. eexists. reflexivity.
Qed.

(** X1: every identifier (a 128-bit integer) is encoded, to 16 bytes, and
    these decode to the identifier again, by the adapter alone and through
    [GUIDAdapter(Bytes(16))], whatever follows them in the stream. *)
Theorem GUIDAdapter_decode_of_encode (u : UUID) :
  0 <= UUID_int u < 2 ^ 128 ->
  exists b,
    GUIDAdapter._encode u = Ok b
    /\ length b = 16%nat
    /\ GUIDAdapter._decode b = Ok u
    /\ GUIDAdapter._build u = Ok b
    /\ forall rest, GUIDAdapter._parse (b ++ rest) = Ok (u, rest).
Proof.
  intros H. destruct (GUIDAdapter_encode_ok u H) as [b Hb].
  destruct (GUIDAdapter_decode_encode u b Hb) as [Hl Hd].
  assert (GUIDAdapter._build u = Ok b) as Hbuild.
  { unfold GUIDAdapter._build. rewrite Hb, bind_Ok.
    unfold Bytes._build, stream_write. rewrite Hl. reflexivity. }
  exists b. repeat apply conj; try assumption.
  intros rest. apply GUIDAdapter_roundtrip. exact Hbuild.
Qed.

Lemma GUIDAdapter_decode_of_encode_witness :
  exists b,
    GUIDAdapter._encode (mkUUID 0xd8895bfd0461400dbd52dbe2a3c33021) = Ok b
    /\ length b = 16%nat
    /\ GUIDAdapter._decode b = Ok (mkUUID 0xd8895bfd0461400dbd52dbe2a3c33021)
    /\ GUIDAdapter._build (mkUUID 0xd8895bfd0461400dbd52dbe2a3c33021) = Ok b
    /\ forall rest,
         GUIDAdapter._parse (b ++ rest)
         = Ok (mkUUID 0xd8895bfd0461400dbd52dbe2a3c33021, rest).
Proof.
  apply (GUIDAdapter_decode_of_encode
           (mkUUID 0xd8895bfd0461400dbd52dbe2a3c33021)).
  cbn [UUID_int]. lia.
Defined.

(** ** Colours read from the wire *)

Lemma ArgbAdapter_decode_more (a r g b : byte) (extra : bytes) :
  ArgbAdapter._decode (a :: r :: g :: b :: extra)
  = Ok (mkARGB (Z_of_byte r) (Z_of_byte g) (Z_of_byte b) (Z_of_byte a)).
Proof.
  unfold ArgbAdapter._decode, parse. cbn.
  rewrite !Z.add_0_r. reflexivity.
Qed.

Lemma ArgbAdapter_decode_short (obj : bytes) :
  (length obj < 4)%nat -> ArgbAdapter._decode obj = Raise StreamError.
Proof.
  intros H.
  destruct obj as [|a [|r [|g [|b obj]]]]; try reflexivity.
  cbn [length] in H. lia.
Qed.

(** X2: a colour is read from four bytes, alpha first, then red, green and
    blue (the dataclass has alpha last); every channel is the byte as it
    is; the adapter does not look at bytes after the fourth, and fewer than
    four bytes are a [StreamError]. *)
Theorem ArgbStruct_parse_reads_alpha_first :
  (forall (a r g b : byte) (rest : bytes),
      ArgbStruct._parse (a :: r :: g :: b :: rest)
      = Ok (mkARGB (Z_of_byte r) (Z_of_byte g) (Z_of_byte b) (Z_of_byte a),
            rest))
  /\ (forall (a r g b : byte) (extra : bytes),
        ArgbAdapter._decode (a :: r :: g :: b :: extra)
        = Ok (mkARGB (Z_of_byte r) (Z_of_byte g) (Z_of_byte b) (Z_of_byte a)))
  /\ (forall s : bytes,
        (length s < 4)%nat ->
        ArgbStruct._parse s = Raise StreamError
        /\ ArgbAdapter._decode s = Raise StreamError).
Proof.
  split; [|split].
  - intros a r g b rest. unfold ArgbStruct._parse, Bytes._parse, stream_read.
    cbn [length Nat.leb firstn skipn]. rewrite bind_Ok. cbv beta iota.
    rewrite ArgbAdapter_decode_4. reflexivity.
  - apply ArgbAdapter_decode_more.
  - intros s H. split; [|apply ArgbAdapter_decode_short; exact H].
    unfold ArgbStruct._parse, Bytes._parse, stream_read.
    destruct (Nat.leb_spec 4 (length s)) as [Hle|Hlt]; [lia|reflexivity].
Qed.

Lemma ArgbStruct_parse_reads_alpha_first_witness :
  ArgbStruct._parse [x80; xff; x00; x10; x07]
  = Ok (mkARGB 255 0 16 128, [x07])
  /\ ArgbStruct._parse [x80; xff; x00] = Raise StreamError
  /\ ArgbAdapter._decode [x80; xff; x00] = Raise StreamError.
Proof.
  destruct ArgbStruct_parse_reads_alpha_first as (H1 & _ & H3).
  split; [exact (H1 x80 xff x00 x10 [x07])|].
  apply (H3 [x80; xff; x00]). cbn [length]. lia.
Defined.

(** ** Rasters *)

Lemma MeTileAdapter_encode_cons (r g b : byte) (rest : bytes) :
  MeTileAdapter._encode (r :: g :: b :: rest)
  = (out <- MeTileAdapter._encode rest ;;
     Ok (to_bytes_le 2 (packed565 (Z_of_byte r) (Z_of_byte g) (Z_of_byte b))
         ++ out)).
Proof.
  unfold MeTileAdapter._encode, islice.
  cbn [map islice_from Nat.sub zip3 flat_map].
  rewrite bytearray_app, bytearray_pixel by apply Z_of_byte_range.
  unfold bind.
  destruct (bytearray
              (flat_map (fun '(r_value, g_value, b_value) =>
                           MeTileAdapter.pixel r_value g_value b_value)
                 (zip3 (islice_from (map Z_of_byte rest) 0 3)
                       (islice_from (map Z_of_byte rest) 1 3)
                       (islice_from (map Z_of_byte rest) 2 3))));
    reflexivity.
Qed.

(** Three bytes at a time. *)
Lemma raster_ind (P : bytes -> Prop) :
  P [] -> (forall x, P [x]) -> (forall x y, P [x; y]) ->
  (forall r g b rest, P rest -> P (r :: g :: b :: rest)) ->
  forall rgb, P rgb.
Proof.
  intros H0 H1 H2 H3.
  fix IH 1. intros [|r [|g [|b rest]]].
  - exact H0.
  - apply H1.
  - apply H2.
  - apply H3, IH.
Qed.

Lemma MeTileAdapter_encode_length (rgb : bytes) :
  exists out,
    MeTileAdapter._encode rgb = Ok out
    /\ length out = (2 * (length rgb / 3))%nat.
Proof.
  induction rgb as [| x | x y | r g b rest IH] using raster_ind.
  - exists []. split; reflexivity.
  - exists []. split; reflexivity.
  - exists []. split; reflexivity.
  - destruct IH as (out & E & L). rewrite MeTileAdapter_encode_cons, E, bind_Ok.
    eexists. split; [reflexivity|].
    rewrite length_app, length_to_bytes_le, L.
    change (length (r :: g :: b :: rest)) with (1 * 3 + length rest)%nat.
    rewrite Nat.div_add_l by lia. lia.
Qed.

Lemma MeTileAdapter_encode_tail (rgb tail : bytes) :
  (length rgb mod 3 = 0)%nat -> (length tail < 3)%nat ->
  MeTileAdapter._encode (rgb ++ tail) = MeTileAdapter._encode rgb.
Proof.
  induction rgb as [| x | x y | r g b rest IH] using raster_ind;
    intros Hm Ht.
  - destruct tail as [|x [|y [|z tail]]]; try reflexivity.
    cbn [length] in Ht. lia.
  - discriminate Hm.
  - discriminate Hm.
  - cbn [app]. rewrite !MeTileAdapter_encode_cons, IH; [reflexivity| |exact Ht].
    change (length (r :: g :: b :: rest)) with (1 * 3 + length rest)%nat in Hm.
    revert Hm. rewrite Nat.add_comm, Nat.Div0.mod_add. trivial.
Qed.

(** X3: encoding a raster never fails; it writes two bytes for every whole
    pixel of three and nothing for one or two bytes left over at the end,
    which are passed over in silence. *)
Theorem MeTileAdapter_encode_whole_pixels (rgb : bytes) :
  exists out,
    MeTileAdapter._encode rgb = Ok out
    /\ length out = (2 * (length rgb / 3))%nat
    /\ (forall tail,
          (length rgb mod 3 = 0)%nat -> (length tail < 3)%nat ->
          MeTileAdapter._encode (rgb ++ tail) = Ok out).
Proof.
  destruct (MeTileAdapter_encode_length rgb) as (out & E & L).
  exists out. split; [exact E|]. split; [exact L|].
  intros tail Hm Ht. rewrite MeTileAdapter_encode_tail by assumption. exact E.
Qed.

Lemma MeTileAdapter_encode_whole_pixels_witness :
  MeTileAdapter._encode [xff; x00; x00; x00; xff; x00]
  = Ok [x00; xf8; xe0; x07]
  /\ MeTileAdapter._encode ([xff; x00; x00; x00; xff; x00] ++ [x12; x34])
     = Ok [x00; xf8; xe0; x07].
Proof.
  destruct (MeTileAdapter_encode_whole_pixels [xff; x00; x00; x00; xff; x00])
    as (out & E & _ & T).
  assert (out = [x00; xf8; xe0; x07]) as ->.
  { apply Ok_inj. rewrite <- E. reflexivity. }
  split; [exact E|].
  apply T; [reflexivity|cbn [length]; lia].
Defined.

Lemma to_bytes_le_2_inj (v w : Z) :
  0 <= v < 65536 -> 0 <= w < 65536 ->
  to_bytes_le 2 v = to_bytes_le 2 w -> v = w.
Proof.
  intros Hv Hw H.
  rewrite <- (from_to_bytes_le 2 v), <- (from_to_bytes_le 2 w), H;
    [reflexivity| |]; change (256 ^ Z.of_nat 2) with 65536; assumption.
Qed.

Lemma MeTileAdapter_encode_one (r g b : byte) :
  MeTileAdapter._encode [r; g; b]
  = Ok (to_bytes_le 2 (packed565 (Z_of_byte r) (Z_of_byte g) (Z_of_byte b))).
Proof.
  rewrite MeTileAdapter_encode_cons.
  change (MeTileAdapter._encode []) with (@Ok bytes []).
  rewrite bind_Ok, app_nil_r. reflexivity.
Qed.

(** X4: what a pixel keeps.  Two pixels are written as the same two bytes
    exactly when they agree on the top five bits of red, the top six of
    green and the top five of blue: the low bits are lost, nothing else
    is. *)
Theorem MeTileAdapter_encode_keeps_top_bits (r g b r' g' b' : byte) :
  MeTileAdapter._encode [r; g; b] = MeTileAdapter._encode [r'; g'; b']
  <-> (Z.shiftr (Z_of_byte r) 3 = Z.shiftr (Z_of_byte r') 3
       /\ Z.shiftr (Z_of_byte g) 2 = Z.shiftr (Z_of_byte g') 2
       /\ Z.shiftr (Z_of_byte b) 3 = Z.shiftr (Z_of_byte b') 3).
Proof.
  rewrite !MeTileAdapter_encode_one.
  pose proof (Z_of_byte_range r) as Hr. pose proof (Z_of_byte_range g) as Hg.
  pose proof (Z_of_byte_range b) as Hb. pose proof (Z_of_byte_range r') as Hr'.
  pose proof (Z_of_byte_range g') as Hg'.
  pose proof (Z_of_byte_range b') as Hb'.
  pose proof (packed565_value _ _ _ Hr Hg Hb) as V.
  pose proof (packed565_value _ _ _ Hr' Hg' Hb') as V'.
  byte_facts (Z_of_byte r) Hr. byte_facts (Z_of_byte g) Hg.
  byte_facts (Z_of_byte b) Hb. byte_facts (Z_of_byte r') Hr'.
  byte_facts (Z_of_byte g') Hg'. byte_facts (Z_of_byte b') Hb'.
  split.
  - intros H. apply Ok_inj in H. apply to_bytes_le_2_inj in H; lia.
  - intros (E1 & E2 & E3). rewrite V, V', E1, E2, E3. reflexivity.
Qed.

(** ** Flags *)

Lemma land_pow2_testbit (m k : Z) :
  0 <= k -> (Z.land m (2 ^ k) =? 2 ^ k) = Z.testbit m k.
Proof.
  intros Hk.
  assert (Z.land m (2 ^ k) = if Z.testbit m k then 2 ^ k else 0) as ->.
  { apply Z.bits_inj'. intros n Hn. rewrite Z.land_spec.
    destruct (Z.testbit m k) eqn:E;
      rewrite ?Z.bits_0, ?Z.pow2_bits_eqb by exact Hk;
      destruct (Z.eqb_spec k n) as [<-|Hne];
      rewrite ?E, ?andb_false_r; reflexivity. }
  assert (0 < 2 ^ k) by (apply Z.pow_pos_nonneg; lia).
  destruct (Z.testbit m k); [apply Z.eqb_refl|apply Z.eqb_neq; lia].
Qed.

(** X5: what the flag codec decodes.  Every named flag of [TileSettings] is
    reported set exactly when its bit is set in the mask, whatever the other
    bits are; [Null], whose value is zero, is reported set for every mask
    where iterating over the class yields it, and is no key at all where it
    does not. *)
Theorem FlagsEnum_decode_reads_bits (with_zero : bool) (m : Z) :
  let c := FlagsEnum._decode (iter_flag with_zero TileSettings) m in
  (forall name value,
      In (name, value) TileSettings -> value <> 0 ->
      flag_of c name = Some (Z.testbit m (Z.log2 value)))
  /\ flag_of c "Null" = (if with_zero then Some true else None).
Proof.
  intros c. subst c. split.
  - intros name value Hin Hnz. cbn [TileSettings In] in Hin.
    repeat match goal with
           | H : _ \/ _ |- _ => destruct H as [H|H]
           | H : False |- _ => destruct H
           | H : (_, _) = (_, _) |- _ => injection H as <- <-
           end;
      try (exfalso; apply Hnz; reflexivity);
      (destruct with_zero;
       [change (iter_flag true TileSettings) with TileSettings
       |change (iter_flag false TileSettings) with (tl TileSettings)]);
      cbn - [Z.land Z.testbit Z.eqb];
      match goal with
      | |- Some (Z.land _ ?v =? _) = Some (Z.testbit _ ?k) =>
          f_equal; apply (land_pow2_testbit m k); lia
      end.
  - destruct with_zero; cbn - [Z.land]; [|reflexivity].
    rewrite Z.land_0_r. reflexivity.
Qed.

Lemma FlagsEnum_decode_reads_bits_witness :
  flag_of (FlagsEnum._decode (iter_flag true TileSettings) 0x4A)
          "EnableBadging" = Some true
  /\ flag_of (FlagsEnum._decode (iter_flag true TileSettings) 0x4A)
             "EnableNotification" = Some false.
Proof.
  destruct (FlagsEnum_decode_reads_bits true 0x4A) as [H _].
  split.
  - apply (H "EnableBadging"%string 2); [cbn; tauto|lia].
  - apply (H "EnableNotification"%string 1); [cbn; tauto|lia].
Defined.

Lemma encode_items_unknown (flags : dict) (name : string)
      (items : list (string * bool)) :
  In (name, true) items -> startswith_underscore name = false ->
  (forall v, getitem flags name <> Ok v) ->
  forall acc, FlagsEnum.encode_items flags items acc = Raise MappingError.
Proof.
  intros Hin Hu Hk. induction items as [|[n v] items IH]; [destruct Hin|].
  intros acc. cbn [FlagsEnum.encode_items].
  destruct Hin as [Heq|Hin].
  - injection Heq as -> ->. rewrite Hu. cbn [negb andb].
    destruct (getitem flags name) as [w|e] eqn:E; [|reflexivity].
    destruct (Hk w eq_refl).
  - destruct (negb (startswith_underscore n) && v); [|apply IH; exact Hin].
    destruct (getitem flags n); [apply IH; exact Hin|reflexivity].
Qed.

(** X6: a Container with a label the enumeration does not have, set to a
    true value, is not built: [MappingError], whatever the other entries
    are, and nothing is written.  Labels that start with an underscore are
    not looked up. *)
Theorem FlagsEnum_build_unknown_label (flags : dict) (name : string)
      (d : list (string * bool)) :
  In (name, true) d -> startswith_underscore name = false ->
  (forall v, getitem flags name <> Ok v) ->
  FlagsEnum._encode flags (FlagsDict d) = Raise MappingError
  /\ FlagsEnum._build flags (FlagsDict d) = Raise MappingError.
Proof.
  intros Hin Hu Hk.
  assert (FlagsEnum._encode flags (FlagsDict d) = Raise MappingError) as E
      by (apply (encode_items_unknown flags name); assumption).
  split; [exact E|]. unfold FlagsEnum._build. rewrite E. reflexivity.
Qed.

Lemma FlagsEnum_build_unknown_label_witness :
  FlagsEnum._encode (iter_flag false TileSettings)
    (FlagsDict [("EnableBadging", true); ("Vibrate", true)]%string)
  = Raise MappingError
  /\ FlagsEnum._build (iter_flag false TileSettings)
       (FlagsDict [("EnableBadging", true); ("Vibrate", true)]%string)
     = Raise MappingError.
Proof.
  apply (FlagsEnum_build_unknown_label _ "Vibrate"%string).
  - cbn. tauto.
  - reflexivity.
  - intros v H. discriminate H.
Defined.

(** ** Integer fields, from the wire to the value and back *)

Lemma FormatField_build_ok (n : nat) (v : Z) :
  0 <= v < 256 ^ Z.of_nat n -> FormatField._build n v = Ok (to_bytes_le n v).
Proof.
  intros H. unfold FormatField._build.
  replace ((0 <=? v) && (v <? 256 ^ Z.of_nat n)) with true
    by (symmetry; apply andb_true_intro; split;
        [apply Z.leb_le|apply Z.ltb_lt]; lia).
  reflexivity.
Qed.

Lemma FormatField_build_error (n : nat) (v : Z) :
  ~ 0 <= v < 256 ^ Z.of_nat n -> FormatField._build n v = Raise FormatFieldError.
Proof.
  intros H. unfold FormatField._build.
  destruct (Z.leb_spec 0 v) as [H0|H0]; [|reflexivity].
  destruct (Z.ltb_spec v (256 ^ Z.of_nat n)) as [H1|H1]; [|reflexivity].
  destruct H. lia.
Qed.

Lemma FormatField_build_from_bytes (n : nat) (b : bytes) :
  length b = n -> FormatField._build n (from_bytes_le b) = Ok b.
Proof.
  intros <-. rewrite FormatField_build_ok by apply from_bytes_le_range.
  rewrite to_from_bytes_le. reflexivity.
Qed.

Lemma FormatField_parse_app (a rest : bytes) :
  FormatField._parse (length a) (a ++ rest) = Ok (from_bytes_le a, rest).
Proof.
  unfold FormatField._parse. rewrite stream_read_app. reflexivity.
Qed.

Lemma FormatField_parse_short (n : nat) (s : bytes) :
  (length s < n)%nat -> FormatField._parse n s = Raise StreamError.
Proof.
  intros H. unfold FormatField._parse, stream_read.
  destruct (Nat.leb_spec n (length s)); [lia|reflexivity].
Qed.

(** Split a stream that is long enough into the bytes a field reads and the
    others. *)
Lemma split_at (n : nat) (s : bytes) :
  (n <= length s)%nat ->
  exists a rest, s = a ++ rest /\ length a = n.
Proof.
  intros H. exists (firstn n s), (skipn n s).
  rewrite firstn_skipn, length_firstn. split; [reflexivity|lia].
Qed.

(** *** [BandSystemTimeStruct] *)

Lemma BandSystemTimeStruct_parse_build (t : BandSystemTime.t)
      (b rest : bytes) :
  BandSystemTimeStruct._build t = Ok b ->
  BandSystemTimeStruct._parse (b ++ rest) = Ok (t, rest).
Proof.
  intros H. destruct t. unfold BandSystemTimeStruct._build in H.
  cbn [BandSystemTime.Year BandSystemTime.Month BandSystemTime.DayOfWeek
       BandSystemTime.Day BandSystemTime.Hour BandSystemTime.Minute
       BandSystemTime.Second BandSystemTime.Milliseconds] in H.
  do 8 bind_ok H. apply Ok_inj in H. subst b.
  unfold BandSystemTimeStruct._parse. rewrite <- !app_assoc.
  do 8 roundtrip_step. reflexivity.
Qed.

Lemma BandSystemTimeStruct_build_fits (t : BandSystemTime.t) :
  BandSystemTime_fits t ->
  exists b, BandSystemTimeStruct._build t = Ok b /\ length b = 16%nat.
Proof.
  intros H. destruct t. unfold BandSystemTime_fits in H.
  cbn [BandSystemTime.Year BandSystemTime.Month BandSystemTime.DayOfWeek
       BandSystemTime.Day BandSystemTime.Hour BandSystemTime.Minute
       BandSystemTime.Second BandSystemTime.Milliseconds] in H.
  repeat match goal with
         | H : Forall _ (_ :: _) |- _ =>
             let H1 := fresh "R" in
             apply Forall_cons_iff in H; destruct H as [H1 H]
         end.
  unfold BandSystemTimeStruct._build.
  cbn [BandSystemTime.Year BandSystemTime.Month BandSystemTime.DayOfWeek
       BandSystemTime.Day BandSystemTime.Hour BandSystemTime.Minute
       BandSystemTime.Second BandSystemTime.Milliseconds].
  rewrite !FormatField_build_ok
    by (unfold Int16ul; change (256 ^ Z.of_nat 2) with 65536; assumption).
  rewrite !bind_Ok. eexists. split; [reflexivity|].
  rewrite !length_app, !length_to_bytes_le. reflexivity.
Qed.

Lemma BandSystemTimeStruct_build_unfit (t : BandSystemTime.t) :
  ~ BandSystemTime_fits t ->
  BandSystemTimeStruct._build t = Raise FormatFieldError.
Proof.
  intros H. destruct t. unfold BandSystemTimeStruct._build.
  cbn [BandSystemTime.Year BandSystemTime.Month BandSystemTime.DayOfWeek
       BandSystemTime.Day BandSystemTime.Hour BandSystemTime.Minute
       BandSystemTime.Second BandSystemTime.Milliseconds].
  unfold Int16ul, FormatField._build. change (256 ^ Z.of_nat 2) with 65536.
  repeat match goal with
         | |- context [(0 <=? ?v) && (?v <? 65536)] =>
             destruct ((0 <=? v) && (v <? 65536)) eqn:?; [|reflexivity]
         end.
  exfalso. apply H. unfold BandSystemTime_fits.
  cbn [BandSystemTime.Year BandSystemTime.Month BandSystemTime.DayOfWeek
       BandSystemTime.Day BandSystemTime.Hour BandSystemTime.Minute
       BandSystemTime.Second BandSystemTime.Milliseconds].
  repeat match goal with
         | E : _ && _ = true |- _ =>
             apply andb_prop in E; destruct E as [?E1 ?E2];
             apply Z.leb_le in E1; apply Z.ltb_lt in E2
         end.
  repeat (apply Forall_cons; [lia|]). apply Forall_nil.
Qed.

Lemma BandSystemTimeStruct_parse_16 (b : bytes) :
  (16 <= length b)%nat ->
  exists t,
    BandSystemTimeStruct._parse b = Ok (t, skipn 16 b)
    /\ BandSystemTimeStruct._build t = Ok (firstn 16 b).
Proof.
  intros H. destruct (split_at 16 b H) as (a & rest & -> & Ha).
  destruct (list_of_length_16 a Ha)
    as (a0&a1&a2&a3&a4&a5&a6&a7&a8&a9&a10&a11&a12&a13&a14&a15&->).
  cbn [app firstn skipn].
  exists (BandSystemTime.mk (from_bytes_le [a0; a1]) (from_bytes_le [a2; a3])
            (from_bytes_le [a4; a5]) (from_bytes_le [a6; a7])
            (from_bytes_le [a8; a9]) (from_bytes_le [a10; a11])
            (from_bytes_le [a12; a13]) (from_bytes_le [a14; a15])).
  split.
  - unfold BandSystemTimeStruct._parse, Int16ul.
    change (a0 :: a1 :: a2 :: a3 :: a4 :: a5 :: a6 :: a7 :: a8 :: a9 :: a10
               :: a11 :: a12 :: a13 :: a14 :: a15 :: rest)
      with ([a0; a1] ++ [a2; a3] ++ [a4; a5] ++ [a6; a7] ++ [a8; a9]
            ++ [a10; a11] ++ [a12; a13] ++ [a14; a15] ++ rest).
    repeat (rewrite (FormatField_parse_app [_; _]), bind_Ok; cbv beta iota).
    reflexivity.
  - unfold BandSystemTimeStruct._build.
    cbn [BandSystemTime.Year BandSystemTime.Month BandSystemTime.DayOfWeek
         BandSystemTime.Day BandSystemTime.Hour BandSystemTime.Minute
         BandSystemTime.Second BandSystemTime.Milliseconds].
    rewrite !(FormatField_build_from_bytes Int16ul [_; _] eq_refl).
    reflexivity.
Qed.

(** X7: the wire format of [BandSystemTime] is all of the 16-byte strings.
    A record is built exactly when each of its eight fields is a 16-bit
    unsigned integer ([FormatFieldError] otherwise), to 16 bytes that are
    parsed to the record again; and any 16 bytes are parsed, to a record
    that is built to these bytes again. *)
Theorem BandSystemTimeStruct_wire_bijection :
  (forall t,
      BandSystemTime_fits t ->
      exists b, BandSystemTimeStruct._build t = Ok b /\ length b = 16%nat)
  /\ (forall t,
        ~ BandSystemTime_fits t ->
        BandSystemTimeStruct._build t = Raise FormatFieldError)
  /\ (forall t b rest,
        BandSystemTimeStruct._build t = Ok b ->
        BandSystemTimeStruct._parse (b ++ rest) = Ok (t, rest))
  /\ (forall b,
        (16 <= length b)%nat ->
        exists t,
          BandSystemTimeStruct._parse b = Ok (t, skipn 16 b)
          /\ BandSystemTimeStruct._build t = Ok (firstn 16 b)).
Proof.
  split; [exact BandSystemTimeStruct_build_fits|].
  split; [exact BandSystemTimeStruct_build_unfit|].
  split; [exact BandSystemTimeStruct_parse_build|].
  exact BandSystemTimeStruct_parse_16.
Qed.

Lemma BandSystemTimeStruct_wire_bijection_witness :
  (exists b,
      BandSystemTimeStruct._build (BandSystemTime.mk 2015 6 1 30 23 59 59 123)
      = Ok b /\ length b = 16%nat)
  /\ BandSystemTimeStruct._build (BandSystemTime.mk 2015 6 1 30 23 59 59 65536)
     = Raise FormatFieldError
  /\ (exists t,
        BandSystemTimeStruct._parse (repeat xff 17) = Ok (t, [xff])
        /\ BandSystemTimeStruct._build t = Ok (repeat xff 16)).
Proof.
  destruct BandSystemTimeStruct_wire_bijection as (H1 & H2 & _ & H4).
  split; [|split].
  - apply H1. unfold BandSystemTime_fits. cbn.
    repeat (apply Forall_cons; [lia|]). apply Forall_nil.
  - apply H2. unfold BandSystemTime_fits. cbn. intros H.
    repeat match goal with
           | H : Forall _ (_ :: _) |- _ =>
               apply Forall_cons_iff in H; destruct H as [? H]
           end.
    lia.
  - apply (H4 (repeat xff 17)). cbn [repeat length]. lia.
Defined.

(** *** [BandSystemDateTimeAdapter] *)

Ltac to_props :=
  repeat match goal with
         | E : negb _ = false |- _ => apply negb_false_iff in E
         | E : _ && _ = true |- _ =>
             let E1 := fresh "E" in
             apply andb_prop in E; destruct E as [E E1]
         | E : (_ <=? _) = true |- _ => apply Z.leb_le in E
         end.

Lemma dt_datetime_inv (y m d h mi s us : Z) (r : dt.naive) :
  dt.datetime y m d h mi s us = Ok r ->
  r = dt.mk y m d h mi s us
  /\ 1 <= y <= 9999 /\ 1 <= m <= 12 /\ 1 <= d <= dt._days_in_month y m
  /\ 0 <= h <= 23 /\ 0 <= mi <= 59 /\ 0 <= s <= 59 /\ 0 <= us <= 999999.
Proof.
  unfold dt.datetime. intros H.
  repeat match type of H with
         | (if ?c then _ else _) = _ => destruct c eqn:?; [discriminate H|]
         end.
  apply Ok_inj in H. subst r. to_props. repeat split; assumption.
Qed.

Lemma dt_datetime_intro (y m d h mi s us : Z) :
  1 <= y <= 9999 -> 1 <= m <= 12 -> 1 <= d <= dt._days_in_month y m ->
  0 <= h <= 23 -> 0 <= mi <= 59 -> 0 <= s <= 59 -> 0 <= us <= 999999 ->
  dt.datetime y m d h mi s us = Ok (dt.mk y m d h mi s us).
Proof.
  intros Hy Hm Hd Hh Hmi Hs Hus. unfold dt.datetime.
  repeat match goal with
         | |- context [negb ((?a <=? ?b) && (?c <=? ?e))] =>
             replace (negb ((a <=? b) && (c <=? e))) with false
               by (symmetry; apply negb_false_iff, andb_true_intro; split;
                   apply Z.leb_le; lia)
         end.
  reflexivity.
Qed.

Lemma days_in_month_le_31 (y m : Z) :
  1 <= m <= 12 -> 28 <= dt._days_in_month y m <= 31.
Proof.
  intros H. unfold dt._days_in_month.
  destruct ((m =? 2) && dt._is_leap y); [lia|].
  assert (m = 1 \/ m = 2 \/ m = 3 \/ m = 4 \/ m = 5 \/ m = 6 \/ m = 7
          \/ m = 8 \/ m = 9 \/ m = 10 \/ m = 11 \/ m = 12) as Hc by lia.
  repeat destruct Hc as [->|Hc]; try subst m;
    (split; apply Z.leb_le; reflexivity).
Qed.

(** X8: a naive datetime that exists (one its constructor accepts) comes
    back from the adapter with its microseconds cut down to whole
    milliseconds and nothing else changed; the record it is encoded to is
    always built, to 16 bytes that are parsed to that record again. *)
Theorem BandSystemDateTimeAdapter_roundtrip (y m d h mi s us : Z)
      (date : dt.naive) :
  dt.datetime y m d h mi s us = Ok date ->
  BandSystemDateTimeAdapter._decode (BandSystemDateTimeAdapter._encode date)
  = Ok (whole_milliseconds date)
  /\ exists b,
       BandSystemTimeStruct._build (BandSystemDateTimeAdapter._encode date)
       = Ok b
       /\ length b = 16%nat
       /\ forall rest,
            BandSystemTimeStruct._parse (b ++ rest)
            = Ok (BandSystemDateTimeAdapter._encode date, rest).
Proof.
  intros H. apply dt_datetime_inv in H.
  destruct H as (-> & Hy & Hm & Hd & Hh & Hmi & Hs & Hus).
  pose proof (days_in_month_le_31 y m Hm) as Hdim.
  split.
  - unfold BandSystemDateTimeAdapter._decode, BandSystemDateTimeAdapter._encode,
      whole_milliseconds.
    cbn [BandSystemTime.Year BandSystemTime.Month BandSystemTime.Day
         BandSystemTime.Hour BandSystemTime.Minute BandSystemTime.Second
         BandSystemTime.Milliseconds dt.year dt.month dt.day dt.hour
         dt.minute dt.second dt.microsecond].
    apply dt_datetime_intro; try assumption.
    pose proof (Z.div_mod us 1000 ltac:(lia)).
    pose proof (Z.mod_pos_bound us 1000 ltac:(lia)). lia.
  - destruct (BandSystemTimeStruct_build_fits
                (BandSystemDateTimeAdapter._encode
                   (dt.mk y m d h mi s us))) as (b & Hb & Hl).
    { unfold BandSystemTime_fits, BandSystemDateTimeAdapter._encode, dt.weekday.
      cbn [BandSystemTime.Year BandSystemTime.Month BandSystemTime.DayOfWeek
           BandSystemTime.Day BandSystemTime.Hour BandSystemTime.Minute
           BandSystemTime.Second BandSystemTime.Milliseconds dt.year dt.month
           dt.day dt.hour dt.minute dt.second dt.microsecond].
      pose proof (Z.mod_pos_bound (dt._ymd2ord y m d + 6) 7 ltac:(lia)).
      assert (0 <= us / 1000 < 1000)
        by (split; [apply Z.div_pos; lia|apply Z.div_lt_upper_bound; lia]).
      repeat (apply Forall_cons; [lia|]). apply Forall_nil. }
    exists b. split; [exact Hb|]. split; [exact Hl|].
    intros rest. apply BandSystemTimeStruct_parse_build. exact Hb.
Qed.

Lemma BandSystemDateTimeAdapter_roundtrip_witness :
  BandSystemDateTimeAdapter._decode
    (BandSystemDateTimeAdapter._encode sample_naive)
  = Ok (dt.mk 2015 6 30 23 59 59 123000)
  /\ exists b,
       BandSystemTimeStruct._build (BandSystemDateTimeAdapter._encode sample_naive)
       = Ok b
       /\ length b = 16%nat
       /\ forall rest,
            BandSystemTimeStruct._parse (b ++ rest)
            = Ok (BandSystemDateTimeAdapter._encode sample_naive, rest).
Proof.
  exact (BandSystemDateTimeAdapter_roundtrip 2015 6 30 23 59 59 123456
           sample_naive eq_refl).
Defined.

(** *** [UserProfileStruct] *)

(** X9: a [UserProfile] is built only with reserved data of exactly 256
    bytes (there is no padding here: [Bytes(256)] refuses anything else),
    and what was built is parsed to the same record, provided its timestamp
    is one the timestamp codec gives back unchanged. *)
Theorem UserProfileStruct_roundtrip (u : UserProfile.t) (b : bytes) :
  UserProfileStruct._build u = Ok b ->
  length (UserProfile.ReservedData u) = 256%nat
  /\ (BandTime_exact (UserProfile.LastSync u) ->
      forall rest, UserProfileStruct._parse (b ++ rest) = Ok (u, rest)).
Proof.
  intros H. destruct u. unfold UserProfileStruct._build in H.
  cbn [UserProfile.Version UserProfile.LastSync UserProfile.UserGUID
       UserProfile.ReservedData] in *.
  do 4 bind_ok H. apply Ok_inj in H. subst b. split.
  - unfold Bytes._build, stream_write in E2.
    destruct (Nat.eqb_spec (length ReservedData) 256) as [Hl|Hl];
      [exact Hl|discriminate E2].
  - intros Hexact rest. unfold UserProfileStruct._parse.
    rewrite <- !app_assoc. do 3 roundtrip_step.
    erewrite Bytes_roundtrip by eassumption. reflexivity.
Qed.

Lemma UserProfileStruct_roundtrip_witness :
  length (UserProfile.ReservedData sample_userprofile) = 256%nat
  /\ forall rest,
       UserProfileStruct._parse
         (built (UserProfileStruct._build sample_userprofile) ++ rest)
       = Ok (sample_userprofile, rest).
Proof.
  destruct (UserProfileStruct_roundtrip sample_userprofile
              (built (UserProfileStruct._build sample_userprofile)))
    as [Hl Hp].
  - vm_compute. reflexivity.
  - split; [exact Hl|]. apply Hp. exact sample_lastsync_exact.
Defined.

(** *** [Version] *)

Lemma Version_parse_build (v : Version.t) (b rest : bytes) :
  Version._build v = Ok b -> Version._parse (b ++ rest) = Ok (v, rest).
Proof.
  intros H. destruct v. unfold Version._build in H.
  cbn [Version.Major Version.Minor Version.Revision Version.Build
       Version.Debug] in H.
  do 5 bind_ok H. apply Ok_inj in H. subst b.
  unfold Version._parse. rewrite <- !app_assoc.
  do 5 roundtrip_step. reflexivity.
Qed.

Lemma Version_build_fits (v : Version.t) :
  Version_fits v ->
  Version._build v
  = Ok (to_bytes_le 2 (Version.Major v) ++ to_bytes_le 2 (Version.Minor v)
        ++ to_bytes_le 4 (Version.Revision v)
        ++ to_bytes_le 4 (Version.Build v)
        ++ (if Version.Debug v then [x01] else [x00])).
Proof.
  intros (H1 & H2 & H3 & H4). unfold Version._build.
  rewrite !FormatField_build_ok by assumption.
  unfold Flag._build. rewrite !bind_Ok. reflexivity.
Qed.

Lemma Version_build_unfit (v : Version.t) :
  ~ Version_fits v -> Version._build v = Raise FormatFieldError.
Proof.
  intros H. unfold Version._build, Int16ul, Int32ul, FormatField._build.
  change (256 ^ Z.of_nat 2) with (2 ^ 16). change (256 ^ Z.of_nat 4) with (2 ^ 32).
  repeat match goal with
         | |- context [(0 <=? ?v) && (?v <? ?n)] =>
             destruct ((0 <=? v) && (v <? n)) eqn:?; [|reflexivity]
         end.
  exfalso. apply H. unfold Version_fits.
  repeat match goal with
         | E : _ && _ = true |- _ =>
             apply andb_prop in E; destruct E as [?E1 ?E2];
             apply Z.leb_le in E1; apply Z.ltb_lt in E2
         end.
  lia.
Qed.

Lemma list_of_length_13 {A} (l : list A) :
  length l = 13%nat ->
  exists a0 a1 a2 a3 a4 a5 a6 a7 a8 a9 a10 a11 a12,
    l = [a0; a1; a2; a3; a4; a5; a6; a7; a8; a9; a10; a11; a12].
Proof.
  intros H.
  do 13 (destruct l as [|? l]; [discriminate H|]).
  destruct l; [|discriminate H].
  repeat eexists.
Qed.

Lemma Version_parse_13 (b : bytes) :
  (13 <= length b)%nat ->
  exists v,
    Version._parse b = Ok (v, skipn 13 b)
    /\ Version_fits v
    /\ Version.Debug v = negb (Byte.eqb (nth 12 b x00) x00)
    /\ Version._build v
       = Ok (firstn 12 b ++ (if Version.Debug v then [x01] else [x00])).
Proof.
  intros H. destruct (split_at 13 b H) as (a & rest & -> & Ha).
  destruct (list_of_length_13 a Ha)
    as (a0&a1&a2&a3&a4&a5&a6&a7&a8&a9&a10&a11&a12&->).
  cbn [app firstn skipn nth].
  exists (Version.mk (from_bytes_le [a0; a1]) (from_bytes_le [a2; a3])
            (from_bytes_le [a4; a5; a6; a7]) (from_bytes_le [a8; a9; a10; a11])
            (negb (Byte.eqb a12 x00))).
  split; [|split; [|split]].
  - unfold Version._parse, Int16ul, Int32ul.
    change (a0 :: a1 :: a2 :: a3 :: a4 :: a5 :: a6 :: a7 :: a8 :: a9 :: a10
               :: a11 :: a12 :: rest)
      with ([a0; a1] ++ [a2; a3] ++ [a4; a5; a6; a7] ++ [a8; a9; a10; a11]
            ++ a12 :: rest).
    rewrite (FormatField_parse_app [_; _]), bind_Ok; cbv beta iota.
    rewrite (FormatField_parse_app [_; _]), bind_Ok; cbv beta iota.
    rewrite (FormatField_parse_app [_; _; _; _]), bind_Ok; cbv beta iota.
    rewrite (FormatField_parse_app [_; _; _; _]), bind_Ok; cbv beta iota.
    unfold Flag._parse, stream_read. cbn [length Nat.leb firstn skipn].
    rewrite bind_Ok. cbv beta iota. do 3 f_equal.
    destruct a12; reflexivity.
  - unfold Version_fits.
    cbn [Version.Major Version.Minor Version.Revision Version.Build].
    pose proof (from_bytes_le_range [a0; a1]).
    pose proof (from_bytes_le_range [a2; a3]).
    pose proof (from_bytes_le_range [a4; a5; a6; a7]).
    pose proof (from_bytes_le_range [a8; a9; a10; a11]).
    cbn [length] in *.
    change (256 ^ Z.of_nat 2) with (2 ^ 16) in *.
    change (256 ^ Z.of_nat 4) with (2 ^ 32) in *.
    repeat split; lia.
  - reflexivity.
  - unfold Version._build.
    cbn [Version.Major Version.Minor Version.Revision Version.Build
         Version.Debug].
    rewrite !(FormatField_build_from_bytes Int16ul [_; _] eq_refl).
    rewrite !(FormatField_build_from_bytes Int32ul [_; _; _; _] eq_refl).
    reflexivity.
Qed.

Lemma Version_parse_short (b : bytes) :
  (length b < 13)%nat -> Version._parse b = Raise StreamError.
Proof.
  intros H.
  do 13 (destruct b as [|? b]; [reflexivity|]).
  cbn [length] in H. lia.
Qed.

(** X10: the wire format of [Version].  A version is built exactly when its
    four integers fit their fields ([FormatFieldError] otherwise), to 13
    bytes that are parsed to the version again.  Any 13 bytes are parsed
    and fewer are a [StreamError]; the last byte is read as true unless it
    is zero, so building what was parsed gives the first twelve bytes as
    they were and the thirteenth as 0 or 1. *)
Theorem Version_wire_format :
  (forall v,
      Version_fits v ->
      exists b,
        Version._build v = Ok b /\ length b = 13%nat
        /\ forall rest, Version._parse (b ++ rest) = Ok (v, rest))
  /\ (forall v, ~ Version_fits v -> Version._build v = Raise FormatFieldError)
  /\ (forall b,
        (13 <= length b)%nat ->
        exists v,
          Version._parse b = Ok (v, skipn 13 b)
          /\ Version.Debug v = negb (Byte.eqb (nth 12 b x00) x00)
          /\ Version._build v
             = Ok (firstn 12 b ++ (if Version.Debug v then [x01] else [x00])))
  /\ (forall b, (length b < 13)%nat -> Version._parse b = Raise StreamError).
Proof.
  split; [|split; [exact Version_build_unfit|split]].
  - intros v Hv. pose proof (Version_build_fits v Hv) as Hb.
    eexists. split; [exact Hb|]. split.
    + rewrite !length_app, !length_to_bytes_le.
      destruct (Version.Debug v); reflexivity.
    + intros rest. apply Version_parse_build. exact Hb.
  - intros b Hb. destruct (Version_parse_13 b Hb) as (v & H1 & _ & H2 & H3).
    exists v. repeat split; assumption.
  - exact Version_parse_short.
Qed.

Lemma Version_wire_format_witness :
  (exists b,
      Version._build sample_version = Ok b /\ length b = 13%nat
      /\ forall rest, Version._parse (b ++ rest) = Ok (sample_version, rest))
  /\ Version._build (Version.mk 65536 0 0 0 false) = Raise FormatFieldError
  /\ (exists v,
        Version._parse (repeat x02 13) = Ok (v, [])
        /\ Version.Debug v = true
        /\ Version._build v = Ok (repeat x02 12 ++ [x01]))
  /\ Version._parse (repeat x02 12) = Raise StreamError.
Proof.
  destruct Version_wire_format as (H1 & H2 & H3 & H4).
  split; [|split; [|split]].
  - apply H1. unfold Version_fits, sample_version. cbn. lia.
  - apply H2. unfold Version_fits. cbn. lia.
  - destruct (H3 (repeat x02 13)) as (v & Hp & Hd & Hb);
      [cbn [repeat length]; lia|].
    exists v. split; [exact Hp|].
    assert (Version.Debug v = true) as Hd' by (rewrite Hd; reflexivity).
    split; [exact Hd'|]. rewrite Hb, Hd'. reflexivity.
  - apply H4. cbn [repeat length]. lia.
Defined.

(** ** Strings in fields of a fixed size *)

(** Two bytes at a time. *)
Lemma pairs_ind {A} (P : list A -> Prop) :
  P [] -> (forall x, P [x]) -> (forall a b r, P r -> P (a :: b :: r)) ->
  forall l, P l.
Proof.
  intros H0 H1 H2.
  fix IH 1. intros [|a [|b r]].
  - exact H0.
  - apply H1.
  - apply H2, IH.
Qed.

(** *** What is stripped *)

Lemma strip_units_length (r : bytes) :
  exists k, length r = (2 * k + length (strip_units r))%nat.
Proof.
  induction r as [| x | a b r IH] using pairs_ind.
  - exists 0%nat. reflexivity.
  - exists 0%nat. reflexivity.
  - cbn [strip_units]. destruct (Byte.eqb a x00 && Byte.eqb b x00).
    + destruct IH as [k IH]. exists (S k). cbn [length]. lia.
    + exists 0%nat. reflexivity.
Qed.

(** What is left does not start with a zero unit. *)
Lemma strip_units_head (r : bytes) (a b : byte) (q : bytes) :
  strip_units r = a :: b :: q -> Byte.eqb a x00 && Byte.eqb b x00 = false.
Proof.
  induction r as [| x | a' b' r IH] using pairs_ind.
  - discriminate.
  - discriminate.
  - cbn [strip_units].
    destruct (Byte.eqb a' x00 && Byte.eqb b' x00) eqn:E; [exact IH|].
    intros H. injection H as <- <- _. exact E.
Qed.

Lemma NullStripped_length (data : bytes) :
  (length (NullStripped data) <= length data)%nat.
Proof.
  unfold NullStripped.
  set (r1 := if Nat.odd (length data)
             then match rev data with
                  | [] => rev data
                  | a :: r' => if Byte.eqb a x00 then r' else rev data
                  end
             else rev data).
  assert (length r1 <= length data)%nat as H1.
  { subst r1. rewrite <- (length_rev data).
    destruct (Nat.odd (length (rev data))); [|lia].
    destruct (rev data) as [|a r']; [lia|].
    destruct (Byte.eqb a x00); cbn [length]; lia. }
  rewrite length_rev. destruct (strip_units_length r1) as [k Hk]. lia.
Qed.

(** What is left is empty, or of odd length, or ends with a unit that is
    not zero. *)
Lemma NullStripped_end (data : bytes) :
  NullStripped data = []
  \/ (exists x, NullStripped data = [x])
  \/ exists front lo hi,
       NullStripped data = front ++ [lo; hi]
       /\ Byte.eqb hi x00 && Byte.eqb lo x00 = false.
Proof.
  unfold NullStripped.
  set (r1 := if Nat.odd (length data)
             then match rev data with
                  | [] => rev data
                  | a :: r' => if Byte.eqb a x00 then r' else rev data
                  end
             else rev data).
  destruct (strip_units r1) as [|a [|b q]] eqn:E.
  - left. reflexivity.
  - right. left. exists a. reflexivity.
  - right. right. exists (rev q), b, a. split.
    + cbn [rev]. rewrite <- app_assoc. reflexivity.
    + apply (strip_units_head _ _ _ _ E).
Qed.

(** *** Code units *)

Lemma units_of_bytes_length (b : bytes) (us : list Z) :
  units_of_bytes b = Ok us -> length b = (2 * length us)%nat.
Proof.
  revert us. induction b as [| x | lo hi r IH] using pairs_ind; intros us H.
  - apply Ok_inj in H. subst us. reflexivity.
  - discriminate H.
  - cbn [units_of_bytes] in H. bind_ok H. apply Ok_inj in H. subst us.
    cbn [length]. rewrite (IH _ eq_refl). lia.
Qed.

Lemma units_of_bytes_snoc (front : bytes) (lo hi : byte) (us : list Z) :
  units_of_bytes (front ++ [lo; hi]) = Ok us ->
  exists us', us = us' ++ [from_bytes_le [lo; hi]].
Proof.
  revert us.
  induction front as [| x | a b r IH] using pairs_ind; intros us H.
  - apply Ok_inj in H. subst us. exists []. reflexivity.
  - discriminate H.
  - cbn [app units_of_bytes] in H. bind_ok H. apply Ok_inj in H. subst us.
    destruct (IH _ eq_refl) as [us' ->]. eexists (_ :: us'). reflexivity.
Qed.

Lemma from_bytes_le_2_zero (lo hi : byte) :
  from_bytes_le [lo; hi] = 0 -> Byte.eqb hi x00 && Byte.eqb lo x00 = true.
Proof.
  intros H. cbn [from_bytes_le] in H.
  pose proof (Z_of_byte_range lo). pose proof (Z_of_byte_range hi).
  assert (Z_of_byte lo = 0) as Hlo by lia.
  assert (Z_of_byte hi = 0) as Hhi by lia.
  apply (f_equal byte_of_Z) in Hlo, Hhi. rewrite byte_of_Z_of_byte in Hlo, Hhi.
  subst lo hi. reflexivity.
Qed.

Lemma ends_with_zero_snoc (us : list Z) (u : Z) :
  ends_with_zero (us ++ [u]) = (u =? 0).
Proof.
  unfold ends_with_zero. rewrite rev_app_distr. cbn [rev app].
  destruct u; reflexivity.
Qed.

(** *** Code points *)

Lemma decode_units_nonempty (us : list Z) (v : str) :
  decode_units us = Ok v -> us <> [] -> v <> [].
Proof.
  destruct us as [|u r]; [congruence|]. intros H _. cbn [decode_units] in H.
  destruct (is_high_surrogate u).
  - destruct r as [|w r']; [discriminate|].
    destruct (is_low_surrogate w); [|discriminate].
    bind_ok H. apply Ok_inj in H. subst v. discriminate.
  - destruct (is_low_surrogate u); [discriminate|].
    bind_ok H. apply Ok_inj in H. subst v. discriminate.
Qed.

Lemma ends_with_NUL_single (c : Z) : ends_with_NUL [c] = (c =? 0).
Proof. destruct c; reflexivity. Qed.

Lemma decode_units_facts (n : nat) :
  forall (us : list Z) (v : str),
    (length us <= n)%nat -> decode_units us = Ok v ->
    (length v <= length us)%nat
    /\ (ends_with_zero us = false -> ends_with_NUL v = false).
Proof.
  induction n as [|n IH]; intros us v Hn H.
  - destruct us; [|cbn [length] in Hn; lia].
    apply Ok_inj in H. subst v. split; [cbn; lia|reflexivity].
  - destruct us as [|u r].
    { apply Ok_inj in H. subst v. split; [cbn; lia|reflexivity]. }
    cbn [length] in Hn. cbn [decode_units] in H.
    destruct (is_high_surrogate u) eqn:Eh.
    + destruct r as [|w r']; [discriminate|].
      destruct (is_low_surrogate w) eqn:El; [|discriminate].
      bind_ok H. apply Ok_inj in H. subst v. cbn [length] in Hn.
      destruct (IH r' a ltac:(lia) E) as [L Z0].
      split; [cbn [length]; lia|].
      unfold is_high_surrogate, is_low_surrogate in Eh, El.
      apply andb_prop in Eh, El. destruct Eh as [Eh1 Eh2], El as [El1 El2].
      apply Z.leb_le in Eh1, Eh2, El1, El2.
      destruct r' as [|x r''].
      * apply Ok_inj in E. subst a. intros _.
        rewrite ends_with_NUL_single. apply Z.eqb_neq. lia.
      * intros Hz. rewrite ends_with_NUL_cons
          by (apply (decode_units_nonempty _ _ E); discriminate).
        apply Z0.
        change (u :: w :: x :: r'') with ([u; w] ++ x :: r'') in Hz.
        rewrite ends_with_zero_app in Hz by discriminate. exact Hz.
    + destruct (is_low_surrogate u); [discriminate|].
      bind_ok H. apply Ok_inj in H. subst v.
      destruct (IH r a ltac:(lia) E) as [L Z0].
      split; [cbn [length]; lia|].
      destruct r as [|x r'].
      * apply Ok_inj in E. subst a. intros Hz.
        rewrite ends_with_NUL_single.
        change [u] with ([] ++ [u]) in Hz. rewrite ends_with_zero_snoc in Hz.
        exact Hz.
      * intros Hz. rewrite ends_with_NUL_cons
          by (apply (decode_units_nonempty _ _ E); discriminate).
        apply Z0.
        change (u :: x :: r') with ([u] ++ x :: r') in Hz.
        rewrite ends_with_zero_app in Hz by discriminate. exact Hz.
Qed.

Lemma utf_16_le_decode_stripped (data : bytes) (v : str) :
  utf_16_le_decode (NullStripped data) = Ok v ->
  (2 * length v <= length data)%nat /\ ends_with_NUL v = false.
Proof.
  unfold utf_16_le_decode. intros H. bind_ok H. rename a into us.
  pose proof (units_of_bytes_length _ _ E) as Hl.
  pose proof (NullStripped_length data) as Hs.
  destruct (decode_units_facts (length us) us v (Nat.le_refl _) H) as [L Z0].
  split; [lia|]. apply Z0.
  destruct (NullStripped_end data) as [E0|[[x E0]|(front & lo & hi & E0 & Hnz)]];
    rewrite E0 in E.
  - apply Ok_inj in E. subst us. reflexivity.
  - discriminate E.
  - destruct (units_of_bytes_snoc _ _ _ _ E) as [us' ->].
    rewrite ends_with_zero_snoc. apply Z.eqb_neq. intros Hz.
    apply from_bytes_le_2_zero in Hz. congruence.
Qed.

(** X11: what a fixed-size string field is parsed to.  The string never
    ends with NUL, whatever the bytes are, and it has at most as many code
    points as the field has code units: so a string that ends with NUL is
    not parsed back from what it was built to. *)
Theorem PaddedString_parse_no_trailing_NUL (len : Z) :
  (forall s s' v,
      PaddedString._parse len s = Ok (v, s') ->
      ends_with_NUL v = false /\ 2 * Z.of_nat (length v) <= len)
  /\ (forall v b rest,
        ends_with_NUL v = true ->
        PaddedString._build len v = Ok b ->
        PaddedString._parse len (b ++ rest) <> Ok (v, rest)).
Proof.
  assert (forall s s' v,
             PaddedString._parse len s = Ok (v, s') ->
             ends_with_NUL v = false /\ 2 * Z.of_nat (length v) <= len) as H1.
  { intros s s' v H. unfold PaddedString._parse in H.
    destruct (Z.ltb_spec len 0) as [Hl|Hl]; [discriminate|].
    parse_ok_step H. bind_ok H. apply Ok_inj in H. injection H as <- <-.
    apply stream_read_ok in E. destruct E as (_ & _ & _ & Hb).
    apply utf_16_le_decode_stripped in E0. destruct E0 as [L Z0].
    split; [exact Z0|lia]. }
  split; [exact H1|].
  intros v b rest Hv _ Hp. apply H1 in Hp. destruct Hp as [Hp _]. congruence.
Qed.

Lemma PaddedString_parse_no_trailing_NUL_witness :
  PaddedString._parse 6 [x41; x00; x00; x00; x00; x00; xff] = Ok ([65], [xff])
  /\ PaddedString._build 6 [65; 0] = Ok [x41; x00; x00; x00; x00; x00]
  /\ PaddedString._parse 6 ([x41; x00; x00; x00; x00; x00] ++ [xff])
     <> Ok ([65; 0], [xff]).
Proof.
  split; [reflexivity|]. split; [reflexivity|].
  destruct (PaddedString_parse_no_trailing_NUL 6) as [_ H].
  apply (H [65; 0] _ [xff]); reflexivity.
Defined.

(** *** What is built *)

Lemma utf16_units_encodable (c : Z) :
  (encodable c ->
   exists us, utf16_units c = Ok us
              /\ Z.of_nat (length us) = (if c <? 0x10000 then 1 else 2))
  /\ (~ encodable c -> utf16_units c = Raise UnicodeEncodeError).
Proof.
  unfold encodable, utf16_units. split.
  - intros [Hr Hs].
    destruct (Z.ltb_spec c 0) as [H0|H0]; [lia|].
    destruct (Z.ltb_spec 0x10FFFF c) as [H1|H1]; [lia|]. cbn [orb].
    destruct (Z.ltb_spec c 0x10000) as [H2|H2].
    + destruct (Z.leb_spec 0xD800 c) as [H3|H3];
        [destruct (Z.leb_spec c 0xDFFF) as [H4|H4]; [lia|]|];
        cbn [andb]; eexists; split; reflexivity.
    + eexists; split; reflexivity.
  - intros Hn.
    destruct (Z.ltb_spec c 0) as [H0|H0]; [reflexivity|].
    destruct (Z.ltb_spec 0x10FFFF c) as [H1|H1]; [reflexivity|]. cbn [orb].
    destruct (Z.ltb_spec c 0x10000) as [H2|H2]; [|exfalso; apply Hn; lia].
    destruct (Z.leb_spec 0xD800 c) as [H3|H3]; [|exfalso; apply Hn; lia].
    destruct (Z.leb_spec c 0xDFFF) as [H4|H4]; [reflexivity|].
    exfalso; apply Hn; lia.
Qed.

Lemma length_flat_map_to_bytes_le_2 (us : list Z) :
  Z.of_nat (length (flat_map (to_bytes_le 2) us)) = 2 * Z.of_nat (length us).
Proof. rewrite length_flat_map_units. lia. Qed.

Lemma utf_16_le_encode_ok (s : str) :
  Forall encodable s ->
  exists data,
    utf_16_le_encode s = Ok data
    /\ Z.of_nat (length data) = 2 * utf16_length s.
Proof.
  induction 1 as [|c s Hc Hs IH].
  - exists []. split; reflexivity.
  - destruct IH as (more & E & L).
    destruct (proj1 (utf16_units_encodable c) Hc) as (us & Eu & Lu).
    cbn [utf_16_le_encode]. rewrite Eu, bind_Ok, E, bind_Ok.
    eexists. split; [reflexivity|].
    rewrite length_app, Nat2Z.inj_add, length_flat_map_to_bytes_le_2, L, Lu.
    unfold utf16_length. cbn [fold_right]. lia.
Qed.

Lemma encodable_dec (c : Z) : encodable c \/ ~ encodable c.
Proof. unfold encodable. lia. Qed.

Lemma utf_16_le_encode_error (s : str) :
  ~ Forall encodable s -> utf_16_le_encode s = Raise UnicodeEncodeError.
Proof.
  induction s as [|c s IH]; intros H.
  - destruct H. apply Forall_nil.
  - cbn [utf_16_le_encode]. destruct (encodable_dec c) as [Hc|Hc].
    + destruct (proj1 (utf16_units_encodable c) Hc) as (us & Eu & _).
      rewrite Eu, bind_Ok. rewrite IH; [reflexivity|].
      intros Hs. apply H. apply Forall_cons; assumption.
    + rewrite (proj2 (utf16_units_encodable c) Hc). reflexivity.
Qed.

Lemma PaddedString_build_encode (len : Z) (v : str) :
  PaddedString._build len v
  = (data <- utf_16_le_encode v ;;
     if len <? 0 then Raise PaddingError else
     if len - Z.of_nat (length data) <? 0 then Raise PaddingError
     else Ok (data ++ zeros (Z.to_nat (len - Z.of_nat (length data))))).
Proof. destruct v; reflexivity. Qed.



(** ** [Profile]: what a record must be to be built, and what it is when
       parsed *)

Lemma utf_16_le_encode_inv (s : str) (data : bytes) :
  utf_16_le_encode s = Ok data ->
  Forall encodable s /\ Z.of_nat (length data) = 2 * utf16_length s.
Proof.
  intros H. destruct (Forall_Exists_dec encodable) with (l := s) as [Hs|Hs].
  - intros c. unfold encodable.
    destruct (Z_le_dec 0 c); [|right; lia].
    destruct (Z_le_dec c 0x10FFFF); [|right; lia].
    destruct (Z_le_dec 0xD800 c); [|left; lia].
    destruct (Z_le_dec c 0xDFFF); [right; lia|left; lia].
  - split; [exact Hs|]. destruct (utf_16_le_encode_ok s Hs) as (d & E & L).
    rewrite E in H. apply Ok_inj in H. subst d. exact L.
  - rewrite utf_16_le_encode_error in H; [discriminate H|].
    intros Hall. apply Exists_Forall_neg in Hs; [contradiction|].
    intros c. apply encodable_dec.
Qed.

Lemma PaddedString_build_inv (len : Z) (v : str) (b : bytes) :
  PaddedString._build len v = Ok b ->
  Forall encodable v /\ 0 <= len /\ 2 * utf16_length v <= len.
Proof.
  rewrite PaddedString_build_encode. intros H. bind_ok H.
  apply utf_16_le_encode_inv in E. destruct E as [Hv L].
  destruct (Z.ltb_spec len 0); [discriminate|].
  destruct (Z.ltb_spec (len - Z.of_nat (length a)) 0); [discriminate|].
  split; [exact Hv|lia].
Qed.

(** Turn what is known of every field written into a length. *)
Ltac build_lengths :=
  repeat match goal with
         | E : If._build _ BandTime._build _ _ = Ok _ |- _ =>
             apply (If_produces _ _ _ _ BandTime_produces) in E
         | E : If._build _ (FormatField._build ?n) _ _ = Ok _ |- _ =>
             apply (If_produces _ _ _ _ (FormatField_produces n)) in E
         | E : Adapted._build _ _ _ = Ok _ |- _ => apply Adapted_produces in E
         | E : PaddedString._build _ _ = Ok _ |- _ =>
             apply PaddedString_produces in E
         | E : Flag._build _ = Ok _ |- _ => apply Flag_produces in E
         end;
  field_lengths.

Lemma If_build_present {A} (f : A -> result bytes) (e : exn) (v : option A)
      (b : bytes) :
  If._build true f e v = Ok b -> v <> None.
Proof. destruct v; [discriminate|]. discriminate. Qed.

Lemma Profile_struct_build_inv (E : Enums) (r : Profile.t) (data : bytes) :
  ProfileStruct.struct_build E r = Ok data ->
  length data = ((if (2 <=? Profile.Version r)%Z then 142 else 105)
                 + length (Profile.ReservedData r))%nat
  /\ (0 <= Profile.Version r < 2 ^ 16
      /\ 0 <= Profile.Weight_g r < 2 ^ 32
      /\ 0 <= Profile.Height_mm r < 2 ^ 16)
  /\ Forall (fun '(s, n) => Forall encodable s /\ utf16_length s <= n)
            (Profile_strings r)
  /\ (2 <= Profile.Version r -> gated_fields true r).
Proof.
  unfold ProfileStruct.struct_build. cbv zeta. intros H.
  do 34 bind_ok H. apply Ok_inj in H. subst data.
  unfold GreedyBytes._build in *.
  match goal with
  | G : Ok (Profile.ReservedData r) = Ok _ |- _ => apply Ok_inj in G; subst
  end.
  split; [|split; [|split]].
  - build_lengths. rewrite !length_app.
    unfold Int16ul, Int32ul, Int8ul in *.
    destruct (2 <=? Profile.Version r); cbn [Z.to_nat] in *; lia.
  - repeat match goal with
           | G : FormatField._build _ _ = Ok _ |- _ =>
               apply FormatField_build_range in G; destruct G as [G _]
           end.
    unfold Int16ul, Int32ul in *.
    change (256 ^ Z.of_nat 2) with (2 ^ 16) in *.
    change (256 ^ Z.of_nat 4) with (2 ^ 32) in *.
    repeat split; lia.
  - unfold Profile_strings.
    repeat match goal with
           | G : PaddedString._build _ _ = Ok _ |- _ =>
               apply PaddedString_build_inv in G;
               destruct G as (? & _ & ?)
           end.
    repeat (apply Forall_cons; [split; [assumption|lia]|]). apply Forall_nil.
  - intros Hv.
    replace (2 <=? Profile.Version r) with true in *
      by (symmetry; apply Z.leb_le; exact Hv).
    unfold gated_fields, presence.
    repeat match goal with
           | G : If._build true _ _ _ = Ok _ |- _ =>
               apply If_build_present in G
           end.
    repeat split; assumption.
Qed.

(** X13: what a [Profile] must be to be built.  [Version], [Weight_g] and
    [Height_mm] fit their fields; every string can be encoded and fits its
    field, counted in UTF-16 code units (16 for [DeviceName], 6 for
    [LocaleName], 1 for each separator); [ReservedData] is no longer than
    the room left in the 397 bytes, 255 bytes from version 2 on and 292
    before; and from version 2 on all nine gated fields are given. *)
Theorem ProfileStruct_build_requires (E : Enums) (r : Profile.t) (b : bytes) :
  ProfileStruct._build E r = Ok b ->
  (0 <= Profile.Version r < 2 ^ 16
   /\ 0 <= Profile.Weight_g r < 2 ^ 32
   /\ 0 <= Profile.Height_mm r < 2 ^ 16)
  /\ Forall (fun '(s, n) => Forall encodable s /\ utf16_length s <= n)
            (Profile_strings r)
  /\ (length (Profile.ReservedData r) <= reserved_room r)%nat
  /\ (2 <= Profile.Version r -> gated_fields true r).
Proof.
  intros H. unfold ProfileStruct._build, Padded._build in H.
  change (PROFILE_SIZE <? 0) with false in H. cbv iota in H. bind_ok H.
  destruct (Z.ltb_spec (PROFILE_SIZE - Z.of_nat (length a)) 0) as [Hp|Hp];
    [discriminate|].
  apply Profile_struct_build_inv in E0.
  destruct E0 as (Hl & Hi & Hs & Hg).
  split; [exact Hi|]. split; [exact Hs|]. split; [|exact Hg].
  unfold reserved_room, PROFILE_SIZE in *.
  destruct (2 <=? Profile.Version r); lia.
Qed.

Lemma ProfileStruct_build_requires_witness :
  (0 <= Profile.Version sample_profile < 2 ^ 16
   /\ 0 <= Profile.Weight_g sample_profile < 2 ^ 32
   /\ 0 <= Profile.Height_mm sample_profile < 2 ^ 16)
  /\ Forall (fun '(s, n) => Forall encodable s /\ utf16_length s <= n)
            (Profile_strings sample_profile)
  /\ (length (Profile.ReservedData sample_profile)
      <= reserved_room sample_profile)%nat
  /\ (2 <= Profile.Version sample_profile -> gated_fields true sample_profile).
Proof.
  apply (ProfileStruct_build_requires sample_enums sample_profile
           sample_profile_bytes).
  vm_compute. reflexivity.
Defined.

(** X14: before version 2 the nine gated fields are not written, whatever
    they hold: a record is built to the same bytes, or fails with the same
    exception, as the record without them. *)
Theorem ProfileStruct_build_ignores_gated (E : Enums) (r : Profile.t) :
  Profile.Version r < 2 ->
  ProfileStruct._build E r = ProfileStruct._build E (without_gated r).
Proof.
  intros Hv. unfold ProfileStruct._build, Padded._build.
  f_equal. unfold ProfileStruct.struct_build. cbv zeta.
  destruct r. unfold without_gated.
  cbn [Profile.Version Profile.LastSync Profile.UserGUID Profile.Birthday
       Profile.Weight_g Profile.Height_mm Profile.Gender Profile.DeviceName
       Profile.LocaleName Profile.LocaleId Profile.Language
       Profile.DateSeparator Profile.NumberSeparator Profile.DecimalSeparator
       Profile.TimeFormat Profile.DateFormat Profile.DistanceShortUnits
       Profile.DistanceLongUnits Profile.MassUnits Profile.VolumeUnits
       Profile.EnergyUnits Profile.TemperatureUnits Profile.RunDisplayUnits
       Profile.Telemetry Profile.HwagChangeTime Profile.HwagChangeAgent
       Profile.DeviceNameChangeTime Profile.DeviceNameChangeAgent
       Profile.LocaleSettingsChangeTime Profile.LocaleSettingsChangeAgent
       Profile.LanguageChangeTime Profile.LanguageChangeAgent Profile.MaxHR
       Profile.ReservedData] in *.
  replace (2 <=? Version) with false by (symmetry; apply Z.leb_gt; exact Hv).
  reflexivity.
Qed.

Lemma ProfileStruct_build_ignores_gated_witness :
  ProfileStruct._build sample_enums version1_with_gated
  = ProfileStruct._build sample_enums version1_profile.
Proof.
  apply (ProfileStruct_build_ignores_gated sample_enums version1_with_gated).
  cbn [Profile.Version version1_with_gated]. lia.
Defined.

Lemma PaddedString_parse_facts (len : Z) (s s' : bytes) (v : str) :
  PaddedString._parse len s = Ok (v, s') ->
  ends_with_NUL v = false /\ 2 * Z.of_nat (length v) <= len.
Proof.
  intros H. unfold PaddedString._parse in H.
  destruct (Z.ltb_spec len 0) as [Hl|Hl]; [discriminate|].
  parse_ok_step H. bind_ok H. apply Ok_inj in H. injection H as <- <-.
  apply stream_read_ok in E. destruct E as (_ & _ & _ & Hb).
  apply utf_16_le_decode_stripped in E0. destruct E0 as [L Z0].
  split; [exact Z0|lia].
Qed.

Lemma FormatField_parse_range (n : nat) (s s' : bytes) (v : Z) :
  FormatField._parse n s = Ok (v, s') -> 0 <= v < 256 ^ Z.of_nat n.
Proof.
  unfold FormatField._parse. intros H. parse_ok_step H.
  apply Ok_inj in H. injection H as <- <-.
  apply stream_read_ok in E. destruct E as (_ & _ & _ & <-).
  apply from_bytes_le_range.
Qed.

Lemma Profile_struct_parse_strings (E : Enums) (s s' : bytes) (r : Profile.t) :
  ProfileStruct.struct_parse E s = Ok (r, s') ->
  0 <= Profile.Version r < 2 ^ 16
  /\ Forall (fun '(v, n) =>
               ends_with_NUL v = false /\ Z.of_nat (length v) <= n)
            (Profile_strings r).
Proof.
  unfold ProfileStruct.struct_parse. intros H.
  do 34 parse_ok_step H. apply Ok_inj in H. injection H as <- <-.
  unfold Profile_strings.
  cbn [Profile.Version Profile.DeviceName Profile.LocaleName
       Profile.DateSeparator Profile.NumberSeparator
       Profile.DecimalSeparator].
  split.
  - match goal with
    | G : FormatField._parse Int16ul s = Ok _ |- _ =>
        apply FormatField_parse_range in G; exact G
    end.
  - repeat match goal with
           | G : PaddedString._parse _ _ = Ok _ |- _ =>
               apply PaddedString_parse_facts in G; destruct G as [? ?]
           end.
    repeat (apply Forall_cons; [split; [assumption|lia]|]). apply Forall_nil.
Qed.

(** X15: what every parsed [Profile] is like, whatever its version.  The
    nine gated fields are all there from version 2 on and all missing
    before; [ReservedData] holds every byte left of the 397, padding
    included: 255 bytes from version 2 on and 292 before; and no string
    ends with NUL or is longer than its field. *)
Theorem ProfileStruct_parse_invariants (E : Enums) (b : bytes)
      (r : Profile.t) :
  parse (ProfileStruct._parse E) b = Ok r ->
  0 <= Profile.Version r < 2 ^ 16
  /\ gated_fields (2 <=? Profile.Version r) r
  /\ length (Profile.ReservedData r) = reserved_room r
  /\ Forall (fun '(v, n) =>
               ends_with_NUL v = false /\ Z.of_nat (length v) <= n)
            (Profile_strings r).
Proof.
  intros H. destruct (ProfileStruct_parse_inv E b r H) as (_ & Hr & Hg).
  apply parse_ok in H. destruct H as [s2 H].
  apply Padded_parse_inv in H. destruct H as (s1 & Hs & _).
  apply Profile_struct_parse_strings in Hs. destruct Hs as [Hv Hstr].
  split; [exact Hv|]. split; [exact Hg|]. split; [exact Hr|exact Hstr].
Qed.

Lemma ProfileStruct_parse_invariants_witness :
  0 <= Profile.Version version1_profile < 2 ^ 16
  /\ gated_fields (2 <=? Profile.Version version1_profile) version1_profile
  /\ length (Profile.ReservedData version1_profile)
     = reserved_room version1_profile
  /\ Forall (fun '(v, n) =>
               ends_with_NUL v = false /\ Z.of_nat (length v) <= n)
            (Profile_strings version1_profile).
Proof.
  apply (ProfileStruct_parse_invariants sample_enums (x01 :: zeros 396)).
  vm_compute. reflexivity.
Defined.

(** ** [TileData]: where the fields of a tile are read from *)

Lemma FormatField_parse_inv (n : nat) (s s' : bytes) (v : Z) :
  FormatField._parse n s = Ok (v, s') ->
  v = from_bytes_le (firstn n s) /\ s' = skipn n s.
Proof.
  unfold FormatField._parse. intros H. parse_ok_step H.
  apply Ok_inj in H. injection H as <- <-.
  apply stream_read_ok in E. destruct E as (-> & -> & _). split; reflexivity.
Qed.

Lemma GUIDAdapter_parse_inv (s s' : bytes) (u : UUID) :
  GUIDAdapter._parse s = Ok (u, s') ->
  GUIDAdapter._decode (firstn 16 s) = Ok u /\ s' = skipn 16 s.
Proof.
  unfold GUIDAdapter._parse, Bytes._parse. intros H. parse_ok_step H.
  bind_ok H. apply Ok_inj in H. injection H as <- <-.
  apply stream_read_ok in E. destruct E as (-> & -> & _).
  split; [assumption|reflexivity].
Qed.

Lemma ArgbStruct_parse_inv (s s' : bytes) (v : ARGB) :
  ArgbStruct._parse s = Ok (v, s') ->
  ArgbAdapter._decode (firstn 4 s) = Ok v /\ s' = skipn 4 s.
Proof.
  unfold ArgbStruct._parse, Bytes._parse. intros H. parse_ok_step H.
  bind_ok H. apply Ok_inj in H. injection H as <- <-.
  apply stream_read_ok in E. destruct E as (-> & -> & _).
  split; [assumption|reflexivity].
Qed.

Lemma FlagsEnum_parse_inv (flags : dict) (s s' : bytes)
      (v : list (string * bool)) :
  FlagsEnum._parse flags s = Ok (v, s') ->
  v = FlagsEnum._decode flags (from_bytes_le (firstn 2 s)) /\ s' = skipn 2 s.
Proof.
  unfold FlagsEnum._parse. intros H. parse_ok_step H.
  apply Ok_inj in H. injection H as <- <-.
  apply FormatField_parse_inv in E. destruct E as [-> ->].
  split; reflexivity.
Qed.

Lemma PaddedString_parse_inv (len : Z) (s s' : bytes) (v : str) :
  PaddedString._parse len s = Ok (v, s') ->
  utf_16_le_decode (NullStripped (firstn (Z.to_nat len) s)) = Ok v
  /\ s' = skipn (Z.to_nat len) s.
Proof.
  unfold PaddedString._parse. intros H.
  destruct (len <? 0); [discriminate|]. parse_ok_step H.
  bind_ok H. apply Ok_inj in H. injection H as <- <-.
  apply stream_read_ok in E. destruct E as (-> & -> & _).
  split; [assumption|reflexivity].
Qed.

(** X16: where a tile is read from.  The identifier is read from the bytes
    0 to 15, the order from 16 to 19, the colour from 20 to 23, the length
    [n] of the name from 24 and 25, the flags from 26 and 27, the name from
    the [2 * n] bytes that follow, and the owner from the 16 bytes right
    after the name, wherever that is: its place moves with [n].  The buffer
    has 88 bytes or more, and [n] is at most 22: with a longer name the
    owner would end after the 88 bytes, and such a buffer is not parsed. *)
Theorem TileData_parse_layout (with_zero : bool) (b : bytes)
      (t : TileData.obj) :
  parse (TileData._parse with_zero) b = Ok t ->
  exists n,
    TileData._NameLength t = Some n
    /\ n = from_bytes_le (firstn 2 (skipn 24 b))
    /\ 0 <= n <= 22
    /\ (88 <= length b)%nat
    /\ GUIDAdapter._decode (firstn 16 b) = Ok (TileData.GUID t)
    /\ TileData.Order t = from_bytes_le (firstn 4 (skipn 16 b))
    /\ ArgbAdapter._decode (firstn 4 (skipn 20 b)) = Ok (TileData.ThemeColor t)
    /\ TileData.SettingsMask t
       = FlagsDict (FlagsEnum._decode (iter_flag with_zero TileSettings)
                      (from_bytes_le (firstn 2 (skipn 26 b))))
    /\ utf_16_le_decode
         (NullStripped (firstn (Z.to_nat (2 * n)) (skipn 28 b)))
       = Ok (TileData.TileName t)
    /\ GUIDAdapter._decode (firstn 16 (skipn (28 + Z.to_nat (2 * n)) b))
       = Ok (TileData.OwnerGUID t).
Proof.
  intros H.
  destruct (TileData_parse_name_length with_zero b t H) as (n & Hn & Hr).
  pose proof (TileData_parse_length with_zero b t H) as Hlen.
  exists n. split; [exact Hn|].
  apply parse_ok in H. destruct H as [s2 H].
  apply Padded_parse_inv in H. destruct H as (s1 & H & _).
  unfold TileData.struct_parse in H.
  do 7 parse_ok_step H. apply Ok_inj in H. injection H as <- <-.
  cbn [TileData._NameLength] in Hn. injection Hn as ->.
  cbn [TileData.GUID TileData.Order TileData.ThemeColor TileData.SettingsMask
       TileData.TileName TileData.OwnerGUID].
  apply GUIDAdapter_parse_inv in E. destruct E as [E S0].
  apply FormatField_parse_inv in E0. destruct E0 as [V1 S1].
  apply ArgbStruct_parse_inv in E1. destruct E1 as [E1 S2].
  apply FormatField_parse_inv in E2. destruct E2 as [V3 S3].
  apply FlagsEnum_parse_inv in E3. destruct E3 as [V4 S4].
  apply PaddedString_parse_inv in E4. destruct E4 as [E4 S5].
  apply GUIDAdapter_parse_inv in E5. destruct E5 as [E5 _].
  unfold Int32ul, Int16ul in *.
  repeat match goal with
         | S : ?s = skipn _ b |- _ => subst s; rewrite ?skipn_skipn in *
         end.
  replace (n * 2) with (2 * n) in * by ring.
  match type of E5 with
  | context [skipn ?k b] =>
      replace k with (28 + Z.to_nat (2 * n))%nat in E5 by lia
  end.
  split; [exact V3|]. split; [exact Hr|]. split; [exact Hlen|].
  split; [exact E|]. split; [exact V1|]. split; [exact E1|].
  split; [rewrite V4; reflexivity|]. split; [exact E4|exact E5].
Qed.

Lemma TileData_parse_layout_witness :
  exists n,
    Some 0 = Some n
    /\ n = from_bytes_le (firstn 2 (skipn 24 (zeros 88)))
    /\ 0 <= n <= 22
    /\ (88 <= length (zeros 88))%nat
    /\ GUIDAdapter._decode (firstn 16 (zeros 88)) = Ok (mkUUID 0)
    /\ 0 = from_bytes_le (firstn 4 (skipn 16 (zeros 88)))
    /\ ArgbAdapter._decode (firstn 4 (skipn 20 (zeros 88)))
       = Ok (mkARGB 0 0 0 0)
    /\ FlagsDict (FlagsEnum._decode (iter_flag true TileSettings) 0)
       = FlagsDict (FlagsEnum._decode (iter_flag true TileSettings)
                      (from_bytes_le (firstn 2 (skipn 26 (zeros 88)))))
    /\ utf_16_le_decode
         (NullStripped (firstn (Z.to_nat (2 * n)) (skipn 28 (zeros 88))))
       = Ok []
    /\ GUIDAdapter._decode
         (firstn 16 (skipn (28 + Z.to_nat (2 * n)) (zeros 88)))
       = Ok (mkUUID 0).
Proof.
  apply (TileData_parse_layout true (zeros 88)
           (TileData.mk (mkUUID 0) 0 (mkARGB 0 0 0 0) (Some 0)
              (FlagsDict (FlagsEnum._decode (iter_flag true TileSettings) 0))
              [] (mkUUID 0))).
  vm_compute. reflexivity.
Defined.

(** ** Timestamps the codec keeps, and timestamps it cannot give back *)

(** *** Quotients that are binary64 numbers are not rounded *)

Lemma round_half_even_exact (q d : Z) : 0 < d -> round_half_even (q * d) d = q.
Proof.
  intros Hd. unfold round_half_even.
  rewrite Z.div_mul, Z.mod_mul by lia.
  destruct (Z.compare_spec (2 * 0) d); [lia|reflexivity|lia].
Qed.

(** The exponent [float_of_ratio] chooses for an integer quotient. *)
Lemma float_of_ratio_expo (c d : Z) :
  0 < c -> 0 < d -> expo (float_of_ratio (c * d) d) = Z.log2 c - 52.
Proof.
  intros Hc Hd. unfold float_of_ratio.
  assert (0 < c * d) as Hn by (apply Z.mul_pos_pos; assumption).
  destruct (Z.eqb_spec (c * d) 0) as [|_]; [lia|].
  set (n := c * d) in *.
  set (k := Z.log2 n - Z.log2 d).
  set (lg := if n * 2 ^ Z.max 0 (- k) <? d * 2 ^ Z.max 0 k then k - 1 else k).
  assert (le_scaled d n lg /\ lt_scaled n d (lg + 1)) as [Hlo Hhi].
  { unfold lg. destruct (Z.ltb_spec (n * 2 ^ Z.max 0 (- k)) (d * 2 ^ Z.max 0 k))
      as [Hlt|Hge].
    - split; [apply le_scaled_log2; assumption|].
      replace (k - 1 + 1) with k by lia. exact Hlt.
    - split; [exact Hge|]. apply lt_scaled_log2; assumption. }
  cbv zeta. cbn [expo]. f_equal.
  unfold le_scaled in Hlo. unfold lt_scaled in Hhi.
  assert (0 <= lg) as Hlg.
  { destruct (Z.le_gt_cases 0 lg) as [|Hneg]; [assumption|]. exfalso.
    replace (Z.max 0 (lg + 1)) with 0 in Hhi by lia.
    rewrite Z.pow_0_r, Z.mul_1_r in Hhi.
    pose proof (pow2_pos (- (lg + 1))) as P.
    unfold n in Hhi. nia. }
  replace (Z.max 0 lg) with lg in Hlo by lia.
  replace (Z.max 0 (- lg)) with 0 in Hlo by lia.
  replace (Z.max 0 (lg + 1)) with (lg + 1) in Hhi by lia.
  replace (Z.max 0 (- (lg + 1))) with 0 in Hhi by lia.
  rewrite Z.pow_0_r, Z.mul_1_r in Hlo, Hhi. unfold n in Hlo, Hhi.
  symmetry. apply Z.log2_unique; [exact Hlg|].
  replace (Z.succ lg) with (lg + 1) by lia. split.
  - apply (Z.mul_le_mono_pos_l _ _ d Hd). lia.
  - apply (Z.mul_lt_mono_pos_l d); [exact Hd|]. lia.
Qed.

Lemma float_of_ratio_mant (c d : Z) :
  0 < c -> 0 < d ->
  mant (float_of_ratio (c * d) d)
  = round_half_even (c * d * 2 ^ Z.max 0 (- (Z.log2 c - 52)))
                    (d * 2 ^ Z.max 0 (Z.log2 c - 52)).
Proof.
  intros Hc Hd. pose proof (float_of_ratio_expo c d Hc Hd) as He.
  unfold float_of_ratio in *.
  assert (0 < c * d) as Hn by (apply Z.mul_pos_pos; assumption).
  destruct (Z.eqb_spec (c * d) 0) as [|_]; [lia|].
  cbv zeta in *. cbn [mant expo] in *. rewrite He. reflexivity.
Qed.

(** An integer of at most 53 bits is a binary64. *)
Lemma float_of_ratio_small (c d : Z) :
  0 < c < 2 ^ 53 -> 0 < d ->
  float_of_ratio (c * d) d
  = mkFloat (c * 2 ^ (52 - Z.log2 c)) (Z.log2 c - 52).
Proof.
  intros Hc Hd.
  pose proof (float_of_ratio_expo c d ltac:(lia) Hd) as He.
  pose proof (float_of_ratio_mant c d ltac:(lia) Hd) as Hm.
  assert (Z.log2 c < 53) as Hl by (apply Z.log2_lt_pow2; lia).
  pose proof (Z.log2_nonneg c) as Hl0.
  replace (Z.max 0 (- (Z.log2 c - 52))) with (52 - Z.log2 c) in Hm by lia.
  replace (Z.max 0 (Z.log2 c - 52)) with 0 in Hm by lia.
  rewrite Z.pow_0_r, Z.mul_1_r in Hm.
  replace (c * d * 2 ^ (52 - Z.log2 c)) with (c * 2 ^ (52 - Z.log2 c) * d)
    in Hm by ring.
  rewrite round_half_even_exact in Hm by exact Hd.
  destruct (float_of_ratio (c * d) d) as [m e]. cbn [mant expo] in *.
  subst m e. reflexivity.
Qed.

(** An integer whose bits after the 53rd are zero is a binary64. *)
Lemma float_of_ratio_large (c d j : Z) :
  0 < c -> 0 < d -> 0 <= j -> Z.log2 c - 52 <= j -> (2 ^ j | c) ->
  int_of_float (float_of_ratio (c * d) d) = c.
Proof.
  intros Hc Hd Hj Hlog [c' Hdiv].
  pose proof (float_of_ratio_expo c d Hc Hd) as He.
  pose proof (float_of_ratio_mant c d Hc Hd) as Hm.
  remember (Z.log2 c - 52) as e eqn:Ee.
  unfold int_of_float. rewrite He, Hm.
  destruct (Z.leb_spec 0 e) as [Hpos|Hneg].
  - replace (Z.max 0 (- e)) with 0 by lia.
    replace (Z.max 0 e) with e by lia.
    rewrite Z.pow_0_r, Z.mul_1_r.
    assert (c = c' * 2 ^ (j - e) * 2 ^ e) as Hc'.
    { rewrite <- Z.mul_assoc, <- Z.pow_add_r by lia.
      replace (j - e + e) with j by lia. exact Hdiv. }
    assert (0 < 2 ^ e) by (apply Z.pow_pos_nonneg; lia).
    replace (c * d) with (c' * 2 ^ (j - e) * (d * 2 ^ e))
      by (rewrite Hc'; ring).
    rewrite round_half_even_exact by (apply Z.mul_pos_pos; assumption).
    symmetry. exact Hc'.
  - replace (Z.max 0 (- e)) with (- e) by lia.
    replace (Z.max 0 e) with 0 by lia.
    rewrite Z.pow_0_r, Z.mul_1_r.
    replace (c * d * 2 ^ (- e)) with (c * 2 ^ (- e) * d) by ring.
    rewrite round_half_even_exact by exact Hd.
    apply Z.div_mul. apply Z.pow_nonzero; lia.
Qed.

Lemma ticks_of_whole_seconds (s : Z) :
  0 <= s <= last_exact_second ->
  int_of_float (float_mul_int (total_seconds (s * 1000000)) 10000000)
  = s * 10000000.
Proof.
  unfold last_exact_second. intros Hs.
  destruct (Z.eq_dec s 0) as [->|Hnz]; [reflexivity|].
  unfold total_seconds, int_truediv. change (10 ^ 6) with 1000000.
  rewrite float_of_ratio_small by lia.
  unfold float_mul_int. cbn [mant expo].
  assert (Z.log2 s < 53) as Hl by (apply Z.log2_lt_pow2; lia).
  pose proof (Z.log2_nonneg s) as Hl0.
  replace (Z.max 0 (Z.log2 s - 52)) with 0 by lia.
  replace (Z.max 0 (- (Z.log2 s - 52))) with (52 - Z.log2 s) by lia.
  rewrite Z.pow_0_r, Z.mul_1_r.
  replace (s * 2 ^ (52 - Z.log2 s) * 10000000)
    with (s * 10000000 * 2 ^ (52 - Z.log2 s)) by ring.
  apply (float_of_ratio_large _ _ 7).
  - lia.
  - apply Z.pow_pos_nonneg; lia.
  - lia.
  - assert (Z.log2 (s * 10000000) < 60); [|lia].
    apply Z.log2_lt_pow2; [lia|]. change (2 ^ 60) with 1152921504606846976.
    lia.
  - exists (s * 78125). change (2 ^ 7) with 128. ring.
Qed.

(** X17: whole seconds are kept.  A timestamp a whole number of seconds
    after the epoch, up to 5254-06-18T21:21:00Z, is encoded to exactly ten
    million ticks for every second, and the ticks are decoded to the
    timestamp: the codec gives it back as it was, through the 64-bit field
    as well.  The next second is already not given back: it comes back 13
    microseconds early. *)
Theorem BandTime_whole_seconds_exact :
  (forall s,
      0 <= s <= last_exact_second ->
      BandTime._encode (EPOCH + s * 1000000) = Ok (s * 10000000)
      /\ BandTime._decode (s * 10000000) = Ok (EPOCH + s * 1000000)
      /\ forall rest,
           BandTime._parse (to_bytes_le 8 (s * 10000000) ++ rest)
           = Ok (EPOCH + s * 1000000, rest))
  /\ BandTime._encode (EPOCH + (last_exact_second + 1) * 1000000)
     = Ok ((last_exact_second + 1) * 10000000 - 128)
  /\ BandTime._decode ((last_exact_second + 1) * 10000000 - 128)
     = Ok (EPOCH + (last_exact_second + 1) * 1000000 - 13).
Proof.
  split; [|split; vm_compute; reflexivity].
  intros s Hs.
  assert (BandTime._encode (EPOCH + s * 1000000) = Ok (s * 10000000)) as He.
  { unfold BandTime._encode, datetime_sub.
    unfold last_exact_second in Hs.
    assert (EPOCH = 50491123200000000) as EE by reflexivity.
    assert (datetime_max = 315537897599999999) as EM by reflexivity.
    destruct (Z.ltb_spec datetime_max (EPOCH + s * 1000000)); [lia|].
    destruct (Z.ltb_spec (EPOCH + s * 1000000) EPOCH); [lia|].
    replace (EPOCH + s * 1000000 - EPOCH) with (s * 1000000) by ring.
    rewrite ticks_of_whole_seconds by exact Hs. reflexivity. }
  assert (BandTime._decode (s * 10000000) = Ok (EPOCH + s * 1000000)) as Hd.
  { destruct (BandTime_decode_spec (s * 10000000)) as [Hok _].
    rewrite Hok.
    - f_equal. f_equal. replace (s * 10000000) with (s * 1000000 * 10) by ring.
      apply Z.div_mul. lia.
    - unfold first_tick, last_tick, last_exact_second in *. lia. }
  split; [exact He|]. split; [exact Hd|].
  intros rest. unfold BandTime._parse.
  rewrite (FormatField_roundtrip Int64ul (s * 10000000)).
  - rewrite bind_Ok. cbv beta iota. rewrite Hd. reflexivity.
  - apply FormatField_build_ok. unfold Int64ul, last_exact_second in *.
    change (256 ^ Z.of_nat 8) with 18446744073709551616. lia.
Qed.

Lemma BandTime_whole_seconds_exact_witness :
  BandTime._encode (EPOCH + 13222396800 * 1000000) = Ok (13222396800 * 10000000)
  /\ BandTime._decode (13222396800 * 10000000)
     = Ok (EPOCH + 13222396800 * 1000000).
Proof.
  destruct BandTime_whole_seconds_exact as [H _].
  destruct (H 13222396800) as (He & Hd & _).
  - unfold last_exact_second. lia.
  - split; [exact He|exact Hd].
Defined.

(** X18: the end of the range.  Each of the last 15 microseconds before
    [datetime.max] is encoded, and built to eight bytes, but to the tick
    count of the first microsecond of the year 10000, which is not decoded:
    parsing what was built raises [OverflowError]. *)
Theorem BandTime_last_microseconds_not_decoded (date : datetime) :
  datetime_max - 14 <= date <= datetime_max ->
  BandTime._encode date = Ok (last_tick + 1)
  /\ BandTime._build date = Ok (to_bytes_le 8 (last_tick + 1))
  /\ BandTime._decode (last_tick + 1) = Raise OverflowError
  /\ forall rest,
       BandTime._parse (to_bytes_le 8 (last_tick + 1) ++ rest)
       = Raise OverflowError.
Proof.
  intros H.
  assert (BandTime._encode date = Ok (last_tick + 1)) as He.
  { assert (datetime_max = 315537897599999999) as EM by reflexivity.
    assert (date = 315537897599999999 - 14 \/ date = 315537897599999999 - 13
            \/ date = 315537897599999999 - 12 \/ date = 315537897599999999 - 11
            \/ date = 315537897599999999 - 10 \/ date = 315537897599999999 - 9
            \/ date = 315537897599999999 - 8 \/ date = 315537897599999999 - 7
            \/ date = 315537897599999999 - 6 \/ date = 315537897599999999 - 5
            \/ date = 315537897599999999 - 4 \/ date = 315537897599999999 - 3
            \/ date = 315537897599999999 - 2 \/ date = 315537897599999999 - 1
            \/ date = 315537897599999999) as Hc by lia.
    repeat destruct Hc as [->|Hc]; try subst date; vm_compute; reflexivity. }
  split; [exact He|]. split; [|split].
  - unfold BandTime._build. rewrite He. reflexivity.
  - reflexivity.
  - intros rest. unfold BandTime._parse.
    rewrite (FormatField_roundtrip Int64ul (last_tick + 1)) by reflexivity.
    reflexivity.
Qed.

Lemma BandTime_last_microseconds_not_decoded_witness :
  BandTime._encode datetime_max = Ok (last_tick + 1)
  /\ BandTime._decode (last_tick + 1) = Raise OverflowError.
Proof.
  destruct (BandTime_last_microseconds_not_decoded datetime_max)
    as (He & _ & Hd & _).
  - assert (datetime_max = 315537897599999999) as EM by reflexivity. lia.
  - split; [exact He|exact Hd].
Defined.

(** ** Timestamps: how far the round trip can drift *)

(** A binary64 rounding moves a positive quotient by less than one part in
    [2 ^ 53 - 1]. *)
Lemma float_of_ratio_relative (n d : Z) :
  0 < n -> 0 < d ->
  let f := float_of_ratio n d in
  (2 ^ 53 - 1)
  * Z.abs (mant f * (d * 2 ^ Z.max 0 (expo f)) - n * 2 ^ Z.max 0 (- expo f))
  <= n * 2 ^ Z.max 0 (- expo f)
  /\ 0 < mant f.
Proof.
  intros Hn Hd f.
  destruct (float_of_ratio_nearest n d Hn Hd) as (Hm & Hnear & _).
  fold f in Hm, Hnear. cbv zeta in Hnear.
  pose proof (pow2_pos (expo f)) as A. pose proof (pow2_pos (- expo f)) as B.
  remember (2 ^ Z.max 0 (expo f)) as a. remember (2 ^ Z.max 0 (- expo f)) as b.
  assert (0 < d * a) as HD by (apply Z.mul_pos_pos; assumption).
  assert (2 ^ 52 * (d * a) <= mant f * (d * a)) as Hlow
      by (apply Z.mul_le_mono_nonneg_r; lia).
  change (2 ^ 52) with 4503599627370496 in *.
  change (2 ^ 53) with 9007199254740992 in *.
  remember (mant f * (d * a)) as mD. remember (n * b) as N.
  remember (d * a) as D.
  split; [|lia]. lia.
Qed.

(** [int] cuts a positive float down to the integer below. *)
Lemma int_of_float_floor (f : float) :
  0 <= mant f ->
  int_of_float f * 2 ^ Z.max 0 (- expo f) <= mant f * 2 ^ Z.max 0 (expo f)
  /\ mant f * 2 ^ Z.max 0 (expo f)
     < (int_of_float f + 1) * 2 ^ Z.max 0 (- expo f).
Proof.
  intros Hm. unfold int_of_float.
  destruct (Z.leb_spec 0 (expo f)) as [He|He].
  - replace (Z.max 0 (- expo f)) with 0 by lia.
    replace (Z.max 0 (expo f)) with (expo f) by lia.
    rewrite Z.pow_0_r. lia.
  - replace (Z.max 0 (- expo f)) with (- expo f) by lia.
    replace (Z.max 0 (expo f)) with 0 by lia.
    rewrite Z.pow_0_r.
    assert (0 < 2 ^ (- expo f)) as Hp by (apply Z.pow_pos_nonneg; lia).
    pose proof (Z.div_mod (mant f) (2 ^ (- expo f)) ltac:(lia)) as Hdm.
    pose proof (Z.mod_pos_bound (mant f) (2 ^ (- expo f)) Hp) as Hmod.
    remember (mant f / 2 ^ (- expo f)) as q.
    remember (mant f mod 2 ^ (- expo f)) as r.
    remember (2 ^ (- expo f)) as p. nia.
Qed.

(** The tick count computed for [x] microseconds is [10 * x] up to two
    roundings, each of less than one part in [R = 2 ^ 53 - 1], and one
    truncation. *)
Lemma ticks_relative (x : Z) :
  0 < x ->
  let ticks := int_of_float (float_mul_int (total_seconds x) 10000000) in
  let R := 2 ^ 53 - 1 in
  R * R * ticks <= (R + 1) * (R + 1) * (10 * x)
  /\ (R - 1) * (R - 1) * (10 * x) < R * R * (ticks + 1).
Proof.
  intros Hx ticks R. subst ticks.
  unfold total_seconds, int_truediv. change (10 ^ 6) with 1000000.
  destruct (float_of_ratio_relative x 1000000 Hx ltac:(lia)) as [H1 M1].
  cbv zeta in H1, M1.
  set (f1 := float_of_ratio x 1000000) in *.
  unfold float_mul_int.
  pose proof (pow2_pos (expo f1)) as A1.
  pose proof (pow2_pos (- expo f1)) as B1.
  set (a1 := 2 ^ Z.max 0 (expo f1)) in *.
  set (d2 := 2 ^ Z.max 0 (- expo f1)) in *.
  set (n2 := mant f1 * 10000000 * a1).
  assert (0 < n2) as Hn2
      by (unfold n2; apply Z.mul_pos_pos; [lia|exact A1]).
  destruct (float_of_ratio_relative n2 d2 Hn2 B1) as [H2 M2].
  cbv zeta in H2, M2.
  set (f2 := float_of_ratio n2 d2) in *.
  destruct (int_of_float_floor f2 ltac:(lia)) as [T1 T2].
  pose proof (pow2_pos (expo f2)) as A2.
  pose proof (pow2_pos (- expo f2)) as B2.
  set (a2 := 2 ^ Z.max 0 (expo f2)) in *.
  set (b2 := 2 ^ Z.max 0 (- expo f2)) in *.
  set (t := int_of_float f2) in *.
  (* atoms *)
  assert (n2 = 10 * (mant f1 * (1000000 * a1))) as En2 by (unfold n2; ring).
  remember (mant f1 * (1000000 * a1)) as P1 eqn:EP1.
  remember (x * d2) as xb eqn:Exb.
  remember (mant f2 * a2) as Q eqn:EQ.
  replace (mant f2 * (d2 * a2)) with (Q * d2) in H2 by (rewrite EQ; ring).
  assert (0 < b2 * d2) as Hbd by (apply Z.mul_pos_pos; assumption).
  assert (t * b2 * d2 <= Q * d2) as T1'
      by (apply Z.mul_le_mono_nonneg_r; lia).
  assert (Q * d2 < (t + 1) * b2 * d2) as T2'
      by (apply Z.mul_lt_mono_pos_r; lia).
  subst R. change (2 ^ 53 - 1) with 9007199254740991 in *.
  assert (9007199254740991 * (P1 * (10 * b2))
          <= 9007199254740992 * (xb * (10 * b2))) as U1
      by (rewrite !Z.mul_assoc; apply Z.mul_le_mono_nonneg_r; lia).
  assert (9007199254740990 * (xb * (10 * b2))
          <= 9007199254740991 * (P1 * (10 * b2))) as L1
      by (rewrite !Z.mul_assoc; apply Z.mul_le_mono_nonneg_r; lia).
  assert (n2 * b2 = P1 * (10 * b2)) as En2b by (rewrite En2; ring).
  rewrite En2b in H2.
  remember (P1 * (10 * b2)) as Pb eqn:EPb.
  remember (xb * (10 * b2)) as Xb eqn:EXb.
  remember (Q * d2) as Qd eqn:EQd.
  assert (10 * x * (b2 * d2) = Xb) as EX by (rewrite EXb, Exb; ring).
  split.
  - apply (Z.mul_le_mono_pos_r _ _ (b2 * d2) Hbd).
    replace (9007199254740991 * 9007199254740991 * t * (b2 * d2))
      with (9007199254740991 * 9007199254740991 * (t * b2 * d2)) by ring.
    replace ((9007199254740991 + 1) * (9007199254740991 + 1) * (10 * x)
             * (b2 * d2))
      with (9007199254740992 * 9007199254740992 * (10 * x * (b2 * d2)))
      by ring.
    rewrite EX. lia.
  - apply (Z.mul_lt_mono_pos_r (b2 * d2) _ _ Hbd).
    replace ((9007199254740991 - 1) * (9007199254740991 - 1) * (10 * x)
             * (b2 * d2))
      with (9007199254740990 * 9007199254740990 * (10 * x * (b2 * d2)))
      by ring.
    replace (9007199254740991 * 9007199254740991 * (t + 1) * (b2 * d2))
      with (9007199254740991 * 9007199254740991 * ((t + 1) * b2 * d2))
      by ring.
    rewrite EX. lia.
Qed.

Lemma ticks_drift (x : Z) :
  0 <= x <= datetime_max - EPOCH ->
  let ticks := int_of_float (float_mul_int (total_seconds x) 10000000) in
  Z.abs (ticks - 10 * x) <= 589
  /\ (x < year_2500 - EPOCH -> Z.abs (ticks - 10 * x) <= 64).
Proof.
  intros Hx ticks.
  destruct (Z.eq_dec x 0) as [->|Hnz];
    [vm_compute; split; [discriminate|intros _; discriminate]|].
  destruct (ticks_relative x ltac:(lia)) as [U L]. fold ticks in U, L.
  cbv zeta in U, L. change (2 ^ 53 - 1) with 9007199254740991 in *.
  assert (datetime_max - EPOCH = 265046774399999999) as EM by reflexivity.
  assert (year_2500 - EPOCH = 28369699200000000) as EY by reflexivity.
  rewrite EM in Hx. rewrite EY. clearbody ticks. split; [lia|].
  intros Hy. lia.
Qed.

(** X19: how far a timestamp can drift.  Every timestamp from the epoch to
    [datetime.max] is encoded to a tick count within 589 ticks of the true
    one, so that what is decoded from it, when it is decoded, is within 59
    microseconds of the timestamp; a timestamp before the year 2500 always
    comes back, within 7 microseconds. *)
Theorem BandTime_roundtrip_drift (date : datetime) :
  EPOCH <= date <= datetime_max ->
  exists ticks,
    BandTime._encode date = Ok ticks
    /\ Z.abs (ticks - 10 * (date - EPOCH)) <= 589
    /\ (forall back,
          BandTime._decode ticks = Ok back -> Z.abs (back - date) <= 59)
    /\ (date < year_2500 ->
        exists back,
          BandTime._decode ticks = Ok back /\ Z.abs (back - date) <= 7).
Proof.
  intros H.
  set (ticks := int_of_float
                  (float_mul_int (total_seconds (datetime_sub date EPOCH))
                                 10000000)).
  assert (BandTime._encode date = Ok ticks) as He.
  { unfold BandTime._encode.
    destruct (Z.ltb_spec datetime_max date); [lia|].
    destruct (Z.ltb_spec date EPOCH); [lia|]. reflexivity. }
  destruct (ticks_drift (date - EPOCH) ltac:(lia)) as [D1 D2].
  fold (datetime_sub date EPOCH) in D1, D2. fold ticks in D1, D2.
  cbv zeta in D1, D2. unfold datetime_sub in D1, D2. clearbody ticks.
  assert (EPOCH = 50491123200000000) as EE by reflexivity.
  assert (datetime_max = 315537897599999999) as EM by reflexivity.
  exists ticks. split; [exact He|]. split; [exact D1|].
  pose proof (Z.div_mod ticks 10 ltac:(lia)) as Hdm.
  pose proof (Z.mod_pos_bound ticks 10 ltac:(lia)) as Hmod.
  split.
  - intros back Hb.
    destruct (BandTime_decode_spec ticks) as [Hok Herr].
    destruct (Z.le_gt_cases ticks last_tick) as [Hle|Hgt].
    + rewrite Hok in Hb by (unfold first_tick, last_tick in *; lia).
      apply Ok_inj in Hb. subst back. lia.
    + rewrite Herr in Hb by (right; exact Hgt). discriminate Hb.
  - intros Hy. specialize (D2 ltac:(lia)).
    assert (year_2500 = 78860822400000000) as EY by reflexivity.
    destruct (BandTime_decode_spec ticks) as [Hok _].
    exists (EPOCH + ticks / 10). split; [|lia].
    apply Hok. unfold first_tick, last_tick. lia.
Qed.

Lemma BandTime_roundtrip_drift_witness :
  exists ticks,
    BandTime._encode (EPOCH + 35) = Ok ticks
    /\ Z.abs (ticks - 10 * (EPOCH + 35 - EPOCH)) <= 589
    /\ (forall back,
          BandTime._decode ticks = Ok back ->
          Z.abs (back - (EPOCH + 35)) <= 59)
    /\ (EPOCH + 35 < year_2500 ->
        exists back,
          BandTime._decode ticks = Ok back
          /\ Z.abs (back - (EPOCH + 35)) <= 7).
Proof.
  apply (BandTime_roundtrip_drift (EPOCH + 35)).
  assert (EPOCH = 50491123200000000) as EE by reflexivity.
  assert (datetime_max = 315537897599999999) as EM by reflexivity.
  lia.
Defined.

(** ** Identifiers as hexadecimal strings *)

Lemma lower_hex_cases (c : ascii) :
  lower_hex c = true -> lower_hex_facts c = true.
Proof.
  unfold lower_hex. cbn [list_ascii_of_string existsb]. intros H.
  repeat match type of H with
         | _ || _ = true => apply orb_prop in H; destruct H as [H|H]
         end;
    try discriminate H; apply Ascii.eqb_eq in H; subst c; reflexivity.
Qed.

Ltac lower_hex_facts c H :=
  let F := fresh "F" in
  pose proof (lower_hex_cases c H) as F; unfold lower_hex_facts in F;
  repeat (apply andb_prop in F; let G := fresh "F" in destruct F as [F G]);
  repeat match goal with
         | E : negb _ = true |- _ => apply negb_true_iff in E
         | E : (_ <? _) = true |- _ => apply Z.ltb_lt in E
         | E : (_ <=? _) = true |- _ => apply Z.leb_le in E
         end.

Lemma hex_digit_facts (d : Z) :
  0 <= d < 16 ->
  lower_hex (pystr.hex_digit d) = true
  /\ pystr.digit_value (pystr.hex_digit d) = d.
Proof.
  intros H.
  assert ((lower_hex (pystr.hex_digit d)
           && (pystr.digit_value (pystr.hex_digit d) =? d)) = true) as F.
  { apply (forallb_below 16
             (fun d => lower_hex (pystr.hex_digit d)
                       && (pystr.digit_value (pystr.hex_digit d) =? d)));
      [vm_compute; reflexivity|exact H]. }
  apply andb_prop in F. destruct F as [F1 F2]. apply Z.eqb_eq in F2.
  split; assumption.
Qed.

Lemma value16_app (acc : Z) (a b : list ascii) :
  value16 acc (a ++ b) = value16 (value16 acc a) b.
Proof. apply fold_left_app. Qed.

Lemma hex_digits_value (fuel : nat) :
  forall n, 0 <= n < 16 ^ Z.of_nat fuel ->
            Forall (fun c => lower_hex c = true) (pystr.hex_digits fuel n)
            /\ value16 0 (pystr.hex_digits fuel n) = n.
Proof.
  induction fuel as [|fuel IH]; intros n Hn.
  - change (16 ^ Z.of_nat 0) with 1 in Hn. assert (n = 0) as -> by lia.
    split; [apply Forall_nil|reflexivity].
  - rewrite Nat2Z.inj_succ, Z.pow_succ_r in Hn by lia.
    cbn [pystr.hex_digits]. destruct (Z.ltb_spec n 16) as [Hlt|Hge].
    + destruct (hex_digit_facts n ltac:(lia)) as [F1 F2].
      split; [apply Forall_cons; [exact F1|apply Forall_nil]|].
      cbn [value16 fold_left]. rewrite F2. lia.
    + assert (0 <= n / 16 < 16 ^ Z.of_nat fuel) as Hq
          by (split; [apply Z.div_pos; lia|apply Z.div_lt_upper_bound; lia]).
      destruct (IH _ Hq) as [A V].
      pose proof (Z.mod_pos_bound n 16 ltac:(lia)) as Hm.
      destruct (hex_digit_facts (n mod 16) Hm) as [F1 F2].
      split.
      * apply Forall_app. split; [exact A|].
        apply Forall_cons; [exact F1|apply Forall_nil].
      * rewrite value16_app, V. cbn [value16 fold_left]. rewrite F2.
        pose proof (Z.div_mod n 16 ltac:(lia)). lia.
Qed.

Lemma hex_digits_length (fuel : nat) :
  forall (k : nat) n,
    (1 <= k)%nat -> 0 <= n < 16 ^ Z.of_nat k ->
    (length (pystr.hex_digits fuel n) <= k)%nat.
Proof.
  induction fuel as [|fuel IH]; intros k n Hk Hn; [cbn; lia|].
  cbn [pystr.hex_digits]. destruct (Z.ltb_spec n 16) as [Hlt|Hge].
  - cbn [length]. lia.
  - destruct k as [|k]; [lia|].
    rewrite Nat2Z.inj_succ, Z.pow_succ_r in Hn by lia.
    destruct k as [|k]; [change (16 ^ Z.of_nat 0) with 1 in Hn; lia|].
    rewrite length_app. cbn [length].
    assert (length (pystr.hex_digits fuel (n / 16)) <= S k)%nat; [|lia].
    apply IH; [lia|].
    split; [apply Z.div_pos; lia|apply Z.div_lt_upper_bound; lia].
Qed.

(** ['%032x' % n] for a 128-bit [n]: 32 lower-case digits that stand for
    [n]. *)
Lemma format_032x_spec (n : Z) :
  0 <= n < 2 ^ 128 ->
  exists l,
    pystr.format_032x n = string_of_list_ascii l
    /\ length l = 32%nat
    /\ Forall (fun c => lower_hex c = true) l
    /\ value16 0 l = n.
Proof.
  intros Hn. unfold pystr.format_032x.
  rewrite Z.abs_eq by lia.
  destruct (Z.ltb_spec n 0) as [|_]; [lia|].
  set (fuel := S (Z.to_nat (Z.log2 n))).
  assert (0 <= n < 16 ^ Z.of_nat fuel) as Hfuel.
  { split; [lia|]. unfold fuel. rewrite Nat2Z.inj_succ.
    pose proof (Z.log2_nonneg n) as Hl. rewrite Z2Nat.id by exact Hl.
    destruct (Z.eq_dec n 0) as [->|Hnz]; [reflexivity|].
    apply Z.lt_le_trans with (2 ^ Z.succ (Z.log2 n)).
    - apply Z.log2_spec. lia.
    - apply Z.pow_le_mono_l. lia. }
  destruct (hex_digits_value fuel n Hfuel) as [A V].
  pose proof (hex_digits_length fuel 32 n ltac:(lia) Hn) as L.
  set (digits := pystr.hex_digits fuel n) in *.
  cbn [app length]. rewrite Nat.sub_0_r.
  eexists. split; [reflexivity|]. split; [|split].
  - rewrite length_app, repeat_length. lia.
  - apply Forall_app. split; [|exact A].
    apply Forall_forall. intros c Hc. apply repeat_spec in Hc. subst c.
    reflexivity.
  - rewrite value16_app.
    assert (forall k, value16 0 (repeat "0"%char k) = 0) as Hz.
    { induction k as [|k IHk]; [reflexivity|]. cbn [repeat].
      change (value16 0 ("0"%char :: repeat "0"%char k))
        with (value16 0 (repeat "0"%char k)). exact IHk. }
    rewrite Hz. exact V.
Qed.

(** Nothing is taken out of a string that lacks the first character of
    what is looked for. *)
Lemma remove_absent (p : ascii) (old s : list ascii) :
  Forall (fun c => Ascii.eqb p c = false) s ->
  pystr.remove (p :: old) s = s.
Proof.
  unfold pystr.remove. induction 1 as [|c r Hc Hr IH]; [reflexivity|].
  cbn [pystr.remove_from pystr.startswith]. rewrite Hc. cbn [andb].
  rewrite IH. reflexivity.
Qed.

Lemma lstrip_absent (chars s : list ascii) :
  Forall (fun c => existsb (Ascii.eqb c) chars = false) s ->
  pystr.lstrip chars s = s.
Proof.
  destruct 1 as [|c r Hc Hr]; [reflexivity|].
  cbn [pystr.lstrip]. rewrite Hc. reflexivity.
Qed.

Lemma strip_absent (chars s : list ascii) :
  Forall (fun c => existsb (Ascii.eqb c) chars = false) s ->
  pystr.strip chars s = s.
Proof.
  intros H. unfold pystr.strip.
  rewrite (lstrip_absent chars s H).
  rewrite lstrip_absent by (apply Forall_rev; exact H).
  apply rev_involutive.
Qed.

Lemma scan_digits_lower_hex (l : list ascii) :
  Forall (fun c => lower_hex c = true) l ->
  forall digits acc,
    pystr.scan_digits 16 l false digits acc
    = Some (value16 acc l, (length l + digits)%nat, []).
Proof.
  induction 1 as [|c r Hc Hr IH]; intros digits acc; [reflexivity|].
  lower_hex_facts c Hc. cbn [pystr.scan_digits].
  match goal with
  | E : Ascii.eqb c "_" = false |- _ => rewrite E
  end.
  replace (pystr.digit_value c <? 16) with true
    by (symmetry; apply Z.ltb_lt; assumption).
  rewrite IH. cbn [length value16 fold_left].
  rewrite Nat.add_succ_r. reflexivity.
Qed.

Lemma int_16_lower_hex (c : ascii) (r : list ascii) :
  Forall (fun c => lower_hex c = true) (c :: r) ->
  pystr.int_16 (string_of_list_ascii (c :: r)) = Ok (value16 0 (c :: r)).
Proof.
  intros H. pose proof H as H'. inversion H' as [|? ? Hc Hr]; subst.
  lower_hex_facts c Hc. unfold pystr.int_16.
  rewrite list_ascii_of_string_of_list_ascii.
  cbn [pystr.skip_spaces].
  repeat match goal with
         | E : _ = false |- _ => rewrite E
         end.
  assert (match r with
          | [] => c :: r
          | x :: r0 =>
              if Ascii.eqb c "0" && (Ascii.eqb x "x" || Ascii.eqb x "X")
              then match r0 with
                   | [] => r0
                   | u :: r' => if Ascii.eqb u "_" then r' else r0
                   end
              else c :: r
          end = c :: r) as ->.
  { destruct r as [|x r0]; [reflexivity|].
    inversion Hr as [|? ? Hx _]; subst. lower_hex_facts x Hx.
    repeat match goal with
           | E : Ascii.eqb x _ = false |- _ => rewrite E
           end.
    rewrite andb_false_r. reflexivity. }
  match goal with
  | E : Ascii.eqb c "_" = false |- _ => rewrite E
  end.
  rewrite (scan_digits_lower_hex _ H). cbn [length Nat.add].
  reflexivity.
Qed.

Lemma lower_hex_Forall (P : ascii -> bool) (l : list ascii) :
  (forall c, lower_hex c = true -> P c = false) ->
  Forall (fun c => lower_hex c = true) l ->
  Forall (fun c => P c = false) l.
Proof.
  intros HP H. induction H; constructor; auto.
Qed.

(** X20: an identifier as a string.  Every identifier (a 128-bit integer)
    is encoded to a string of 32 lower-case hexadecimal digits, and the
    string is decoded to the identifier. *)
Theorem GUIDStringAdapter_decode_of_encode (u : UUID) :
  0 <= UUID_int u < 2 ^ 128 ->
  String.length (GUIDStringAdapter._encode u) = 32%nat
  /\ Forall (fun c => lower_hex c = true)
            (list_ascii_of_string (GUIDStringAdapter._encode u))
  /\ GUIDStringAdapter._decode (GUIDStringAdapter._encode u) = Ok u.
Proof.
  intros Hu. destruct u as [n]. cbn [UUID_int] in Hu.
  unfold GUIDStringAdapter._encode, GUIDStringAdapter._decode, uuid_hex.hex.
  cbn [UUID_int].
  destruct (format_032x_spec n Hu) as (l & -> & Hl & Hhex & Hv).
  assert (String.length (string_of_list_ascii l) = 32%nat) as Hlen.
  { rewrite <- Hl. clear. induction l as [|c l IH]; [reflexivity|].
    cbn [string_of_list_ascii String.length length]. rewrite IH.
    reflexivity. }
  split; [exact Hlen|].
  rewrite list_ascii_of_string_of_list_ascii. split; [exact Hhex|].
  unfold uuid_hex.of_hex. rewrite list_ascii_of_string_of_list_ascii.
  cbn [list_ascii_of_string].
  rewrite (remove_absent "u" _ l)
    by (apply (lower_hex_Forall (Ascii.eqb "u")); [|exact Hhex];
        intros c Hc; lower_hex_facts c Hc; rewrite Ascii.eqb_sym; assumption).
  rewrite (remove_absent "u" _ l)
    by (apply (lower_hex_Forall (Ascii.eqb "u")); [|exact Hhex];
        intros c Hc; lower_hex_facts c Hc; rewrite Ascii.eqb_sym; assumption).
  rewrite (strip_absent _ l)
    by (apply (lower_hex_Forall
                 (fun c => existsb (Ascii.eqb c) ["{"%char; "}"%char]));
        [|exact Hhex];
        intros c Hc; lower_hex_facts c Hc; cbn [existsb];
        repeat match goal with
               | E : Ascii.eqb c _ = false |- _ => rewrite E
               end; reflexivity).
  rewrite (remove_absent "-" _ l)
    by (apply (lower_hex_Forall (Ascii.eqb "-")); [|exact Hhex];
        intros c Hc; lower_hex_facts c Hc; rewrite Ascii.eqb_sym; assumption).
  rewrite Hl. cbn [Nat.eqb negb].
  destruct l as [|c r]; [discriminate Hl|].
  rewrite (int_16_lower_hex c r Hhex), bind_Ok, Hv.
  replace ((0 <=? n) && (n <? 2 ^ 128)) with true
    by (symmetry; apply andb_true_intro; split;
        [apply Z.leb_le|apply Z.ltb_lt]; lia).
  reflexivity.
Qed.

Lemma GUIDStringAdapter_decode_of_encode_witness :
  String.length
    (GUIDStringAdapter._encode (mkUUID 0x090fa5525e0ca24d803baf536cf97da3))
  = 32%nat
  /\ Forall (fun c => lower_hex c = true)
            (list_ascii_of_string
               (GUIDStringAdapter._encode
                  (mkUUID 0x090fa5525e0ca24d803baf536cf97da3)))
  /\ GUIDStringAdapter._decode
       (GUIDStringAdapter._encode (mkUUID 0x090fa5525e0ca24d803baf536cf97da3))
     = Ok (mkUUID 0x090fa5525e0ca24d803baf536cf97da3).
Proof.
  apply (GUIDStringAdapter_decode_of_encode
           (mkUUID 0x090fa5525e0ca24d803baf536cf97da3)).
  cbn [UUID_int]. lia.
Defined.

(** ** How colours are shown *)

Lemma shown_facts_hold (v : Z) : 0 <= v < 256 -> shown_facts v = true.
Proof. apply (forallb_below 256 shown_facts). vm_compute. reflexivity. Qed.

Lemma string_of_list_ascii_inj (a b : list ascii) :
  string_of_list_ascii a = string_of_list_ascii b -> a = b.
Proof.
  intros H. apply (f_equal list_ascii_of_string) in H.
  rewrite !list_ascii_of_string_of_list_ascii in H. exact H.
Qed.

Lemma format_02X_byte (v : Z) :
  0 <= v < 256 -> pyformat.format_02X v = shown v.
Proof.
  intros H. pose proof (shown_facts_hold v H) as F. unfold shown_facts in F.
  apply andb_prop in F. destruct F as [F _].
  apply andb_prop in F. destruct F as [F _].
  apply String.eqb_eq in F. apply string_of_list_ascii_inj. exact F.
Qed.

Lemma shown_inj (v w : Z) :
  0 <= v < 256 -> 0 <= w < 256 -> shown v = shown w -> v = w.
Proof.
  intros Hv Hw H.
  pose proof (shown_facts_hold v Hv) as Fv.
  pose proof (shown_facts_hold w Hw) as Fw.
  unfold shown_facts in Fv, Fw.
  apply andb_prop in Fv, Fw. destruct Fv as [Fv Fv2], Fw as [Fw Fw2].
  apply andb_prop in Fv, Fw. destruct Fv as [_ Fv1], Fw as [_ Fw1].
  apply Z.eqb_eq in Fv1, Fv2, Fw1, Fw2.
  unfold shown in H. injection H as H1 H2.
  rewrite H1 in Fv1. rewrite H2 in Fv2.
  pose proof (Z.div_mod v 16 ltac:(lia)).
  pose proof (Z.div_mod w 16 ltac:(lia)). lia.
Qed.

(** X21: how a colour is shown.  With its three channels in [range(256)], a
    colour is shown as [#] and six upper-case hexadecimal digits, two for
    each channel, and two colours shown the same are the same.  Outside
    that range this is lost: a channel takes the digits it needs and
    different colours are shown the same. *)
Theorem RGB_repr_six_digits :
  (forall r g b,
      0 <= r < 256 -> 0 <= g < 256 -> 0 <= b < 256 ->
      RGB.__repr__ r g b
      = string_of_list_ascii ("#"%char :: shown r ++ shown g ++ shown b)
      /\ String.length (RGB.__repr__ r g b) = 7%nat)
  /\ (forall r g b r' g' b',
        0 <= r < 256 -> 0 <= g < 256 -> 0 <= b < 256 ->
        0 <= r' < 256 -> 0 <= g' < 256 -> 0 <= b' < 256 ->
        RGB.__repr__ r g b = RGB.__repr__ r' g' b' ->
        r = r' /\ g = g' /\ b = b')
  /\ RGB.__repr__ 0xABC 0xDE 0 = RGB.__repr__ 0xAB 0xCDE 0.
Proof.
  assert (forall r g b,
             0 <= r < 256 -> 0 <= g < 256 -> 0 <= b < 256 ->
             RGB.__repr__ r g b
             = string_of_list_ascii ("#"%char :: shown r ++ shown g ++ shown b))
    as Hform.
  { intros r g b Hr Hg Hb. unfold RGB.__repr__.
    rewrite !format_02X_byte by assumption. reflexivity. }
  split; [|split; [|reflexivity]].
  - intros r g b Hr Hg Hb. split; [apply Hform; assumption|].
    rewrite Hform by assumption. reflexivity.
  - intros r g b r' g' b' Hr Hg Hb Hr' Hg' Hb' H.
    rewrite !Hform in H by assumption.
    apply string_of_list_ascii_inj in H.
    unfold shown at 1 2 3 4 5 6 in H. cbn [app] in H.
    injection H as H1 H2 H3 H4 H5 H6.
    repeat split; apply shown_inj; try assumption; unfold shown; congruence.
Qed.

Lemma RGB_repr_six_digits_witness :
  RGB.__repr__ 255 128 0 = "#FF8000"%string
  /\ String.length (RGB.__repr__ 255 128 0) = 7%nat.
Proof.
  destruct RGB_repr_six_digits as [H _].
  destruct (H 255 128 0) as [H1 H2]; try lia.
  split; [rewrite H1; reflexivity|exact H2].
Defined.

Lemma percent_facts_hold (alpha : Z) :
  0 <= alpha < 256 -> percent_facts alpha = true.
Proof. apply (forallb_below 256 percent_facts). vm_compute. reflexivity. Qed.

(** X22: how the alpha channel is shown.  [alpha / 255] is a fraction of
    one, shown with no decimals and followed by [%]: for an alpha in
    [range(256)] what is shown after the colour is [(0%)] up to 127 and
    [(1%)] from 128 on, and nothing else. *)
Theorem ARGB_repr_percent (r g b a : Z) :
  0 <= a < 256 ->
  ARGB.__repr__ (mkARGB r g b a)
  = Ok (RGB.__repr__ r g b
        ++ (if (a <? 128)%Z then " (0%)" else " (1%)"))%string.
Proof.
  intros Ha. pose proof (percent_facts_hold a Ha) as F.
  unfold percent_facts, percent in F. unfold ARGB.__repr__.
  cbn [alpha red green blue].
  destruct (pyformat.truediv_255 a) as [x|e]; [|discriminate F].
  rewrite bind_Ok. apply String.eqb_eq in F.
  apply (f_equal list_ascii_of_string) in F.
  rewrite list_ascii_of_string_of_list_ascii in F. rewrite F.
  destruct (a <? 128); reflexivity.
Qed.

Lemma ARGB_repr_percent_witness :
  ARGB.__repr__ (mkARGB 255 128 0 255) = Ok "#FF8000 (1%)"%string.
Proof.
  rewrite (ARGB_repr_percent 255 128 0 255) by lia. reflexivity.
Defined.

(** ** The system time, from the record to the datetime and back *)

(** X23: a record that is decoded is encoded back as it was, except for its
    day of the week, which is computed from the date again: the record
    comes back the same exactly when it held the right day (Monday being
    0).  Its milliseconds are below 1000. *)
Theorem BandSystemDateTimeAdapter_encode_of_decode (t : BandSystemTime.t)
      (date : dt.naive) :
  BandSystemDateTimeAdapter._decode t = Ok date ->
  BandSystemDateTimeAdapter._encode date = with_DayOfWeek t (dt.weekday date)
  /\ 0 <= BandSystemTime.Milliseconds t < 1000
  /\ 0 <= dt.weekday date < 7
  /\ (BandSystemDateTimeAdapter._encode date = t
      <-> BandSystemTime.DayOfWeek t = dt.weekday date).
Proof.
  intros H. unfold BandSystemDateTimeAdapter._decode in H.
  apply dt_datetime_inv in H. destruct H as (-> & _ & _ & _ & _ & _ & _ & Hus).
  destruct t as [Y M W D h mi s ms].
  cbn [BandSystemTime.Year BandSystemTime.Month BandSystemTime.DayOfWeek
       BandSystemTime.Day BandSystemTime.Hour BandSystemTime.Minute
       BandSystemTime.Second BandSystemTime.Milliseconds] in *.
  assert (BandSystemDateTimeAdapter._encode (dt.mk Y M D h mi s (ms * 1000))
          = BandSystemTime.mk Y M (dt.weekday (dt.mk Y M D h mi s (ms * 1000)))
              D h mi s ms) as He.
  { unfold BandSystemDateTimeAdapter._encode.
    cbn [dt.year dt.month dt.day dt.hour dt.minute dt.second dt.microsecond].
    rewrite Z.div_mul by lia. reflexivity. }
  split; [exact He|]. split; [lia|]. split.
  - unfold dt.weekday. apply Z.mod_pos_bound. lia.
  - rewrite He. split.
    + intros E. injection E as E. symmetry. exact E.
    + intros ->. reflexivity.
Qed.

Lemma BandSystemDateTimeAdapter_encode_of_decode_witness :
  BandSystemDateTimeAdapter._encode (dt.mk 2015 6 30 23 59 59 123000)
  = with_DayOfWeek sample_systemtime 1
  /\ BandSystemDateTimeAdapter._encode (dt.mk 2015 6 30 23 59 59 123000)
     <> sample_systemtime.
Proof.
  destruct (BandSystemDateTimeAdapter_encode_of_decode sample_systemtime
              (dt.mk 2015 6 30 23 59 59 123000) eq_refl)
    as (He & _ & _ & Hiff).
  split; [exact He|].
  intros E. apply Hiff in E. discriminate E.
Defined.

(** ** The structs of [RGB] and [ARGB] *)

Lemma Struct_roundtrip (subcons : list (string * nat)) (obj : dict) :
  forall b rest,
    Struct._build subcons obj = Ok b ->
    exists vals,
      Struct._parse subcons (b ++ rest) = Ok (vals, rest)
      /\ parsed_from subcons obj vals.
Proof.
  induction subcons as [|[name width] subcons IH]; intros b rest H.
  - apply Ok_inj in H. subst b. exists []. split; [reflexivity|].
    apply Forall2_nil.
  - cbn [Struct._build] in H. do 3 bind_ok H. apply Ok_inj in H. subst b.
    destruct (IH _ rest eq_refl) as (vals & Hp & Hv).
    exists ((name, a) :: vals). split.
    + cbn [Struct._parse]. rewrite <- app_assoc.
      rewrite (FormatField_roundtrip _ _ _ _ E0), bind_Ok. cbv beta iota.
      rewrite Hp. reflexivity.
    + apply Forall2_cons; [split; [reflexivity|exact E]|exact Hv].
Qed.

Lemma Struct_build_length (subcons : list (string * nat)) (obj : dict) :
  forall b,
    Struct._build subcons obj = Ok b ->
    length b = list_sum (map snd subcons).
Proof.
  induction subcons as [|[name width] subcons IH]; intros b H.
  - apply Ok_inj in H. subst b. reflexivity.
  - cbn [Struct._build] in H. do 3 bind_ok H. apply Ok_inj in H. subst b.
    apply FormatField_produces in E0.
    rewrite length_app, E0, (IH _ eq_refl). reflexivity.
Qed.

Lemma Struct_build_missing (subcons : list (string * nat)) (obj : dict)
      (name : string) :
  In name (map fst subcons) ->
  (forall v, getitem obj name <> Ok v) ->
  fails (Struct._build subcons obj).
Proof.
  intros Hin Hmiss. induction subcons as [|[n w] subcons IH]; [destruct Hin|].
  cbn [Struct._build].
  destruct (getitem obj n) as [v|e] eqn:E; [|exists e; reflexivity].
  rewrite bind_Ok.
  destruct (FormatField._build w v) as [d|e]; [|exists e; reflexivity].
  rewrite bind_Ok.
  destruct Hin as [Heq|Hin].
  - cbn [fst] in Heq. subst n. destruct (Hmiss v E).
  - destruct (IH Hin) as [e He]. rewrite He. exists e. reflexivity.
Qed.

(** X24: the structs the two colour classes carry.  Whatever dictionary
    [RGB.struct] or [ARGB.struct] is built from, it is built to three or
    four bytes, and these are parsed, under each channel's name, to the
    value the dictionary held under that name, alpha first for
    [ARGB.struct]; a dictionary that lacks one of the channels is not
    built. *)
Theorem colour_structs_roundtrip (obj : dict) :
  (forall b rest,
      Struct._build ARGB_struct obj = Ok b ->
      length b = 4%nat
      /\ exists a r g bl,
           Struct._parse ARGB_struct (b ++ rest)
           = Ok ([("alpha", a); ("red", r); ("green", g); ("blue", bl)]%string,
                 rest)
           /\ getitem obj "alpha" = Ok a /\ getitem obj "red" = Ok r
           /\ getitem obj "green" = Ok g /\ getitem obj "blue" = Ok bl)
  /\ (forall b rest,
        Struct._build RGB_struct obj = Ok b ->
        length b = 3%nat
        /\ exists r g bl,
             Struct._parse RGB_struct (b ++ rest)
             = Ok ([("red", r); ("green", g); ("blue", bl)]%string, rest)
             /\ getitem obj "red" = Ok r /\ getitem obj "green" = Ok g
             /\ getitem obj "blue" = Ok bl)
  /\ (forall name,
        In name ["red"; "green"; "blue"]%string ->
        (forall v, getitem obj name <> Ok v) ->
        fails (Struct._build ARGB_struct obj)
        /\ fails (Struct._build RGB_struct obj)).
Proof.
  split; [|split].
  - intros b rest H. split; [apply (Struct_build_length _ _ _ H)|].
    destruct (Struct_roundtrip _ _ _ rest H) as (vals & Hp & Hv).
    unfold parsed_from, ARGB_struct in Hv.
    repeat match goal with
           | F : Forall2 _ (_ :: _) _ |- _ =>
               inversion F; clear F; subst
           | F : Forall2 _ [] _ |- _ => inversion F; clear F; subst
           end.
    destruct_pairs.
    repeat match goal with
           | F : _ = _ /\ _ |- _ => destruct F as [-> ?]
           end.
    do 4 eexists. split; [exact Hp|]. repeat split; assumption.
  - intros b rest H. split; [apply (Struct_build_length _ _ _ H)|].
    destruct (Struct_roundtrip _ _ _ rest H) as (vals & Hp & Hv).
    unfold parsed_from, RGB_struct in Hv.
    repeat match goal with
           | F : Forall2 _ (_ :: _) _ |- _ =>
               inversion F; clear F; subst
           | F : Forall2 _ [] _ |- _ => inversion F; clear F; subst
           end.
    destruct_pairs.
    repeat match goal with
           | F : _ = _ /\ _ |- _ => destruct F as [-> ?]
           end.
    do 3 eexists. split; [exact Hp|]. repeat split; assumption.
  - intros name Hin Hmiss. split.
    + apply (Struct_build_missing _ _ name); [|exact Hmiss].
      cbn [ARGB_struct map fst]. right. exact Hin.
    + apply (Struct_build_missing _ _ name); [|exact Hmiss]. exact Hin.
Qed.

Lemma colour_structs_roundtrip_witness :
  (exists a r g bl,
      Struct._parse ARGB_struct ([x80; xff; x10; x00] ++ [x07])
      = Ok ([("alpha", a); ("red", r); ("green", g); ("blue", bl)]%string,
            [x07])
      /\ Ok 128 = Ok a /\ Ok 255 = Ok r /\ Ok 16 = Ok g /\ Ok 0 = Ok bl)
  /\ fails (Struct._build ARGB_struct vars_ARGB).
Proof.
  split.
  - destruct (colour_structs_roundtrip
                [("red", 255); ("green", 16); ("blue", 0); ("alpha", 128)]%string)
      as (H & _ & _).
    destruct (H [x80; xff; x10; x00] [x07] eq_refl) as (_ & Hex).
    exact Hex.
  - destruct (colour_structs_roundtrip vars_ARGB) as (_ & _ & H).
    apply (H "red"%string); [cbn; tauto|].
    intros v Hv. discriminate Hv.
Defined.

(** ** Strings: building what was parsed *)

Lemma units_of_bytes_inv (b : bytes) :
  forall us,
    units_of_bytes b = Ok us ->
    b = flat_map (to_bytes_le 2) us /\ Forall is_unit us.
Proof.
  induction b as [| x | lo hi r IH] using pairs_ind; intros us H.
  - apply Ok_inj in H. subst us. split; [reflexivity|apply Forall_nil].
  - discriminate H.
  - cbn [units_of_bytes] in H. bind_ok H. apply Ok_inj in H. subst us.
    destruct (IH _ eq_refl) as [Hb Hu]. split.
    + cbn [flat_map]. rewrite <- Hb.
      change 2%nat with (length [lo; hi]) at 1.
      rewrite to_from_bytes_le. reflexivity.
    + apply Forall_cons; [|exact Hu].
      pose proof (from_bytes_le_range [lo; hi]) as Hr. exact Hr.
Qed.

Lemma utf16_units_bmp (u : Z) :
  is_unit u -> is_high_surrogate u = false -> is_low_surrogate u = false ->
  utf16_units u = Ok [u].
Proof.
  unfold is_unit, is_high_surrogate, is_low_surrogate, utf16_units.
  intros Hu Hh Hl.
  destruct (Z.ltb_spec u 0); [lia|]. destruct (Z.ltb_spec 0x10FFFF u); [lia|].
  cbn [orb]. destruct (Z.ltb_spec u 0x10000); [|lia].
  apply andb_false_iff in Hh, Hl. rewrite !Z.leb_gt in Hh, Hl.
  destruct (Z.leb_spec 0xD800 u); [|reflexivity].
  destruct (Z.leb_spec u 0xDFFF); [lia|reflexivity].
Qed.

Lemma utf16_units_pair (hi lo : Z) :
  is_high_surrogate hi = true -> is_low_surrogate lo = true ->
  utf16_units (0x10000 + (hi - 0xD800) * 1024 + (lo - 0xDC00)) = Ok [hi; lo].
Proof.
  unfold is_high_surrogate, is_low_surrogate, utf16_units. intros Hh Hl.
  apply andb_prop in Hh, Hl. destruct Hh as [H1 H2], Hl as [L1 L2].
  apply Z.leb_le in H1, H2, L1, L2.
  remember (hi - 0xD800) as q. remember (lo - 0xDC00) as m.
  assert (0 <= q < 1024) as Hq by lia. assert (0 <= m < 1024) as Hm by lia.
  destruct (Z.ltb_spec (0x10000 + q * 1024 + m) 0); [lia|].
  destruct (Z.ltb_spec 0x10FFFF (0x10000 + q * 1024 + m)); [lia|].
  cbn [orb]. destruct (Z.ltb_spec (0x10000 + q * 1024 + m) 0x10000); [lia|].
  replace (0x10000 + q * 1024 + m - 0x10000) with (q * 1024 + m) by ring.
  rewrite Z.shiftr_div_pow2 by lia. change (2 ^ 10) with 1024.
  change 0x3FF with (Z.ones 10). rewrite Z.land_ones by lia.
  change (2 ^ 10) with 1024.
  rewrite <- (Z.div_unique (q * 1024 + m) 1024 q m) by lia.
  rewrite <- (Z.mod_unique (q * 1024 + m) 1024 q m) by lia.
  do 2 f_equal; [lia|f_equal; lia].
Qed.

Lemma decode_units_encode (n : nat) :
  forall (us : list Z) (v : str),
    (length us <= n)%nat -> Forall is_unit us -> decode_units us = Ok v ->
    utf_16_le_encode v = Ok (flat_map (to_bytes_le 2) us).
Proof.
  induction n as [|n IH]; intros us v Hn Hu H.
  - destruct us; [|cbn [length] in Hn; lia].
    apply Ok_inj in H. subst v. reflexivity.
  - destruct us as [|u r].
    { apply Ok_inj in H. subst v. reflexivity. }
    cbn [length] in Hn. cbn [decode_units] in H.
    inversion Hu as [|? ? Hu1 Hur]; subst.
    destruct (is_high_surrogate u) eqn:Eh.
    + destruct r as [|w r']; [discriminate|].
      destruct (is_low_surrogate w) eqn:El; [|discriminate].
      bind_ok H. apply Ok_inj in H. subst v. cbn [length] in Hn.
      inversion Hur as [|? ? Hw Hr']; subst.
      cbn [utf_16_le_encode]. rewrite utf16_units_pair by assumption.
      rewrite bind_Ok, (IH r' a ltac:(lia) Hr' E), bind_Ok.
      cbn [flat_map]. rewrite app_nil_r, <- app_assoc. reflexivity.
    + destruct (is_low_surrogate u) eqn:El; [discriminate|].
      bind_ok H. apply Ok_inj in H. subst v.
      cbn [utf_16_le_encode]. rewrite utf16_units_bmp by assumption.
      rewrite bind_Ok, (IH r a ltac:(lia) Hur E), bind_Ok.
      cbn [flat_map]. rewrite app_nil_r. reflexivity.
Qed.

Lemma strip_units_prefix (r : bytes) :
  exists j, r = zeros (2 * j) ++ strip_units r.
Proof.
  induction r as [| x | a b r IH] using pairs_ind.
  - exists 0%nat. reflexivity.
  - exists 0%nat. reflexivity.
  - cbn [strip_units].
    destruct (Byte.eqb a x00) eqn:Ea; [|exists 0%nat; reflexivity].
    destruct (Byte.eqb b x00) eqn:Eb; [|exists 0%nat; reflexivity].
    cbn [andb]. apply Byte.byte_dec_bl in Ea, Eb. subst a b.
    destruct IH as [j IH]. exists (S j).
    replace (2 * S j)%nat with (S (S (2 * j))) by lia.
    change (zeros (S (S (2 * j)))) with (x00 :: x00 :: zeros (2 * j)).
    cbn [app]. rewrite <- IH. reflexivity.
Qed.

(** What is stripped is zero bytes at the end, and nothing else. *)
Lemma NullStripped_split (data : bytes) :
  exists k, data = NullStripped data ++ zeros k.
Proof.
  unfold NullStripped.
  assert (forall r1 k, rev data = zeros k ++ r1 ->
                       exists k', data = rev (strip_units r1) ++ zeros k')
    as Hgen.
  { intros r1 k Hr. destruct (strip_units_prefix r1) as [j Hj].
    exists (k + 2 * j)%nat.
    rewrite <- (rev_involutive data), Hr. rewrite Hj at 1.
    rewrite !rev_app_distr, !rev_zeros, <- app_assoc.
    f_equal. unfold zeros. rewrite <- repeat_app. f_equal. lia. }
  destruct (Nat.odd (length data)); [|apply (Hgen _ 0%nat); reflexivity].
  destruct (rev data) as [|a r'] eqn:Er;
    [apply (Hgen _ 0%nat); reflexivity|].
  destruct (Byte.eqb a x00) eqn:Ea.
  - apply Byte.byte_dec_bl in Ea. subst a.
    apply (Hgen _ 1%nat). reflexivity.
  - apply (Hgen _ 0%nat). reflexivity.
Qed.

(** X25: a string field is built to what it was parsed from.  Whatever
    bytes a fixed-size string field is parsed from, the string that comes
    out is built to the same bytes again: nothing of the wire image is lost
    in the string, the padding included. *)
Theorem PaddedString_build_of_parse (len : Z) (s s' : bytes) (v : str) :
  PaddedString._parse len s = Ok (v, s') ->
  PaddedString._build len v = Ok (firstn (Z.to_nat len) s)
  /\ s = firstn (Z.to_nat len) s ++ s'.
Proof.
  intros H. unfold PaddedString._parse in H.
  destruct (Z.ltb_spec len 0) as [Hl|Hl]; [discriminate|].
  parse_ok_step H. bind_ok H. apply Ok_inj in H. injection H as <- <-.
  apply stream_read_ok in E. destruct E as (-> & -> & _ & Hb).
  split; [|symmetry; apply firstn_skipn].
  set (data := firstn (Z.to_nat len) s) in *.
  unfold utf_16_le_decode in E0. bind_ok E0. rename a0 into us.
  destruct (units_of_bytes_inv _ _ E) as [Hd Hu].
  pose proof (decode_units_encode (length us) us a (Nat.le_refl _) Hu E0)
    as Henc.
  rewrite <- Hd in Henc.
  rewrite PaddedString_build_encode, Henc, bind_Ok.
  destruct (Z.ltb_spec len 0); [lia|].
  pose proof (NullStripped_length data) as Hlen.
  destruct (Z.ltb_spec (len - Z.of_nat (length (NullStripped data))) 0);
    [lia|].
  destruct (NullStripped_split data) as [k Hk].
  pose proof (f_equal (@length byte) Hk) as Hk'.
  rewrite length_app, length_zeros in Hk'. clearbody data.
  replace (Z.to_nat (len - Z.of_nat (length (NullStripped data)))) with k
    by lia.
  f_equal. symmetry. exact Hk.
Qed.

Lemma PaddedString_build_of_parse_witness :
  PaddedString._build 6 [72; 105] = Ok [x48; x00; x69; x00; x00; x00]
  /\ [x48; x00; x69; x00; x00; x00; xff]
     = [x48; x00; x69; x00; x00; x00] ++ [xff].
Proof.
  exact (PaddedString_build_of_parse 6
           [x48; x00; x69; x00; x00; x00; xff] [xff] [72; 105] eq_refl).
Defined.

(** ** [Profile]: the round trip at every version *)

Lemma If_roundtrip_absent {A} (f : A -> result bytes) (p : parser A) (e : exn)
      (b rest : bytes) :
  If._build false f e None = Ok b ->
  If._parse false p (b ++ rest) = Ok (None, rest).
Proof.
  unfold If._build, If._parse. intros H. apply Ok_inj in H. subst b.
  reflexivity.
Qed.

Ltac roundtrip_absent_step :=
  first
    [ erewrite FormatField_roundtrip by eassumption
    | erewrite BandTime_roundtrip by eassumption
    | erewrite GUIDAdapter_roundtrip by eassumption
    | erewrite Adapted_roundtrip by eassumption
    | erewrite PaddedString_roundtrip by eassumption
    | erewrite Flag_roundtrip by eassumption
    | erewrite (If_roundtrip_absent _ BandTime._parse) by eassumption
    | erewrite (If_roundtrip_absent _ (FormatField._parse _)) by eassumption ];
  rewrite bind_Ok; cbv beta iota.

Lemma Profile_struct_roundtrip_before_2 (E : Enums) (r : Profile.t)
      (data : bytes) :
  enums_invertible E ->
  Profile.Version r < 2 ->
  gated_fields false r ->
  ProfileStruct.struct_build E r = Ok data ->
  timestamps_exact r ->
  strings_kept r ->
  ProfileStruct.struct_parse E data = Ok (r, []).
Proof.
  intros (Ie1 & Ie2 & Ie3 & Ie4 & Ie5 & Ie6) Hv Hg H Ht Hs.
  destruct r. unfold timestamps_exact, strings_kept, gated_fields, presence in *.
  cbn [Profile.Version Profile.LastSync Profile.Birthday
       Profile.HwagChangeTime Profile.HwagChangeAgent
       Profile.DeviceNameChangeTime Profile.DeviceNameChangeAgent
       Profile.LocaleSettingsChangeTime Profile.LocaleSettingsChangeAgent
       Profile.LanguageChangeTime Profile.LanguageChangeAgent Profile.MaxHR
       Profile.DeviceName Profile.LocaleName Profile.DateSeparator
       Profile.NumberSeparator Profile.DecimalSeparator] in *.
  destruct Hg as (G1 & G2 & G3 & G4 & G5 & G6 & G7 & G8 & G9).
  destruct Ht as (T1 & T2 & _).
  destruct Hs as (S1 & S2 & S3 & S4 & S5).
  unfold ProfileStruct.struct_build in H. cbv zeta in H.
  cbn [Profile.Version Profile.LastSync Profile.UserGUID Profile.Birthday
       Profile.Weight_g Profile.Height_mm Profile.Gender Profile.DeviceName
       Profile.LocaleName Profile.LocaleId Profile.Language
       Profile.DateSeparator Profile.NumberSeparator Profile.DecimalSeparator
       Profile.TimeFormat Profile.DateFormat Profile.DistanceShortUnits
       Profile.DistanceLongUnits Profile.MassUnits Profile.VolumeUnits
       Profile.EnergyUnits Profile.TemperatureUnits Profile.RunDisplayUnits
       Profile.Telemetry Profile.HwagChangeTime Profile.HwagChangeAgent
       Profile.DeviceNameChangeTime Profile.DeviceNameChangeAgent
       Profile.LocaleSettingsChangeTime Profile.LocaleSettingsChangeAgent
       Profile.LanguageChangeTime Profile.LanguageChangeAgent Profile.MaxHR
       Profile.ReservedData] in H.
  replace (2 <=? Version) with false in H
    by (symmetry; apply Z.leb_gt; exact Hv).
  do 34 bind_ok H. apply Ok_inj in H. subst data.
  unfold GreedyBytes._build in *.
  match goal with
  | G : Ok ReservedData = Ok _ |- _ => apply Ok_inj in G; subst
  end.
  unfold ProfileStruct.struct_parse.
  roundtrip_absent_step.
  replace (2 <=? Version) with false by (symmetry; apply Z.leb_gt; exact Hv).
  do 32 roundtrip_absent_step.
  reflexivity.
Qed.

(** X26: the round trip of the earlier versions.  A [Profile] whose version
    is below 2 and that is built is parsed back as it was when it has
    nothing in the nine gated fields and its [ReservedData] fills the
    record (292 bytes), under the conditions that hold for version 2 as
    well: no string ends with NUL, the timestamps are among those the
    timestamp codec gives back, the enumeration adapters decode what they
    encode. *)
Theorem ProfileStruct_roundtrip_before_version_2 (E : Enums) (r : Profile.t)
      (b : bytes) :
  enums_invertible E ->
  Profile.Version r < 2 ->
  gated_fields false r ->
  ProfileStruct._build E r = Ok b ->
  timestamps_exact r ->
  strings_kept r ->
  length (Profile.ReservedData r) = 292%nat ->
  parse (ProfileStruct._parse E) b = Ok r.
Proof.
  intros HE Hv Hg H Ht Hs Hr.
  unfold ProfileStruct._build, Padded._build in H.
  change (PROFILE_SIZE <? 0) with false in H. cbv iota in H. bind_ok H.
  pose proof (Profile_struct_roundtrip_before_2 E r a HE Hv Hg E0 Ht Hs) as Hp.
  pose proof (Profile_struct_parse_inv _ _ _ _ Hp) as (_ & Hl & _).
  replace (2 <=? Profile.Version r) with false in Hl
    by (symmetry; apply Z.leb_gt; exact Hv).
  rewrite Hr in Hl.
  replace (PROFILE_SIZE - Z.of_nat (length a)) with 0 in H
    by (unfold PROFILE_SIZE; lia).
  change (0 <? 0) with false in H. cbv iota in H.
  apply Ok_inj in H. subst b. change (zeros (Z.to_nat 0)) with (@nil byte).
  rewrite app_nil_r.
  unfold parse, ProfileStruct._parse, Padded._parse.
  change (PROFILE_SIZE <? 0) with false. cbv iota.
  rewrite Hp. cbn [bind length].
  replace (PROFILE_SIZE - (Z.of_nat (length a) - Z.of_nat 0)) with 0
    by (unfold PROFILE_SIZE; lia).
  reflexivity.
Qed.

Lemma EPOCH_exact : BandTime_exact EPOCH.
Proof.
  apply (BandTime_exact_by_computation _ 0); vm_compute; reflexivity.
Qed.

Lemma ProfileStruct_roundtrip_before_version_2_witness :
  parse (ProfileStruct._parse sample_enums)
        (built (ProfileStruct._build sample_enums version1_profile))
  = Ok version1_profile.
Proof.
  apply (ProfileStruct_roundtrip_before_version_2 sample_enums version1_profile).
  - exact sample_enums_invertible.
  - cbn [Profile.Version version1_profile]. lia.
  - unfold gated_fields, presence. cbn. tauto.
  - vm_compute. reflexivity.
  - unfold timestamps_exact. cbn.
    repeat split; try exact EPOCH_exact; exact I.
  - unfold strings_kept. cbn. tauto.
  - reflexivity.
Defined.

(** ** The module's identifiers *)

(** Both are well-formed: the module is imported without an exception. *)
Example module_identifiers :
  PUSH_SERVICE = Ok (mkUUID 0xd8895bfd0461400dbd52dbe2a3c33021)
  /\ BAND_APP_IOS = Ok (mkUUID 0x090fa5525e0ca24d803baf536cf97da3).
Proof. split; vm_compute; reflexivity. Qed.
